(** * OS/161 synchronisation primitives (kern/thread/synch.c)

    A shallow embedding of the semaphore, lock and condition-variable code
    of [kern/thread/synch.c], and the properties of that code.

    The kernel runs on one processor.  Between [splhigh] and the next
    [thread_sleep] (or the closing [splx]) nothing else runs, so every
    function is modelled as a state transformer that runs until it returns,
    faults, or puts the calling thread to sleep.  A sleeping thread carries
    the point of the source at which it continues once it is woken. *)

From Stdlib Require Import ZArith Lia.
From stdpp Require Import base option list gmap strings.

Local Open Scope Z_scope.

(** ** Machine integers and pointers *)

(** [int] is 32 bits wide; arithmetic on it wraps around. *)
Definition INT_MAX : Z := 2147483647.
Definition INT_MIN : Z := -2147483648.

Definition wrap_int (z : Z) : Z := (z + 2147483648) mod 4294967296 - 2147483648.

(** Pointers are addresses; [NULL] is address 0. *)
Definition NULL : Z := 0.

(** ** Saved contexts of sleeping threads *)

(** The part of [cv_wait] that is still to run when the [lock_acquire]
    called at line 267 returns: the [splx(spl)] of line 269. *)
Inductive frame :=
| F_cv_wait (spl : Z).

(** Where a thread that called [thread_sleep] continues. *)
Inductive cont :=
| K_P (sem spl : Z)                                (* line 79, back to the test of line 78 *)
| K_lock_acquire (lock spl : Z) (rest : list frame)  (* line 149, back to the test of line 147 *)
| K_cv_wait (lock spl : Z).                        (* line 265, on to line 267 *)

Inductive tstate :=
| T_ready                          (* runnable, not inside a blocking call *)
| T_asleep (key : Z) (k : cont)    (* in thread_sleep(key) *)
| T_woken (k : cont).              (* made runnable by thread_wakeup, not yet resumed *)

(** ** Kernel objects *)

Record semaphore := { sem_name : Z; sem_count : Z }.
Record lock := { lock_name : Z; lock_occupied : Z; lock_holder : Z }.
Record cv := { cv_name : Z; cv_count : Z; cv_thread_queue : Z }.

Inductive object :=
| O_raw                      (* a block from kmalloc, not yet initialised *)
| O_str (str : string)
| O_sem (x : semaphore)
| O_lock (l : lock)
| O_cv (c : cv)
| O_queue (q : list Z).      (* struct queue: its entries, head first *)

Record kstate := {
  heap : gmap Z object;
  threads : gmap Z tstate;
  curthread : Z;
  in_interrupt : Z;
  curspl : Z;
  wakeups : list Z;           (* the keys passed to thread_wakeup, oldest first *)
  brk : positive;             (* next address kmalloc hands out *)
  kmem : nat                  (* allocations that will still succeed *)
}.

Definition set_heap (h : gmap Z object) (s : kstate) : kstate :=
  {| heap := h; threads := threads s; curthread := curthread s;
     in_interrupt := in_interrupt s; curspl := curspl s;
     wakeups := wakeups s; brk := brk s; kmem := kmem s |}.

Definition set_threads (t : gmap Z tstate) (s : kstate) : kstate :=
  {| heap := heap s; threads := t; curthread := curthread s;
     in_interrupt := in_interrupt s; curspl := curspl s;
     wakeups := wakeups s; brk := brk s; kmem := kmem s |}.

Definition set_curthread (t : Z) (s : kstate) : kstate :=
  {| heap := heap s; threads := threads s; curthread := t;
     in_interrupt := in_interrupt s; curspl := curspl s;
     wakeups := wakeups s; brk := brk s; kmem := kmem s |}.

Definition set_curspl (l : Z) (s : kstate) : kstate :=
  {| heap := heap s; threads := threads s; curthread := curthread s;
     in_interrupt := in_interrupt s; curspl := l;
     wakeups := wakeups s; brk := brk s; kmem := kmem s |}.

Definition set_wakeups (w : list Z) (s : kstate) : kstate :=
  {| heap := heap s; threads := threads s; curthread := curthread s;
     in_interrupt := in_interrupt s; curspl := curspl s;
     wakeups := w; brk := brk s; kmem := kmem s |}.

Definition set_alloc (b : positive) (m : nat) (s : kstate) : kstate :=
  {| heap := heap s; threads := threads s; curthread := curthread s;
     in_interrupt := in_interrupt s; curspl := curspl s;
     wakeups := wakeups s; brk := b; kmem := m |}.

(** ** The monad of kernel code *)

Inductive fault :=
| AssertFail (line : nat)   (* assert(...) at this line of synch.c failed *)
| MemFault                  (* load or store through NULL or a bad pointer *)
| QueueUnderflow.           (* q_remhead on a queue with no entry *)

Inductive result (A : Type) :=
| Ok (a : A) (s : kstate)
| Sleep (key : Z) (k : cont) (s : kstate)
| Fault (f : fault) (s : kstate).
Arguments Ok {A} a s.
Arguments Sleep {A} key k s.
Arguments Fault {A} f s.

Definition M (A : Type) : Type := kstate -> result A.

Definition ret {A} (a : A) : M A := fun s => Ok a s.

Definition bind {A B} (m : M A) (f : A -> M B) : M B :=
  fun s =>
    match m s with
    | Ok a s' => f a s'
    | Sleep key k s' => Sleep key k s'
    | Fault e s' => Fault e s'
    end.

Notation "x <- m ;; k" := (bind m (fun x => k))
  (at level 100, m at next level, right associativity).
Notation "m ;; k" := (bind m (fun _ => k))
  (at level 100, right associativity).

Definition get {A} (f : kstate -> A) : M A := fun s => Ok (f s) s.
Definition modify (f : kstate -> kstate) : M unit := fun s => Ok tt (f s).
Definition raise {A} (e : fault) : M A := fun s => Fault e s.

(** [assert(b)] at line [line]. *)
Definition assert_ (line : nat) (b : bool) : M unit :=
  if b then ret tt else raise (AssertFail line).

(** C truth values. *)
Definition of_bool (b : bool) : Z := if b then 1 else 0.

(** *** Memory *)

Definition load (p : Z) : M object :=
  fun s =>
    if p =? NULL then Fault MemFault s
    else match heap s !! p with
         | Some o => Ok o s
         | None => Fault MemFault s
         end.

Definition store (p : Z) (o : object) : M unit :=
  modify (fun s => set_heap (<[p:=o]> (heap s)) s).

Definition rd_sem (p : Z) : M semaphore :=
  o <- load p ;; match o with O_sem x => ret x | _ => raise MemFault end.
Definition rd_lock (p : Z) : M lock :=
  o <- load p ;; match o with O_lock l => ret l | _ => raise MemFault end.
Definition rd_cv (p : Z) : M cv :=
  o <- load p ;; match o with O_cv c => ret c | _ => raise MemFault end.
Definition rd_queue (p : Z) : M (list Z) :=
  o <- load p ;; match o with O_queue q => ret q | _ => raise MemFault end.

Definition with_sem_count (v : Z) (x : semaphore) : semaphore :=
  {| sem_name := sem_name x; sem_count := v |}.
Definition with_lock_occupied (v : Z) (l : lock) : lock :=
  {| lock_name := lock_name l; lock_occupied := v; lock_holder := lock_holder l |}.
Definition with_lock_holder (v : Z) (l : lock) : lock :=
  {| lock_name := lock_name l; lock_occupied := lock_occupied l; lock_holder := v |}.
Definition with_cv_count (v : Z) (c : cv) : cv :=
  {| cv_name := cv_name c; cv_count := v; cv_thread_queue := cv_thread_queue c |}.

(** [p->field = v]: the object is read, one field replaced, and written back. *)
Definition upd_sem (p : Z) (f : semaphore -> semaphore) : M unit :=
  x <- rd_sem p ;; store p (O_sem (f x)).
Definition upd_lock (p : Z) (f : lock -> lock) : M unit :=
  l <- rd_lock p ;; store p (O_lock (f l)).
Definition upd_cv (p : Z) (f : cv -> cv) : M unit :=
  c <- rd_cv p ;; store p (O_cv (f c)).

(** *** Collaborators that are not part of synch.c *)

(** Modelled from the spec: the allocator ([kmalloc], [kfree], [kstrdup] of
    kern/lib) is a fallible allocation that signals exhaustion by returning
    [NULL]. *)
Definition kmalloc : M Z :=
  fun s =>
    match kmem s with
    | O => Ok NULL s
    | S m =>
        Ok (Z.pos (brk s))
           (set_alloc (Pos.succ (brk s)) m
              (set_heap (<[Z.pos (brk s) := O_raw]> (heap s)) s))
    end.

(** Modelled from the spec: [kfree] of kern/lib gives the block back; what
    was stored there is gone. *)
Definition kfree (p : Z) : M unit :=
  modify (fun s => set_heap (delete p (heap s)) s).

(** Modelled from the spec: [kstrdup] of kern/lib is a fallible allocation
    of a copy of the string ("string duplication for debug labels"). *)
Definition kstrdup (str : string) : M Z :=
  p <- kmalloc ;;
  if p =? NULL then ret NULL else store p (O_str str) ;; ret p.

(** Modelled from the spec: [SPL_HIGH] of machine/spl.h is the level at
    which interrupts are masked; nothing depends on its value. *)
Definition SPL_HIGH : Z := 15.

(** Modelled from the spec: [splx] of machine/spl.h is
    [restore_interrupts(token)]: it sets the level and returns the level
    there was. *)
Definition splx (l : Z) : M Z :=
  fun s => Ok (curspl s) (set_curspl l s).

(** Modelled from the spec: [splhigh] of machine/spl.h is
    [mask_interrupts() -> token]; the token is the previous level. *)
Definition splhigh : M Z := splx SPL_HIGH.

(** Modelled from the spec: [thread_sleep] of kern/thread/thread.c is
    [sleep_on(key)]: the calling context is suspended on [key] until a
    matching wake.  [k] is where the caller continues. *)
Definition thread_sleep {A} (key : Z) (k : cont) : M A :=
  fun s =>
    Sleep key k (set_threads (<[curthread s := T_asleep key k]> (threads s)) s).

(** What a wake on [key] does to one thread. *)
Definition wake (key : Z) (t : tstate) : tstate :=
  match t with
  | T_asleep key' k => if key' =? key then T_woken k else t
  | _ => t
  end.

(** The state after a wake on [key]: every thread asleep on [key] is
    runnable, and the call is on record. *)
Definition wake_all (key : Z) (s : kstate) : kstate :=
  set_wakeups (wakeups s ++ [key]) (set_threads (wake key <$> threads s) s).

(** Modelled from the spec: [thread_wakeup] of kern/thread/thread.c is
    [wake_all(key)]: every context suspended on [key] is resumed. *)
Definition thread_wakeup (key : Z) : M unit := modify (wake_all key).

(** Whether a thread is asleep on [key]. *)
Definition sleeps_on (key : Z) (t : tstate) : bool :=
  match t with
  | T_asleep key' _ => key' =? key
  | _ => false
  end.

(** Modelled from the spec: [thread_hassleepers] of kern/thread/thread.c is
    [has_waiters(key) -> bool]. *)
Definition thread_hassleepers (key : Z) : M Z :=
  get (fun s =>
    of_bool (negb (bool_decide
      (map_Forall (fun _ t => sleeps_on key t = false) (threads s))))).

(** Modelled from the spec: [q_create] of kern/lib/queue.c makes the FIFO
    container of context handles, empty; it is a fallible allocation. *)
Definition q_create (size : Z) : M Z :=
  p <- kmalloc ;;
  if p =? NULL then ret NULL else store p (O_queue []) ;; ret p.

(** Modelled from the spec: [q_preallocate] of kern/lib/queue.c reserves
    room; the queue of the model is growable, so its entries do not
    change. *)
Definition q_preallocate (q : Z) (size : Z) : M Z :=
  _ <- rd_queue q ;; ret 0.

(** Modelled from the spec: [q_empty] of kern/lib/queue.c tells whether the
    queue has no entry. *)
Definition q_empty (q : Z) : M Z :=
  l <- rd_queue q ;; ret (of_bool (bool_decide (l = []))).

(** Modelled from the spec: [q_addtail] of kern/lib/queue.c is push-tail. *)
Definition q_addtail (q : Z) (x : Z) : M Z :=
  l <- rd_queue q ;; store q (O_queue (l ++ [x])) ;; ret 0.

(** Modelled from the spec: [q_remhead] of kern/lib/queue.c is pop-head.  The
    spec does not say what it does on an empty queue; the model stops there
    with [QueueUnderflow]. *)
Definition q_remhead (q : Z) : M Z :=
  l <- rd_queue q ;;
  match l with
  | [] => raise QueueUnderflow
  | x :: l' => store q (O_queue l') ;; ret x
  end.

(** Modelled from the spec: [q_destroy] of kern/lib/queue.c frees the
    queue. *)
Definition q_destroy (q : Z) : M unit :=
  _ <- rd_queue q ;; kfree q.

(** ** Semaphore (synch.c, lines 18-96) *)

Definition sem_create (namearg : string) (initial_count : Z) : M Z :=
  assert_ 23 (0 <=? initial_count) ;;
  sem <- kmalloc ;;
  if sem =? NULL then ret NULL
  else
    nm <- kstrdup namearg ;;
    if nm =? NULL then kfree sem ;; ret NULL
    else
      store sem (O_sem {| sem_name := nm; sem_count := initial_count |}) ;;
      ret sem.

Definition sem_destroy (sem : Z) : M unit :=
  assert_ 44 (negb (sem =? NULL)) ;;
  spl <- splhigh ;;
  n <- thread_hassleepers sem ;;
  assert_ 47 (n =? 0) ;;
  splx spl ;;
  x <- rd_sem sem ;;
  kfree (sem_name x) ;;
  kfree sem.

(** The loop of lines 78-80 and what follows it.  A thread woken from the
    [thread_sleep] of line 79 re-enters here. *)
Definition P_loop (sem spl : Z) : M unit :=
  x <- rd_sem sem ;;
  if sem_count x =? 0 then thread_sleep sem (K_P sem spl)
  else
    x <- rd_sem sem ;;
    assert_ 81 (0 <? sem_count x) ;;
    upd_sem sem (fun x => with_sem_count (wrap_int (sem_count x - 1)) x) ;;
    splx spl ;;
    ret tt.

Definition P (sem : Z) : M unit :=
  assert_ 67 (negb (sem =? NULL)) ;;
  i <- get in_interrupt ;;
  assert_ 75 (i =? 0) ;;
  spl <- splhigh ;;
  P_loop sem spl.

Definition V (sem : Z) : M unit :=
  assert_ 90 (negb (sem =? NULL)) ;;
  spl <- splhigh ;;
  upd_sem sem (fun x => with_sem_count (wrap_int (sem_count x + 1)) x) ;;
  x <- rd_sem sem ;;
  assert_ 93 (0 <? sem_count x) ;;
  thread_wakeup sem ;;
  splx spl ;;
  ret tt.

(** ** Lock (synch.c, lines 103-189) *)

Definition lock_create (name : string) : M Z :=
  lock <- kmalloc ;;
  if lock =? NULL then ret NULL
  else
    nm <- kstrdup name ;;
    if nm =? NULL then kfree lock ;; ret NULL
    else
      store lock
        (O_lock {| lock_name := nm; lock_occupied := 0; lock_holder := NULL |}) ;;
      ret lock.

Definition lock_destroy (lock : Z) : M unit :=
  assert_ 128 (negb (lock =? NULL)) ;;
  l <- rd_lock lock ;;
  kfree (lock_name l) ;;
  kfree lock.

(** What is left to run when [lock_acquire] returns to its caller. *)
Definition unwind (rest : list frame) : M unit :=
  match rest with
  | [] => ret tt
  | F_cv_wait spl :: _ => splx spl ;; ret tt
  end.

(** The loop of lines 147-150 and what follows it.  A thread woken from the
    [thread_sleep] of line 149 re-enters here. *)
Definition lock_acquire_loop (lock spl : Z) (rest : list frame) : M unit :=
  l <- rd_lock lock ;;
  me <- get curthread ;;
  if (lock_occupied l =? 1) && negb (lock_holder l =? me)
  then thread_sleep lock (K_lock_acquire lock spl rest)
  else
    upd_lock lock (with_lock_occupied 1) ;;
    me <- get curthread ;;
    upd_lock lock (with_lock_holder me) ;;
    splx spl ;;
    unwind rest.

(** [lock_acquire], called from a place with [rest] still to run. *)
Definition lock_acquire_from (rest : list frame) (lock : Z) : M unit :=
  assert_ 141 (negb (lock =? NULL)) ;;
  spl <- splhigh ;;
  lock_acquire_loop lock spl rest.

Definition lock_acquire (lock : Z) : M unit := lock_acquire_from [] lock.

Definition lock_release (lock : Z) : M unit :=
  assert_ 166 (negb (lock =? NULL)) ;;
  spl <- splhigh ;;
  upd_lock lock (with_lock_occupied 0) ;;
  upd_lock lock (with_lock_holder NULL) ;;
  thread_wakeup lock ;;
  splx spl ;;
  ret tt.

Definition lock_do_i_hold (lock : Z) : M Z :=
  l <- rd_lock lock ;;
  me <- get curthread ;;
  ret (of_bool (lock_holder l =? me)).

(** ** Condition variable (synch.c, lines 196-323) *)

Definition cv_create (name : string) : M Z :=
  c <- kmalloc ;;
  if c =? NULL then ret NULL
  else
    nm <- kstrdup name ;;
    if nm =? NULL then kfree c ;; ret NULL
    else
      q <- q_create 1 ;;
      store c (O_cv {| cv_name := nm; cv_count := 0; cv_thread_queue := q |}) ;;
      ret c.

Definition cv_destroy (c : Z) : M unit :=
  assert_ 224 (negb (c =? NULL)) ;;
  x <- rd_cv c ;;
  assert_ 227 (cv_count x =? 0) ;;
  e <- q_empty (cv_thread_queue x) ;;
  assert_ 228 (negb (e =? 0)) ;;
  q_destroy (cv_thread_queue x) ;;
  x <- rd_cv c ;;
  kfree (cv_name x) ;;
  kfree c.

Definition cv_wait (c lock : Z) : M unit :=
  assert_ 245 (negb (c =? NULL)) ;;
  assert_ 246 (negb (lock =? NULL)) ;;
  h <- lock_do_i_hold lock ;;
  assert_ 247 (negb (h =? 0)) ;;
  i <- get in_interrupt ;;
  assert_ 253 (i =? 0) ;;
  spl <- splhigh ;;
  lock_release lock ;;
  upd_cv c (fun x => with_cv_count (wrap_int (cv_count x + 1)) x) ;;
  x <- rd_cv c ;;
  q_preallocate (cv_thread_queue x) (cv_count x) ;;
  me <- get curthread ;;
  q_addtail (cv_thread_queue x) me ;;
  me <- get curthread ;;
  thread_sleep me (K_cv_wait lock spl).

Definition cv_signal (c lock : Z) : M unit :=
  assert_ 282 (negb (c =? NULL)) ;;
  assert_ 283 (negb (lock =? NULL)) ;;
  h <- lock_do_i_hold lock ;;
  assert_ 284 (negb (h =? 0)) ;;
  spl <- splhigh ;;
  upd_cv c (fun x => with_cv_count (wrap_int (cv_count x - 1)) x) ;;
  x <- rd_cv c ;;
  next_thread <- q_remhead (cv_thread_queue x) ;;
  thread_wakeup next_thread ;;
  splx spl ;;
  ret tt.

(** The loop of lines 310-315.  Every turn of the loop lowers [cv->count] by
    one, so [fuel] turns are enough whenever [fuel] exceeds the count at
    entry; [None] says the fuel was too small. *)
Fixpoint cv_broadcast_loop (fuel : nat) (c lock : Z) : M (option unit) :=
  match fuel with
  | O => ret None
  | S fuel' =>
      x <- rd_cv c ;;
      if 0 <? cv_count x then cv_signal c lock ;; cv_broadcast_loop fuel' c lock
      else ret (Some tt)
  end.

Definition cv_broadcast_fuel (fuel : nat) (c lock : Z) : M (option unit) :=
  assert_ 305 (negb (c =? NULL)) ;;
  assert_ 306 (negb (lock =? NULL)) ;;
  h <- lock_do_i_hold lock ;;
  assert_ 307 (negb (h =? 0)) ;;
  r <- cv_broadcast_loop fuel c lock ;;
  match r with
  | None => ret None
  | Some _ =>
      x <- rd_cv c ;;
      assert_ 318 (cv_count x =? 0) ;;
      x <- rd_cv c ;;
      e <- q_empty (cv_thread_queue x) ;;
      assert_ 319 (negb (e =? 0)) ;;
      ret (Some tt)
  end.

(** [cv_broadcast] with the fuel its loop needs: one more than the count it
    finds (the asserts of lines 305-307 run first in [cv_broadcast_fuel]
    whatever the count is). *)
Definition cv_broadcast (c lock : Z) : M (option unit) :=
  fun s =>
    let fuel :=
      match heap s !! c with
      | Some (O_cv x) => S (Z.to_nat (cv_count x))
      | _ => 1%nat
      end in
    cv_broadcast_fuel fuel c lock s.

(** ** Threads taking turns *)

(** A woken thread continues at the point it went to sleep. *)
Definition resume (k : cont) : M unit :=
  match k with
  | K_P sem spl => P_loop sem spl
  | K_lock_acquire lock spl rest => lock_acquire_loop lock spl rest
  | K_cv_wait lock spl => lock_acquire_from [F_cv_wait spl] lock
  end.

Inductive call :=
| C_P (sem : Z)
| C_V (sem : Z).

Definition run_call (c : call) : M unit :=
  match c with
  | C_P sem => P sem
  | C_V sem => V sem
  end.

Definition call_eqb (c d : call) : bool :=
  match c, d with
  | C_P a, C_P b => a =? b
  | C_V a, C_V b => a =? b
  | _, _ => false
  end.

(** What the processor does next: a ready thread makes a call, or a woken
    thread is switched to. *)
Inductive event :=
| E_call (t : Z) (c : call)
| E_resume (t : Z).

(** The code an event runs; [None] when the event cannot happen in [s]. *)
Definition dispatch (e : event) (s : kstate) : option (result unit) :=
  match e with
  | E_call t c =>
      match threads s !! t with
      | Some T_ready => Some (run_call c (set_curthread t s))
      | _ => None
      end
  | E_resume t =>
      match threads s !! t with
      | Some (T_woken k) =>
          Some (resume k
                  (set_curthread t (set_threads (<[t:=T_ready]> (threads s)) s)))
      | _ => None
      end
  end.

(** The call an event brings to its end if the code it runs returns. *)
Definition finishes (e : event) (s : kstate) : list call :=
  match e with
  | E_call _ c => [c]
  | E_resume t =>
      match threads s !! t with
      | Some (T_woken (K_P sem _)) => [C_P sem]
      | _ => []
      end
  end.

Inductive outcome :=
| Running (s : kstate) (done : list call)   (* [done]: the calls that have returned *)
| Panicked (f : fault)
| Stuck.                                    (* an event that could not happen *)

Fixpoint run (es : list event) (s : kstate) (done : list call) : outcome :=
  match es with
  | [] => Running s done
  | e :: es' =>
      match dispatch e s with
      | None => Stuck
      | Some (Ok _ s') => run es' s' (done ++ finishes e s)
      | Some (Sleep _ _ s') => run es' s' done
      | Some (Fault f _) => Panicked f
      end
  end.

(** How many times [c] has returned. *)
Definition completed (c : call) (done : list call) : Z :=
  Z.of_nat (length (filter (fun d => call_eqb c d = true) done)).

(** ** States that the theorems name *)

Definition V_count (x : semaphore) : semaphore :=
  with_sem_count (sem_count x + 1) x.

(** The state [V] leaves: the count is raised and the sleepers woken while
    the level is [SPL_HIGH], then the level of the caller is restored. *)
Definition V_post (sem : Z) (x : semaphore) (s : kstate) : kstate :=
  let s1 := set_curspl SPL_HIGH s in
  let s2 := set_heap (<[sem:=O_sem (V_count x)]> (heap s1)) s1 in
  let s3 := wake_all sem s2 in
  set_curspl (curspl s) s3.

(** ** A body without branches, line by line *)

(** Each entry is a line of synch.c and the statement on it, as a
    computation from the value of the local [spl] to its value
    afterwards. *)
Definition lines : Type := list (nat * (Z -> M Z)).

(** The lines run in order. *)
Fixpoint run_lines (ls : lines) (spl : Z) : M unit :=
  match ls with
  | [] => ret tt
  | (_, c) :: ls' => spl' <- c spl ;; run_lines ls' spl'
  end.

(** The lines that the run enters, each with the state it is entered in;
    a line that does not return is the last. *)
Fixpoint entered (ls : lines) (spl : Z) (s : kstate) : list (nat * kstate) :=
  match ls with
  | [] => []
  | (n, c) :: ls' =>
      (n, s) :: match c spl s with
                | Ok spl' s' => entered ls' spl' s'
                | _ => []
                end
  end.

(** The body of [V], lines 90-95. *)
Definition V_lines (sem : Z) : lines :=
  [ (90%nat, fun spl => assert_ 90 (negb (sem =? NULL)) ;; ret spl);
    (91%nat, fun _ => splhigh);
    (92%nat, fun spl =>
       upd_sem sem (fun x => with_sem_count (wrap_int (sem_count x + 1)) x) ;;
       ret spl);
    (93%nat, fun spl =>
       x <- rd_sem sem ;; assert_ 93 (0 <? sem_count x) ;; ret spl);
    (94%nat, fun spl => thread_wakeup sem ;; ret spl);
    (95%nat, fun spl => splx spl ;; ret spl) ].

(** The state [V] stops in when the assertion of line 93 fails: the count
    has been raised, with wrap-around, the level is [SPL_HIGH], and no
    thread has been woken. *)
Definition V_stuck (sem : Z) (x : semaphore) (s : kstate) : kstate :=
  set_heap (<[sem:=O_sem (with_sem_count (wrap_int (sem_count x + 1)) x)]> (heap s))
    (set_curspl SPL_HIGH s).


(** ** Sample states *)

(** Two ready threads, 1 and 2, thread 1 running, nothing allocated. *)
Definition boot : kstate :=
  {| heap := ∅;
     threads := <[1:=T_ready]> (<[2:=T_ready]> ∅);
     curthread := 1; in_interrupt := 0; curspl := 0; wakeups := [];
     brk := 16%positive; kmem := 8%nat |}.

(** A semaphore at address 16 with count 0 on which thread 2 sleeps in [P]. *)
Definition sem_demo : kstate :=
  {| heap := <[16:=O_sem {| sem_name := 17; sem_count := 0 |}]>
               (<[17:=O_str "sem"]> ∅);
     threads := <[1:=T_ready]> (<[2:=T_asleep 16 (K_P 16 0)]> ∅);
     curthread := 1; in_interrupt := 0; curspl := 0; wakeups := [];
     brk := 18%positive; kmem := 8%nat |}.

(** ** Semaphore conservation, as a property of a state and a history *)

Definition sem_count_is_zero_at (sem : Z) (s : kstate) : Prop :=
  exists x, heap s !! sem = Some (O_sem x) /\ sem_count x = 0.

(** The semaphore at [sem] was created with count [n]; [done] lists the calls
    that have returned since. *)
Definition sem_conserved (sem n : Z) (s : kstate) (done : list call) : Prop :=
  exists x,
    heap s !! sem = Some (O_sem x)
    /\ 0 <= sem_count x <= INT_MAX
    /\ sem_count x = n + completed (C_V sem) done - completed (C_P sem) done.

(** ** Locks: who holds what *)

(** The test of line 147, as a proposition: the lock is held, by a context
    other than [me]. *)
Definition held_by_other (l : lock) (me : Z) : Prop :=
  lock_occupied l = 1 /\ lock_holder l <> me.

(** The lock after lines 153-154 run in context [me]. *)
Definition lock_taken (l : lock) (me : Z) : lock :=
  {| lock_name := lock_name l; lock_occupied := 1; lock_holder := me |}.

(** The lock after lines 171-172. *)
Definition lock_cleared (l : lock) : lock :=
  {| lock_name := lock_name l; lock_occupied := 0; lock_holder := NULL |}.

(** The state in which the running thread has gone to sleep on [key]. *)
Definition asleep_on (key : Z) (k : cont) (s : kstate) : kstate :=
  set_threads (<[curthread s:=T_asleep key k]> (threads s)) s.

(** A lock at address 16, free; thread 1 runs inside an interrupt handler. *)
Definition lock_irq_demo : kstate :=
  {| heap := <[16:=O_lock {| lock_name := 17; lock_occupied := 0; lock_holder := NULL |}]>
               (<[17:=O_str "lock"]> ∅);
     threads := <[1:=T_ready]> (<[2:=T_ready]> ∅);
     curthread := 1; in_interrupt := 1; curspl := 0; wakeups := [];
     brk := 18%positive; kmem := 8%nat |}.

(** A lock at address 16 held by thread 2, on which thread 3 sleeps in
    [lock_acquire]; thread 1 is running. *)
Definition lock_demo : kstate :=
  {| heap := <[16:=O_lock {| lock_name := 17; lock_occupied := 1; lock_holder := 2 |}]>
               (<[17:=O_str "lock"]> ∅);
     threads := <[1:=T_ready]>
                  (<[2:=T_ready]> (<[3:=T_asleep 16 (K_lock_acquire 16 0 [])]> ∅));
     curthread := 1; in_interrupt := 0; curspl := 0; wakeups := [];
     brk := 18%positive; kmem := 8%nat |}.

(** ** Condition variables: shape of a state *)

(** At [c] there is a condition variable [x] whose queue holds [q]. *)
Definition cv_at (c : Z) (x : cv) (q : list Z) (s : kstate) : Prop :=
  c <> NULL
  /\ heap s !! c = Some (O_cv x)
  /\ cv_thread_queue x <> NULL
  /\ heap s !! cv_thread_queue x = Some (O_queue q).

(** The running thread is the holder recorded in the lock at [lock]. *)
Definition holds_lock (lock : Z) (s : kstate) : Prop :=
  lock <> NULL
  /\ exists l, heap s !! lock = Some (O_lock l) /\ lock_holder l = curthread s.

(** The state [cv_signal] leaves when the queue was [t :: q']. *)
Definition cv_signal_post (c : Z) (x : cv) (t : Z) (q' : list Z) (s : kstate) : kstate :=
  let s1 := set_curspl SPL_HIGH s in
  let s2 := set_heap (<[c:=O_cv (with_cv_count (cv_count x - 1) x)]> (heap s1)) s1 in
  let s3 := set_heap (<[cv_thread_queue x:=O_queue q']> (heap s2)) s2 in
  let s4 := wake_all t s3 in
  set_curspl (curspl s) s4.

(** One [cv_signal] for every entry of the queue, head first. *)
Fixpoint cv_broadcast_post (c : Z) (x : cv) (q : list Z) (s : kstate) : kstate :=
  match q with
  | [] => s
  | t :: q' =>
      cv_broadcast_post c (with_cv_count (cv_count x - 1) x) q' (cv_signal_post c x t q' s)
  end.

(** The spec's words for broadcast: perform [cv_signal] [n] times in a row. *)
Fixpoint signal_times (n : nat) (c lock : Z) : M unit :=
  match n with
  | O => ret tt
  | S n' => cv_signal c lock ;; signal_times n' c lock
  end.

(** Waking the keys of [q] one after the other, head first. *)
Definition wake_each (q : list Z) (th : gmap Z tstate) : gmap Z tstate :=
  foldl (fun th t => wake t <$> th) th q.

(** A condition variable at 16 (queue at 19) and its lock at 18, held by the
    running thread 1; nobody waits. *)
Definition cv_idle_demo : kstate :=
  {| heap := <[16:=O_cv {| cv_name := 17; cv_count := 0; cv_thread_queue := 19 |}]>
               (<[17:=O_str "cv"]>
                  (<[18:=O_lock {| lock_name := 20; lock_occupied := 1; lock_holder := 1 |}]>
                     (<[19:=O_queue []]> (<[20:=O_str "lock"]> ∅))));
     threads := <[1:=T_ready]> (<[2:=T_ready]> (<[3:=T_ready]> ∅));
     curthread := 1; in_interrupt := 0; curspl := 0; wakeups := [];
     brk := 21%positive; kmem := 8%nat |}.

(** The same, with threads 2 and 3 waiting, 2 first. *)
Definition cv_busy_demo : kstate :=
  {| heap := <[16:=O_cv {| cv_name := 17; cv_count := 2; cv_thread_queue := 19 |}]>
               (<[17:=O_str "cv"]>
                  (<[18:=O_lock {| lock_name := 20; lock_occupied := 1; lock_holder := 1 |}]>
                     (<[19:=O_queue [2; 3]]> (<[20:=O_str "lock"]> ∅))));
     threads := <[1:=T_ready]>
                  (<[2:=T_asleep 2 (K_cv_wait 18 0)]>
                     (<[3:=T_asleep 3 (K_cv_wait 18 0)]> ∅));
     curthread := 1; in_interrupt := 0; curspl := 0; wakeups := [];
     brk := 21%positive; kmem := 8%nat |}.

(** ** Scenarios *)

(** Thread [t] runs [m] until it returns or sleeps. *)
Definition as_thread (t : Z) (m : M unit) (s : kstate) : option kstate :=
  match m (set_curthread t s) with
  | Ok _ s' | Sleep _ _ s' => Some s'
  | Fault _ _ => None
  end.

(** The woken thread [t] is switched to and runs until it returns or sleeps. *)
Definition switch_to (t : Z) (s : kstate) : option kstate :=
  match dispatch (E_resume t) s with
  | Some (Ok _ s') | Some (Sleep _ _ s') => Some s'
  | _ => None
  end.

(** A lock is created; thread 1 acquires it; thread 2 calls acquire and
    blocks; thread 1 releases; thread 2 is resumed. *)
Definition lock_scenario : option kstate :=
  match lock_create "L" boot with
  | Ok lk s0 =>
      s1 ← as_thread 1 (lock_acquire lk) s0;
      s2 ← as_thread 2 (lock_acquire lk) s1;
      s3 ← as_thread 1 (lock_release lk) s2;
      switch_to 2 s3
  | _ => None
  end.

(** A lock and a condition variable are created; thread 1 takes the lock and
    waits; thread 2 takes the lock, signals and releases; thread 1 is
    resumed. *)
Definition cv_scenario : option kstate :=
  match lock_create "L" boot with
  | Ok lk s0 =>
      match cv_create "C" s0 with
      | Ok c s1 =>
          s2 ← as_thread 1 (lock_acquire lk) s1;
          s3 ← as_thread 1 (cv_wait c lk) s2;
          s4 ← as_thread 2 (lock_acquire lk) s3;
          s5 ← as_thread 2 (cv_signal c lk) s4;
          s6 ← as_thread 2 (lock_release lk) s5;
          switch_to 1 s6
      | _ => None
      end
  | _ => None
  end.

(** ** Fresh memory *)

(** The next [n] addresses the allocator hands out hold nothing yet. *)
Fixpoint fresh_from (b : positive) (n : nat) (h : gmap Z object) : Prop :=
  match n with
  | O => True
  | S n' => h !! Z.pos b = None /\ fresh_from (Pos.succ b) n' h
  end.

(** No thread sleeps on [key]. *)
Definition no_sleeper (key : Z) (s : kstate) : Prop :=
  forall t k, threads s !! t <> Some (T_asleep key k).

(** ** Running a call several times *)

(** [m], [n] times in a row. *)
Fixpoint times (n : nat) (m : M unit) : M unit :=
  match n with
  | O => ret tt
  | S n' => m ;; times n' m
  end.

(** ** The state in which [cv_wait] goes to sleep *)

(** Lines 255-265 run by the holder [curthread s] of the lock [l] at [lock],
    on the condition variable [x] at [c] with queue [q]. *)
Definition cv_wait_post (l : lock) (c lock : Z) (x : cv) (q : list Z)
    (s : kstate) : kstate :=
  let s1 := set_curspl SPL_HIGH s in
  let s2 :=
    set_curspl SPL_HIGH
      (wake_all lock
         (set_heap (<[lock:=O_lock (lock_cleared l)]> (heap s1))
            (set_curspl SPL_HIGH s1))) in
  let s3 := set_heap (<[c:=O_cv (with_cv_count (cv_count x + 1) x)]> (heap s2)) s2 in
  let s4 := set_heap (<[cv_thread_queue x:=O_queue (q ++ [curthread s])]> (heap s3)) s3 in
  asleep_on (curthread s) (K_cv_wait lock (curspl s)) s4.

(** ** What a call may and may not do *)

(** The state a computation ends in, however it ends. *)
Definition final {A} (r : result A) : kstate :=
  match r with
  | Ok _ s | Sleep _ _ s | Fault _ s => s
  end.

(** Every run of [m] relates the state it starts in to the one it ends in. *)
Definition respects (R : kstate -> kstate -> Prop) {A} (m : M A) : Prop :=
  forall s, R s (final (m s)).

(** [m] never puts its caller to sleep. *)
Definition never_sleeps {A} (m : M A) : Prop :=
  forall s key k s', m s <> Sleep key k s'.

(** When [m] returns, the interrupt level is the one it started at. *)
Definition level_kept {A} (m : M A) : Prop :=
  forall s a s', m s = Ok a s' -> curspl s' = curspl s.

(** When [m] returns, the interrupt level is [spl]. *)
Definition returns_at (spl : Z) {A} (m : M A) : Prop :=
  forall s a s', m s = Ok a s' -> curspl s' = spl.

(** What an object in memory is. *)
Inductive kind := k_sem | k_lock | k_cv | k_queue | k_other.

Definition kind_of (o : object) : kind :=
  match o with
  | O_sem _ => k_sem
  | O_lock _ => k_lock
  | O_cv _ => k_cv
  | O_queue _ => k_queue
  | O_raw | O_str _ => k_other
  end.

(** From [s] to [s'] nothing was allocated or freed, every object kept its
    kind, only objects of the kinds in [K] may have new contents, and the
    running thread, [in_interrupt] and the allocator are as they were. *)
Definition in_place (K : kind -> bool) (s s' : kstate) : Prop :=
  (forall p,
     match heap s !! p with
     | None => heap s' !! p = None
     | Some o =>
         exists o', heap s' !! p = Some o' /\ kind_of o' = kind_of o
                    /\ (K (kind_of o) = false -> o' = o)
     end)
  /\ curthread s' = curthread s
  /\ in_interrupt s' = in_interrupt s
  /\ brk s' = brk s
  /\ kmem s' = kmem s.

(** The sets of kinds the operations are measured against. *)
Definition only_sem (k : kind) : bool :=
  match k with k_sem => true | _ => false end.
Definition only_lock (k : kind) : bool :=
  match k with k_lock => true | _ => false end.
Definition cv_queue (k : kind) : bool :=
  match k with k_cv | k_queue => true | _ => false end.
Definition lock_cv_queue (k : kind) : bool :=
  match k with k_lock | k_cv | k_queue => true | _ => false end.
Definition sem_lock (k : kind) : bool :=
  match k with k_sem | k_lock => true | _ => false end.

(** From [s] to [s'] the interrupt level did not change. *)
Definition same_level (s s' : kstate) : Prop := curspl s' = curspl s.

(** A thread that goes to sleep is on record as asleep, on [key], to go on
    at [k]. *)
Definition sleep_on_record (s' : kstate) (key : Z) (k : cont) : Prop :=
  threads s' !! curthread s' = Some (T_asleep key k).

(** [m] never returns to its caller at once: it sleeps or faults. *)
Definition never_returns {A} (m : M A) : Prop :=
  forall s a s', m s <> Ok a s'.

(** ** All the calls, taking turns *)

(** The calls a thread can make on objects that exist. *)
Inductive op :=
| Op_P (sem : Z)
| Op_V (sem : Z)
| Op_lock_acquire (lock : Z)
| Op_lock_release (lock : Z)
| Op_cv_wait (c lock : Z)
| Op_cv_signal (c lock : Z)
| Op_cv_broadcast (c lock : Z).

Definition run_op (o : op) : M unit :=
  match o with
  | Op_P sem => P sem
  | Op_V sem => V sem
  | Op_lock_acquire lock => lock_acquire lock
  | Op_lock_release lock => lock_release lock
  | Op_cv_wait c lock => cv_wait c lock
  | Op_cv_signal c lock => cv_signal c lock
  | Op_cv_broadcast c lock => cv_broadcast c lock ;; ret tt
  end.

Inductive action :=
| Act_call (t : Z) (o : op)
| Act_resume (t : Z).

(** The code an action runs; [None] when the action cannot happen in [s]. *)
Definition perform (a : action) (s : kstate) : option (result unit) :=
  match a with
  | Act_call t o =>
      match threads s !! t with
      | Some T_ready => Some (run_op o (set_curthread t s))
      | _ => None
      end
  | Act_resume t => dispatch (E_resume t) s
  end.

(** The [P] or [V] an action brings to its end if the code it runs returns. *)
Definition ends (a : action) (s : kstate) : list call :=
  match a with
  | Act_call _ (Op_P sem) => [C_P sem]
  | Act_call _ (Op_V sem) => [C_V sem]
  | Act_call _ _ => []
  | Act_resume t => finishes (E_resume t) s
  end.

Fixpoint exec (acts : list action) (s : kstate) (done : list call) : outcome :=
  match acts with
  | [] => Running s done
  | a :: acts' =>
      match perform a s with
      | None => Stuck
      | Some (Ok _ s') => exec acts' s' (done ++ ends a s)
      | Some (Sleep _ _ s') => exec acts' s' done
      | Some (Fault f _) => Panicked f
      end
  end.
(** * Properties *)

(** ** Running the monad *)

Lemma bind_Ok {A B} (m : M A) (f : A -> M B) s a s' :
  m s = Ok a s' -> bind m f s = f a s'.
Proof. unfold bind. intros ->. reflexivity. Qed.

Lemma bind_Fault {A B} (m : M A) (f : A -> M B) s e s' :
  m s = Fault e s' -> bind m f s = Fault e s'.
Proof. unfold bind. intros ->. reflexivity. Qed.

Lemma assert_true line s : assert_ line true s = Ok tt s.
Proof. reflexivity. Qed.

Lemma assert_false line s : assert_ line false s = Fault (AssertFail line) s.
Proof. reflexivity. Qed.

Lemma not_NULL_eqb p : p <> NULL -> (p =? NULL) = false.
Proof. intros H. apply Z.eqb_neq. exact H. Qed.

Lemma load_Ok p o s :
  p <> NULL -> heap s !! p = Some o -> load p s = Ok o s.
Proof.
  intros Hp Hl. unfold load. rewrite (not_NULL_eqb p Hp), Hl. reflexivity.
Qed.

Lemma rd_sem_Ok p x s :
  p <> NULL -> heap s !! p = Some (O_sem x) -> rd_sem p s = Ok x s.
Proof.
  intros Hp Hl. unfold rd_sem. rewrite (bind_Ok _ _ _ _ _ (load_Ok _ _ _ Hp Hl)).
  reflexivity.
Qed.

Lemma rd_lock_Ok p l s :
  p <> NULL -> heap s !! p = Some (O_lock l) -> rd_lock p s = Ok l s.
Proof.
  intros Hp Hl. unfold rd_lock. rewrite (bind_Ok _ _ _ _ _ (load_Ok _ _ _ Hp Hl)).
  reflexivity.
Qed.

Lemma rd_cv_Ok p c s :
  p <> NULL -> heap s !! p = Some (O_cv c) -> rd_cv p s = Ok c s.
Proof.
  intros Hp Hl. unfold rd_cv. rewrite (bind_Ok _ _ _ _ _ (load_Ok _ _ _ Hp Hl)).
  reflexivity.
Qed.

Lemma rd_queue_Ok p q s :
  p <> NULL -> heap s !! p = Some (O_queue q) -> rd_queue p s = Ok q s.
Proof.
  intros Hp Hl. unfold rd_queue. rewrite (bind_Ok _ _ _ _ _ (load_Ok _ _ _ Hp Hl)).
  reflexivity.
Qed.

(** Reads neither sleep nor change the state. *)
Lemma rd_sem_cases p s :
  (exists x, rd_sem p s = Ok x s /\ p <> NULL /\ heap s !! p = Some (O_sem x))
  \/ rd_sem p s = Fault MemFault s.
Proof.
  unfold rd_sem, bind, load. destruct (p =? NULL) eqn:E; [right; reflexivity|].
  apply Z.eqb_neq in E.
  destruct (heap s !! p) as [[]|]; try (right; reflexivity).
  left. eexists. split; [reflexivity|auto].
Qed.

Lemma rd_lock_cases p s :
  (exists l, rd_lock p s = Ok l s /\ p <> NULL /\ heap s !! p = Some (O_lock l))
  \/ rd_lock p s = Fault MemFault s.
Proof.
  unfold rd_lock, bind, load. destruct (p =? NULL) eqn:E; [right; reflexivity|].
  apply Z.eqb_neq in E.
  destruct (heap s !! p) as [[]|]; try (right; reflexivity).
  left. eexists. split; [reflexivity|auto].
Qed.

Lemma rd_cv_cases p s :
  (exists c, rd_cv p s = Ok c s /\ p <> NULL /\ heap s !! p = Some (O_cv c))
  \/ rd_cv p s = Fault MemFault s.
Proof.
  unfold rd_cv, bind, load. destruct (p =? NULL) eqn:E; [right; reflexivity|].
  apply Z.eqb_neq in E.
  destruct (heap s !! p) as [[]|]; try (right; reflexivity).
  left. eexists. split; [reflexivity|auto].
Qed.

Lemma rd_queue_cases p s :
  (exists q, rd_queue p s = Ok q s /\ p <> NULL /\ heap s !! p = Some (O_queue q))
  \/ rd_queue p s = Fault MemFault s.
Proof.
  unfold rd_queue, bind, load. destruct (p =? NULL) eqn:E; [right; reflexivity|].
  apply Z.eqb_neq in E.
  destruct (heap s !! p) as [[]|]; try (right; reflexivity).
  left. eexists. split; [reflexivity|auto].
Qed.

Lemma upd_sem_Ok p f x s :
  p <> NULL -> heap s !! p = Some (O_sem x) ->
  upd_sem p f s = Ok tt (set_heap (<[p:=O_sem (f x)]> (heap s)) s).
Proof.
  intros Hp Hl. unfold upd_sem. rewrite (bind_Ok _ _ _ _ _ (rd_sem_Ok _ _ _ Hp Hl)).
  reflexivity.
Qed.

Lemma upd_lock_Ok p f l s :
  p <> NULL -> heap s !! p = Some (O_lock l) ->
  upd_lock p f s = Ok tt (set_heap (<[p:=O_lock (f l)]> (heap s)) s).
Proof.
  intros Hp Hl. unfold upd_lock. rewrite (bind_Ok _ _ _ _ _ (rd_lock_Ok _ _ _ Hp Hl)).
  reflexivity.
Qed.

Lemma upd_cv_Ok p f c s :
  p <> NULL -> heap s !! p = Some (O_cv c) ->
  upd_cv p f s = Ok tt (set_heap (<[p:=O_cv (f c)]> (heap s)) s).
Proof.
  intros Hp Hl. unfold upd_cv. rewrite (bind_Ok _ _ _ _ _ (rd_cv_Ok _ _ _ Hp Hl)).
  reflexivity.
Qed.

(** ** Arithmetic on [int] *)

Lemma wrap_int_id z : INT_MIN <= z <= INT_MAX -> wrap_int z = z.
Proof.
  unfold INT_MIN, INT_MAX, wrap_int. intros H.
  rewrite Z.mod_small; lia.
Qed.

Lemma wrap_int_succ_max : wrap_int (INT_MAX + 1) = INT_MIN.
Proof. reflexivity. Qed.

(** Below zero is never reached by stepping down from a positive count. *)
Lemma wrap_int_pred_le z : 0 < z -> 0 <= wrap_int (z - 1) <= z - 1 \/ wrap_int (z - 1) < 0.
Proof.
  intros Hz. unfold wrap_int.
  destruct (Z_lt_le_dec (wrap_int (z - 1)) 0) as [|Hge]; [right; assumption|left].
  unfold wrap_int in Hge. split; [exact Hge|].
  pose proof (Z.mod_le (z - 1 + 2147483648) 4294967296 ltac:(lia) ltac:(lia)). lia.
Qed.

(** ** The wait/wake facility *)

Lemma wake_all_asleep key s t k :
  threads s !! t = Some (T_asleep key k) ->
  threads (wake_all key s) !! t = Some (T_woken k).
Proof.
  intros H. unfold wake_all. cbn. rewrite lookup_fmap, H. cbn.
  rewrite Z.eqb_refl. reflexivity.
Qed.

Lemma wake_all_other key s t :
  (forall k, threads s !! t <> Some (T_asleep key k)) ->
  threads (wake_all key s) !! t = threads s !! t.
Proof.
  intros H. unfold wake_all. cbn. rewrite lookup_fmap.
  destruct (threads s !! t) as [[|key' k|k]|] eqn:E; cbn; try reflexivity.
  destruct (key' =? key) eqn:Ek; [|reflexivity].
  apply Z.eqb_eq in Ek. subst key'. destruct (H k). reflexivity.
Qed.

Lemma wake_all_no_sleeper key s t :
  forall k, threads (wake_all key s) !! t <> Some (T_asleep key k).
Proof.
  intros k. unfold wake_all. cbn. rewrite lookup_fmap.
  destruct (threads s !! t) as [[|key' k'|k']|] eqn:E; cbn; try discriminate.
  destruct (key' =? key) eqn:Ek; [discriminate|].
  intros [= -> ->]. rewrite Z.eqb_refl in Ek. discriminate.
Qed.

Lemma thread_hassleepers_none key s :
  (forall t k, threads s !! t <> Some (T_asleep key k)) ->
  thread_hassleepers key s = Ok 0 s.
Proof.
  intros H. unfold thread_hassleepers, get. rewrite bool_decide_eq_true_2; [reflexivity|].
  intros t ts Hts. destruct ts as [|key' k|k]; cbn; try reflexivity.
  apply Z.eqb_neq. intros ->. exact (H t k Hts).
Qed.

(** ** The scenarios, run *)

(** After the hand-over thread 2 holds the lock and is back out of
    [lock_acquire]; thread 1 does not hold it. *)
Example lock_scenario_runs :
  match lock_scenario with
  | Some s =>
      heap s !! 16
      = Some (O_lock {| lock_name := 17; lock_occupied := 1; lock_holder := 2 |})
      /\ threads s !! 2 = Some T_ready
      /\ lock_do_i_hold 16 (set_curthread 1 s) = Ok 0 (set_curthread 1 s)
      /\ lock_do_i_hold 16 (set_curthread 2 s) = Ok 1 (set_curthread 2 s)
  | None => False
  end.
Proof. vm_compute. repeat split; reflexivity. Qed.

(** After the signal thread 1 is back out of [cv_wait] and holds the lock
    again; nobody waits. *)
Example cv_scenario_runs :
  match cv_scenario with
  | Some s =>
      heap s !! 16
      = Some (O_lock {| lock_name := 17; lock_occupied := 1; lock_holder := 1 |})
      /\ heap s !! 18
         = Some (O_cv {| cv_name := 19; cv_count := 0; cv_thread_queue := 20 |})
      /\ heap s !! 20 = Some (O_queue [])
      /\ threads s !! 1 = Some T_ready
      /\ wakeups s = [16; 1; 16]
      /\ curspl s = 0
  | None => False
  end.
Proof. vm_compute. repeat split; reflexivity. Qed.

(** ** Semaphore *)

Lemma V_returns sem x s :
  sem <> NULL ->
  heap s !! sem = Some (O_sem x) ->
  0 <= sem_count x < INT_MAX ->
  V sem s = Ok tt (V_post sem x s).
Proof.
  intros Hp Hl Hc. unfold V.
  rewrite (not_NULL_eqb sem Hp). cbn [negb].
  rewrite (bind_Ok _ _ _ _ _ (assert_true 90 s)).
  unfold splhigh. rewrite (bind_Ok _ _ s (curspl s) (set_curspl SPL_HIGH s)) by reflexivity.
  erewrite bind_Ok; [|apply upd_sem_Ok; [exact Hp|exact Hl]].
  erewrite bind_Ok; [|apply rd_sem_Ok; [exact Hp|cbn; apply lookup_insert_eq]].
  cbn [with_sem_count sem_count].
  rewrite wrap_int_id by (unfold INT_MIN, INT_MAX in *; lia).
  replace (0 <? sem_count x + 1) with true by (symmetry; apply Z.ltb_lt; lia).
  reflexivity.
Qed.

(** C8, with the bound the code puts on it.  For every call of [V]:
    - the body is lines 90-95 run in order, whatever the local [spl] held
      before line 91 assigns it;
    - every line from 92 on (the increment, its assertion, the wake-up and
      [splx]) is entered at interrupt level [SPL_HIGH], so the count is
      touched and the sleepers are woken only under the guard;
    - a null handle stops the call at line 90 with the state untouched, and
      a handle that is no semaphore stops it under the guard;
    - on a semaphore whose count is at least 0 and below [INT_MAX] the call
      returns: line 92 raises the count by exactly one, then line 94 wakes
      every thread asleep on the semaphore (all of them, not one), none
      sleeps on it any more, no other thread is touched, and line 95 gives
      the caller its level back;
    - on any other count of the [int] range the increment leaves a count
      that is not positive (at [INT_MAX] it wraps to [INT_MIN]) and the
      assertion of line 93 stops the call under the guard, with no thread
      woken. *)
Theorem V_increments_and_wakes_all sem s :
  (forall spl0, run_lines (V_lines sem) spl0 s = V sem s)
  /\ (forall spl0 n st,
        In (n, st) (entered (V_lines sem) spl0 s) ->
        (92 <= n)%nat -> curspl st = SPL_HIGH)
  /\ (sem = NULL -> V sem s = Fault (AssertFail 90) s)
  /\ (sem <> NULL ->
      (forall x, heap s !! sem <> Some (O_sem x)) ->
      V sem s = Fault MemFault (set_curspl SPL_HIGH s))
  /\ (forall x,
        sem <> NULL ->
        heap s !! sem = Some (O_sem x) ->
        INT_MIN <= sem_count x <= INT_MAX ->
        (0 <= sem_count x < INT_MAX ->
         exists s1 s2 s3 s',
           V sem s = Ok tt s'
           /\ s1 = set_curspl SPL_HIGH s
           /\ s2 = set_heap (<[sem:=O_sem (V_count x)]> (heap s1)) s1
           /\ s3 = wake_all sem s2
           /\ s' = set_curspl (curspl s) s3
           /\ (forall spl0,
                 entered (V_lines sem) spl0 s
                 = [(90%nat, s); (91%nat, s); (92%nat, s1); (93%nat, s2);
                    (94%nat, s2); (95%nat, s3)])
           /\ heap s' !! sem = Some (O_sem (with_sem_count (sem_count x + 1) x))
           /\ (forall t k, threads s !! t = Some (T_asleep sem k) ->
                           threads s' !! t = Some (T_woken k))
           /\ (forall t k, threads s' !! t <> Some (T_asleep sem k))
           /\ thread_hassleepers sem s' = Ok 0 s'
           /\ (forall t, (forall k, threads s !! t <> Some (T_asleep sem k)) ->
                         threads s' !! t = threads s !! t)
           /\ wakeups s' = wakeups s ++ [sem]
           /\ curspl s' = curspl s)
        /\ (~ (0 <= sem_count x < INT_MAX) ->
            V sem s = Fault (AssertFail 93) (V_stuck sem x s)
            /\ wrap_int (sem_count x + 1) <= 0
            /\ (sem_count x = INT_MAX -> wrap_int (sem_count x + 1) = INT_MIN)
            /\ threads (V_stuck sem x s) = threads s
            /\ wakeups (V_stuck sem x s) = wakeups s
            /\ curspl (V_stuck sem x s) = SPL_HIGH
            /\ (forall spl0,
                  entered (V_lines sem) spl0 s
                  = [(90%nat, s); (91%nat, s); (92%nat, set_curspl SPL_HIGH s);
                     (93%nat, V_stuck sem x s)]))).
Proof.
  assert (forall spl0, run_lines (V_lines sem) spl0 s = V sem s) as Hrun.
  { intros spl0.
    unfold V, V_lines, run_lines, splhigh, splx, upd_sem, rd_sem, load, store,
      thread_wakeup, modify, assert_, raise, ret, bind.
    destruct (sem =? NULL) eqn:En; cbn [negb set_curspl heap]; [reflexivity|].
    destruct (heap s !! sem) as [[]|]; try reflexivity.
    cbn [set_heap heap]. rewrite lookup_insert_eq.
    destruct (0 <? _); reflexivity. }
  split; [exact Hrun|].
  split.
  { intros spl0 n st.
    unfold entered, V_lines, splhigh, splx, upd_sem, rd_sem, load, store,
      thread_wakeup, modify, assert_, raise, ret, bind.
    destruct (sem =? NULL) eqn:En; cbn [negb set_curspl heap].
    - intros [[= <- <-]|[]]; lia.
    - destruct (heap s !! sem) as [[]|];
        try (intros [[= <- <-]|[[= <- <-]|[[= <- <-]|[]]]]; intros; (lia || reflexivity)).
      cbn [set_heap heap]. rewrite lookup_insert_eq.
      destruct (0 <? _);
        intros H; repeat (destruct H as [[= <- <-]|H]); try destruct H;
        intros; (lia || reflexivity). }
  split.
  { intros ->. reflexivity. }
  split.
  { intros Hp Hno. unfold V. rewrite (not_NULL_eqb sem Hp). cbn [negb].
    rewrite (bind_Ok _ _ _ _ _ (assert_true 90 s)).
    unfold splhigh. rewrite (bind_Ok _ _ s (curspl s) (set_curspl SPL_HIGH s)) by reflexivity.
    unfold upd_sem, rd_sem, load, bind. rewrite (not_NULL_eqb sem Hp).
    cbn [heap set_curspl].
    destruct (heap s !! sem) as [[]|] eqn:E; try reflexivity.
    exfalso. exact (Hno _ eq_refl). }
  intros x Hp Hl Hr.
  assert (forall spl0,
            entered (V_lines sem) spl0 s
            = (90%nat, s) :: (91%nat, s) :: (92%nat, set_curspl SPL_HIGH s)
                :: (93%nat, V_stuck sem x s)
                :: (if 0 <? wrap_int (sem_count x + 1)
                    then [(94%nat, V_stuck sem x s);
                          (95%nat, wake_all sem (V_stuck sem x s))]
                    else [])) as Hent.
  { intros spl0.
    unfold entered, V_lines, splhigh, splx, upd_sem, rd_sem, load, store,
      thread_wakeup, modify, assert_, raise, ret, bind.
    rewrite (not_NULL_eqb sem Hp). cbn [negb set_curspl heap]. rewrite Hl.
    cbn [set_heap heap]. rewrite lookup_insert_eq.
    cbn [with_sem_count sem_count].
    destruct (0 <? _); reflexivity. }
  split.
  - intros Hc.
    assert (wrap_int (sem_count x + 1) = sem_count x + 1) as Hw
      by (apply wrap_int_id; unfold INT_MIN, INT_MAX in *; lia).
    assert (V_stuck sem x s
            = set_heap (<[sem:=O_sem (V_count x)]> (heap (set_curspl SPL_HIGH s)))
                (set_curspl SPL_HIGH s)) as Hst
      by (unfold V_stuck, V_count; rewrite Hw; reflexivity).
    do 3 eexists. exists (V_post sem x s).
    split; [apply V_returns; assumption|].
    do 3 (split; [reflexivity|]).
    split; [reflexivity|].
    split.
    { intros spl0. rewrite Hent, Hw, Hst.
      replace (0 <? sem_count x + 1) with true by (symmetry; apply Z.ltb_lt; lia).
      reflexivity. }
    split; [cbn; apply lookup_insert_eq|].
    split; [intros t k Ht; apply (wake_all_asleep sem); exact Ht|].
    split; [intros t k; apply (wake_all_no_sleeper sem)|].
    split; [apply thread_hassleepers_none; intros t k; apply (wake_all_no_sleeper sem)|].
    split; [|split; reflexivity].
    intros t Ht.
    exact (wake_all_other sem
             (set_heap (<[sem:=O_sem (V_count x)]> (heap s)) (set_curspl SPL_HIGH s))
             t Ht).
  - intros Hc.
    assert (wrap_int (sem_count x + 1) <= 0) as Hle.
    { destruct (Z.eq_dec (sem_count x) INT_MAX) as [E|E].
      - rewrite E, wrap_int_succ_max. unfold INT_MIN. lia.
      - rewrite wrap_int_id by (unfold INT_MIN, INT_MAX in *; lia). lia. }
    assert ((0 <? wrap_int (sem_count x + 1)) = false) as Hb
      by (apply Z.ltb_ge; exact Hle).
    split.
    { unfold V. rewrite (not_NULL_eqb sem Hp). cbn [negb].
      rewrite (bind_Ok _ _ _ _ _ (assert_true 90 s)).
      unfold splhigh.
      rewrite (bind_Ok _ _ s (curspl s) (set_curspl SPL_HIGH s)) by reflexivity.
      erewrite bind_Ok; [|apply upd_sem_Ok; [exact Hp|exact Hl]].
      erewrite bind_Ok; [|apply rd_sem_Ok; [exact Hp|cbn; apply lookup_insert_eq]].
      cbn [with_sem_count sem_count]. rewrite Hb. reflexivity. }
    split; [exact Hle|].
    split; [intros E; rewrite E; apply wrap_int_succ_max|].
    do 3 (split; [reflexivity|]).
    intros spl0. rewrite Hent, Hb. reflexivity.
Qed.

Lemma V_increments_and_wakes_all_witness :
  exists s',
    V 16 sem_demo = Ok tt s'
    /\ heap s' !! 16 = Some (O_sem {| sem_name := 17; sem_count := 1 |})
    /\ threads s' !! 2 = Some (T_woken (K_P 16 0))
    /\ entered (V_lines 16) 0 sem_demo
       = [(90%nat, sem_demo); (91%nat, sem_demo);
          (92%nat, set_curspl SPL_HIGH sem_demo);
          (93%nat, V_stuck 16 {| sem_name := 17; sem_count := 0 |} sem_demo);
          (94%nat, V_stuck 16 {| sem_name := 17; sem_count := 0 |} sem_demo);
          (95%nat, wake_all 16
                     (V_stuck 16 {| sem_name := 17; sem_count := 0 |} sem_demo))].
Proof.
  destruct (V_increments_and_wakes_all 16 sem_demo)
    as (_ & _ & _ & _ & Hcall).
  destruct (Hcall {| sem_name := 17; sem_count := 0 |}) as [Hok _].
  - discriminate.
  - reflexivity.
  - cbn. unfold INT_MIN, INT_MAX. lia.
  - destruct Hok as (s1 & s2 & s3 & s' & HV & -> & -> & -> & -> & He & Hh & Hw & _).
    + cbn. unfold INT_MAX. lia.
    + eexists. split; [exact HV|]. split; [exact Hh|].
      split; [apply Hw; reflexivity|].
      rewrite (He 0). reflexivity.
Defined.

(** C8, as the spec words it ("for every call"), fails where the count
    has no room.  [sem_create] with the initial count [INT_MAX], a value
    the [int] parameter holds, gives a semaphore on which [V] does not
    return: the increment of line 92 wraps the count to [INT_MIN], which
    is not the count plus one, the assertion of line 93 stops the call at
    level [SPL_HIGH], and no wake-up has been made. *)
Lemma V_at_INT_MAX_stops :
  match sem_create "sem" INT_MAX boot with
  | Ok sem s =>
      sem <> NULL
      /\ heap s !! sem = Some (O_sem {| sem_name := 17; sem_count := INT_MAX |})
      /\ (forall s', V sem s <> Ok tt s')
      /\ match V sem s with
         | Fault f s' =>
             f = AssertFail 93
             /\ heap s' !! sem
                = Some (O_sem {| sem_name := 17; sem_count := INT_MIN |})
             /\ INT_MIN <> INT_MAX + 1
             /\ threads s' = threads s
             /\ wakeups s' = wakeups s
             /\ curspl s' = SPL_HIGH
         | _ => False
         end
  | _ => False
  end.
Proof. vm_compute. repeat split; (reflexivity || discriminate). Qed.

(** *** What [P] and [V] do to the heap *)

Lemma P_loop_heap sem spl s :
  match P_loop sem spl s with
  | Ok _ s' =>
      exists x, sem <> NULL /\ heap s !! sem = Some (O_sem x) /\ 0 < sem_count x
                /\ heap s' = <[sem:=O_sem (with_sem_count (wrap_int (sem_count x - 1)) x)]> (heap s)
  | Sleep key k s' => heap s' = heap s /\ sem_count_is_zero_at sem s
  | Fault _ _ => True
  end.
Proof.
  unfold P_loop.
  destruct (rd_sem_cases sem s) as [(x & Hr & Hp & Hl)|Hf].
  - rewrite (bind_Ok _ _ _ _ _ Hr).
    destruct (sem_count x =? 0) eqn:E0.
    + cbn. split; [reflexivity|]. exists x. split; [exact Hl|]. apply Z.eqb_eq. exact E0.
    + rewrite (bind_Ok _ _ _ _ _ Hr).
      destruct (0 <? sem_count x) eqn:Epos.
      * rewrite (bind_Ok _ _ _ _ _ (assert_true 81 s)).
        rewrite (bind_Ok _ _ _ _ _ (upd_sem_Ok _ _ _ _ Hp Hl)).
        cbn. exists x. apply Z.ltb_lt in Epos. auto.
      * rewrite (bind_Fault _ _ _ _ _ (assert_false 81 s)). exact I.
  - rewrite (bind_Fault _ _ _ _ _ Hf). exact I.
Qed.

Lemma P_heap sem s :
  match P sem s with
  | Ok _ s' =>
      exists x, sem <> NULL /\ heap s !! sem = Some (O_sem x) /\ 0 < sem_count x
                /\ heap s' = <[sem:=O_sem (with_sem_count (wrap_int (sem_count x - 1)) x)]> (heap s)
  | Sleep key k s' => heap s' = heap s /\ sem_count_is_zero_at sem s
  | Fault _ _ => True
  end.
Proof.
  unfold P.
  destruct (sem =? NULL); cbn [negb];
    [rewrite (bind_Fault _ _ _ _ _ (assert_false 67 s)); exact I|].
  rewrite (bind_Ok _ _ _ _ _ (assert_true 67 s)).
  rewrite (bind_Ok _ _ s (in_interrupt s) s) by reflexivity.
  destruct (in_interrupt s =? 0);
    [|rewrite (bind_Fault _ _ _ _ _ (assert_false 75 s)); exact I].
  rewrite (bind_Ok _ _ _ _ _ (assert_true 75 s)).
  rewrite (bind_Ok _ _ s (curspl s) (set_curspl SPL_HIGH s)) by reflexivity.
  exact (P_loop_heap sem (curspl s) (set_curspl SPL_HIGH s)).
Qed.

Lemma V_heap sem s :
  match V sem s with
  | Ok _ s' =>
      exists x, sem <> NULL /\ heap s !! sem = Some (O_sem x)
                /\ 0 < wrap_int (sem_count x + 1)
                /\ heap s' = <[sem:=O_sem (with_sem_count (wrap_int (sem_count x + 1)) x)]> (heap s)
  | Sleep _ _ _ => False
  | Fault _ _ => True
  end.
Proof.
  unfold V.
  destruct (sem =? NULL) eqn:Ep; cbn [negb];
    [rewrite (bind_Fault _ _ _ _ _ (assert_false 90 s)); exact I|].
  apply Z.eqb_neq in Ep.
  rewrite (bind_Ok _ _ _ _ _ (assert_true 90 s)).
  rewrite (bind_Ok _ _ s (curspl s) (set_curspl SPL_HIGH s)) by reflexivity.
  destruct (rd_sem_cases sem (set_curspl SPL_HIGH s)) as [(x & Hr & _ & Hl)|Hf].
  - rewrite (bind_Ok _ _ _ _ _ (upd_sem_Ok _ _ _ _ Ep Hl)).
    erewrite bind_Ok; [|apply rd_sem_Ok; [exact Ep|cbn; apply lookup_insert_eq]].
    cbn [with_sem_count sem_count].
    destruct (0 <? wrap_int (sem_count x + 1)) eqn:Epos.
    + cbn. exists x. apply Z.ltb_lt in Epos. auto.
    + cbn. exact I.
  - unfold upd_sem.
    rewrite (bind_Fault _ _ _ _ _ (bind_Fault _ _ _ _ _ Hf)). exact I.
Qed.

(** *** What [lock_acquire] does to the heap *)

Lemma unwind_heap rest s :
  exists s', unwind rest s = Ok tt s' /\ heap s' = heap s /\ threads s' = threads s
             /\ wakeups s' = wakeups s /\ curthread s' = curthread s.
Proof.
  destruct rest as [|[spl] rest]; cbn; eexists; (split; [reflexivity|auto]).
Qed.

Lemma lock_acquire_loop_heap lock spl rest s :
  match lock_acquire_loop lock spl rest s with
  | Ok _ s' =>
      exists l, lock <> NULL /\ heap s !! lock = Some (O_lock l)
                /\ negb ((lock_occupied l =? 1) && negb (lock_holder l =? curthread s)) = true
                /\ heap s' = <[lock:=O_lock {| lock_name := lock_name l;
                                               lock_occupied := 1;
                                               lock_holder := curthread s |}]> (heap s)
                /\ threads s' = threads s
  | Sleep key k s' =>
      exists l, heap s !! lock = Some (O_lock l)
                /\ (lock_occupied l =? 1) && negb (lock_holder l =? curthread s) = true
                /\ key = lock /\ k = K_lock_acquire lock spl rest
                /\ heap s' = heap s
  | Fault _ _ => True
  end.
Proof.
  unfold lock_acquire_loop.
  destruct (rd_lock_cases lock s) as [(l & Hr & Hp & Hl)|Hf].
  - rewrite (bind_Ok _ _ _ _ _ Hr).
    rewrite (bind_Ok _ _ s (curthread s) s) by reflexivity.
    destruct ((lock_occupied l =? 1) && negb (lock_holder l =? curthread s)) eqn:Etest.
    + cbn. exists l. auto.
    + rewrite (bind_Ok _ _ _ _ _ (upd_lock_Ok _ _ _ _ Hp Hl)).
      erewrite bind_Ok; [|reflexivity].
      cbn [curthread set_heap].
      erewrite bind_Ok; [|apply upd_lock_Ok; [exact Hp|cbn; apply lookup_insert_eq]].
      erewrite bind_Ok; [|reflexivity].
      match goal with |- context [unwind rest ?st] =>
        destruct (unwind_heap rest st) as (s' & -> & Hh & Ht & _) end.
      exists l. rewrite Hh, Ht. cbn.
      rewrite insert_insert_eq, Etest. repeat split; auto.
  - rewrite (bind_Fault _ _ _ _ _ Hf). exact I.
Qed.

Lemma lock_acquire_from_heap rest lock s :
  match lock_acquire_from rest lock s with
  | Ok _ s' =>
      exists l l', heap s !! lock = Some (O_lock l)
                   /\ heap s' = <[lock:=O_lock l']> (heap s)
  | Sleep key k s' => heap s' = heap s
  | Fault _ _ => True
  end.
Proof.
  unfold lock_acquire_from.
  destruct (lock =? NULL); cbn [negb];
    [rewrite (bind_Fault _ _ _ _ _ (assert_false 141 s)); exact I|].
  rewrite (bind_Ok _ _ _ _ _ (assert_true 141 s)).
  rewrite (bind_Ok _ _ s (curspl s) (set_curspl SPL_HIGH s)) by reflexivity.
  pose proof (lock_acquire_loop_heap lock (curspl s) rest (set_curspl SPL_HIGH s)) as H.
  destruct (lock_acquire_loop lock (curspl s) rest (set_curspl SPL_HIGH s)).
  - destruct H as (l & _ & Hl & _ & Hh & _). eauto.
  - destruct H as (l & _ & _ & _ & _ & Hh). exact Hh.
  - exact I.
Qed.

(** *** Counting returned calls *)

Lemma completed_nil c : completed c [] = 0.
Proof. reflexivity. Qed.

Lemma completed_snoc c d done :
  completed c (done ++ [d]) = completed c done + of_bool (call_eqb c d).
Proof.
  unfold completed. rewrite filter_app, length_app, Nat2Z.inj_add. f_equal.
  rewrite filter_cons, filter_nil.
  destruct (call_eqb c d); cbn; [reflexivity|].
  destruct (decide (false = true)); [discriminate|reflexivity].
Qed.

Lemma call_eqb_P_V a b : call_eqb (C_P a) (C_V b) = false.
Proof. reflexivity. Qed.

Lemma call_eqb_V_P a b : call_eqb (C_V a) (C_P b) = false.
Proof. reflexivity. Qed.

(** *** One event keeps the books of a semaphore balanced *)

Section Conservation.

Variables sem n : Z.

Lemma conserved_frame s s' done :
  sem_conserved sem n s done ->
  heap s' !! sem = heap s !! sem ->
  sem_conserved sem n s' done.
Proof.
  intros (x & Hl & Hr & Hc) Hh. exists x. rewrite Hh. auto.
Qed.

Lemma conserved_P sem' s s' done x' :
  sem_conserved sem n s done ->
  heap s !! sem' = Some (O_sem x') -> 0 < sem_count x' ->
  heap s' = <[sem':=O_sem (with_sem_count (wrap_int (sem_count x' - 1)) x')]> (heap s) ->
  sem_conserved sem n s' (done ++ [C_P sem']).
Proof.
  intros (x & Hl & Hr & Hc) Hl' Hpos Hh.
  unfold sem_conserved. rewrite !completed_snoc, call_eqb_V_P. cbn [call_eqb of_bool].
  destruct (Z.eq_dec sem sem') as [<-|Hne].
  - rewrite Hl in Hl'. injection Hl' as <-.
    rewrite Hh, lookup_insert_eq, Z.eqb_refl. eexists. split; [reflexivity|].
    cbn [with_sem_count sem_count].
    rewrite wrap_int_id by (unfold INT_MIN, INT_MAX in *; lia).
    unfold of_bool, INT_MAX in *. lia.
  - rewrite Hh, lookup_insert_ne by congruence.
    replace (sem =? sem') with false by (symmetry; apply Z.eqb_neq; exact Hne).
    exists x. split; [exact Hl|]. split; [exact Hr|]. unfold of_bool. lia.
Qed.

Lemma conserved_V sem' s s' done x' :
  sem_conserved sem n s done ->
  heap s !! sem' = Some (O_sem x') -> 0 < wrap_int (sem_count x' + 1) ->
  heap s' = <[sem':=O_sem (with_sem_count (wrap_int (sem_count x' + 1)) x')]> (heap s) ->
  sem_conserved sem n s' (done ++ [C_V sem']).
Proof.
  intros (x & Hl & Hr & Hc) Hl' Hpos Hh.
  unfold sem_conserved. rewrite !completed_snoc, call_eqb_P_V. cbn [call_eqb of_bool].
  destruct (Z.eq_dec sem sem') as [<-|Hne].
  - rewrite Hl in Hl'. injection Hl' as <-.
    rewrite Hh, lookup_insert_eq, Z.eqb_refl. eexists. split; [reflexivity|].
    cbn [with_sem_count sem_count].
    assert (sem_count x + 1 <= INT_MAX) as Hle.
    { destruct (Z_le_gt_dec (sem_count x + 1) INT_MAX) as [|Hgt]; [assumption|].
      assert (sem_count x = INT_MAX) as E by lia.
      rewrite E, wrap_int_succ_max in Hpos. unfold INT_MIN in Hpos. lia. }
    rewrite wrap_int_id by (unfold INT_MIN, INT_MAX in *; lia).
    unfold of_bool. lia.
  - rewrite Hh, lookup_insert_ne by congruence.
    replace (sem =? sem') with false by (symmetry; apply Z.eqb_neq; exact Hne).
    exists x. split; [exact Hl|]. split; [exact Hr|]. unfold of_bool. lia.
Qed.

Lemma conserved_lock lock l l' s s' done :
  sem_conserved sem n s done ->
  heap s !! lock = Some (O_lock l) ->
  heap s' = <[lock:=O_lock l']> (heap s) ->
  sem_conserved sem n s' done.
Proof.
  intros Hc Hl Hh. apply (conserved_frame s); [exact Hc|].
  rewrite Hh. apply lookup_insert_ne. intros ->.
  destruct Hc as (x & Hx & _). congruence.
Qed.

Lemma dispatch_conserves e s done r :
  sem_conserved sem n s done ->
  dispatch e s = Some r ->
  match r with
  | Ok _ s' => sem_conserved sem n s' (done ++ finishes e s)
  | Sleep _ _ s' => sem_conserved sem n s' done
  | Fault _ _ => True
  end.
Proof.
  intros Hc Hd. destruct e as [t c|t]; cbn in Hd.
  - destruct (threads s !! t) as [[| |]|]; try discriminate.
    injection Hd as <-. cbn [finishes].
    assert (sem_conserved sem n (set_curthread t s) done) as Hc'
      by (apply (conserved_frame s); [exact Hc|reflexivity]).
    destruct c as [sem'|sem']; cbn [run_call].
    + pose proof (P_heap sem' (set_curthread t s)) as H.
      destruct (P sem' (set_curthread t s)) as [[] s'|key k s'|]; [| |exact I].
      * destruct H as (x' & _ & Hl & Hpos & Hh). eapply conserved_P; eauto.
      * destruct H as [Hh _]. apply (conserved_frame _ _ _ Hc'). rewrite Hh. reflexivity.
    + pose proof (V_heap sem' (set_curthread t s)) as H.
      destruct (V sem' (set_curthread t s)) as [[] s'|key k s'|]; [|destruct H|exact I].
      destruct H as (x' & _ & Hl & Hpos & Hh). eapply conserved_V; eauto.
  - cbn [finishes].
    destruct (threads s !! t) as [[| |k]|]; try discriminate.
    injection Hd as <-.
    set (s0 := set_curthread t (set_threads (<[t:=T_ready]> (threads s)) s)).
    assert (sem_conserved sem n s0 done) as Hc'
      by (apply (conserved_frame s); [exact Hc|reflexivity]).
    destruct k as [sem' spl|lock spl rest|lock spl]; cbn [resume].
    + pose proof (P_loop_heap sem' spl s0) as H.
      destruct (P_loop sem' spl s0) as [[] s'|key k s'|]; [| |exact I].
      * destruct H as (x' & _ & Hl & Hpos & Hh). eapply conserved_P; eauto.
      * destruct H as [Hh _]. apply (conserved_frame _ _ _ Hc'). rewrite Hh. reflexivity.
    + pose proof (lock_acquire_loop_heap lock spl rest s0) as H.
      destruct (lock_acquire_loop lock spl rest s0) as [[] s'|key k s'|]; [| |exact I].
      * destruct H as (l & _ & Hl & _ & Hh & _). rewrite app_nil_r.
        eapply conserved_lock; eauto.
      * destruct H as (l & _ & _ & _ & _ & Hh).
        apply (conserved_frame _ _ _ Hc'). rewrite Hh. reflexivity.
    + pose proof (lock_acquire_from_heap [F_cv_wait spl] lock s0) as H.
      destruct (lock_acquire_from [F_cv_wait spl] lock s0) as [[] s'|key k s'|]; [| |exact I].
      * destruct H as (l & l' & Hl & Hh). rewrite app_nil_r.
        eapply conserved_lock; eauto.
      * apply (conserved_frame _ _ _ Hc'). rewrite H. reflexivity.
Qed.

Lemma run_conserves es : forall s done s' done',
  sem_conserved sem n s done ->
  run es s done = Running s' done' ->
  sem_conserved sem n s' done'.
Proof.
  induction es as [|e es IH]; intros s done s' done' Hc Hrun; cbn in Hrun.
  - injection Hrun as <- <-. exact Hc.
  - destruct (dispatch e s) as [r|] eqn:Hd; [|discriminate].
    pose proof (dispatch_conserves e s done r Hc Hd) as Hstep.
    destruct r as [[] s1|key k s1|f s1]; [| |discriminate].
    + exact (IH _ _ _ _ Hstep Hrun).
    + exact (IH _ _ _ _ Hstep Hrun).
Qed.

End Conservation.

Lemma sem_create_Ok namearg n s0 sem s1 :
  sem_create namearg n s0 = Ok sem s1 -> sem <> NULL ->
  0 <= n
  /\ exists nm, heap s1 !! sem = Some (O_sem {| sem_name := nm; sem_count := n |}).
Proof.
  unfold sem_create, bind, assert_, kstrdup, kmalloc, bind, store, kfree, modify, ret, raise.
  destruct (0 <=? n) eqn:En; [|discriminate]. apply Z.leb_le in En.
  destruct (kmem s0) as [|m]; cbn.
  - intros [= <- <-] H. destruct H. reflexivity.
  - destruct m as [|m]; cbn.
    + intros [= <- <-] H. destruct H. reflexivity.
    + intros [= <- <-] _. split; [exact En|].
      eexists. cbn. apply lookup_insert_eq.
Qed.

Lemma call_eqb_eq c d : call_eqb c d = true <-> c = d.
Proof.
  destruct c, d; cbn; split; try discriminate.
  - intros H. apply Z.eqb_eq in H. congruence.
  - intros [= ->]. apply Z.eqb_refl.
  - intros H. apply Z.eqb_eq in H. congruence.
  - intros [= ->]. apply Z.eqb_refl.
Qed.

Lemma call_eqb_neq c d : c <> d -> call_eqb c d = false.
Proof.
  intros H. destruct (call_eqb c d) eqn:E; [|reflexivity].
  apply call_eqb_eq in E. contradiction.
Qed.

Lemma finishes_short e s : finishes e s = [] \/ exists c, finishes e s = [c].
Proof.
  destruct e as [t c|t]; cbn; [eauto|].
  destruct (threads s !! t) as [[| |[]]|]; eauto.
Qed.



(** ** Lock *)

Lemma held_by_other_test l me :
  (lock_occupied l =? 1) && negb (lock_holder l =? me) = true <-> held_by_other l me.
Proof.
  unfold held_by_other. rewrite andb_true_iff, negb_true_iff, Z.eqb_eq, Z.eqb_neq.
  reflexivity.
Qed.

Lemma not_held_by_other_test l me :
  (lock_occupied l =? 1) && negb (lock_holder l =? me) = false <-> ~ held_by_other l me.
Proof.
  rewrite <- held_by_other_test. destruct (_ && _); split; congruence.
Qed.

Lemma lock_acquire_loop_sleeps lock spl rest l s :
  lock <> NULL -> heap s !! lock = Some (O_lock l) ->
  held_by_other l (curthread s) ->
  lock_acquire_loop lock spl rest s
  = Sleep lock (K_lock_acquire lock spl rest)
      (asleep_on lock (K_lock_acquire lock spl rest) s).
Proof.
  intros Hp Hl Hheld. unfold lock_acquire_loop.
  rewrite (bind_Ok _ _ _ _ _ (rd_lock_Ok _ _ _ Hp Hl)).
  rewrite (bind_Ok _ _ s (curthread s) s) by reflexivity.
  rewrite (proj2 (held_by_other_test _ _) Hheld). reflexivity.
Qed.

Lemma lock_acquire_loop_takes lock spl l s :
  lock <> NULL -> heap s !! lock = Some (O_lock l) ->
  ~ held_by_other l (curthread s) ->
  lock_acquire_loop lock spl [] s
  = Ok tt (set_curspl spl
             (set_heap (<[lock:=O_lock (lock_taken l (curthread s))]> (heap s)) s)).
Proof.
  intros Hp Hl Hfree. unfold lock_acquire_loop.
  rewrite (bind_Ok _ _ _ _ _ (rd_lock_Ok _ _ _ Hp Hl)).
  rewrite (bind_Ok _ _ s (curthread s) s) by reflexivity.
  rewrite (proj2 (not_held_by_other_test _ _) Hfree).
  rewrite (bind_Ok _ _ _ _ _ (upd_lock_Ok _ _ _ _ Hp Hl)).
  erewrite bind_Ok; [|reflexivity].
  cbn [curthread set_heap].
  erewrite bind_Ok; [|apply upd_lock_Ok; [exact Hp|cbn; apply lookup_insert_eq]].
  cbn. rewrite insert_insert_eq. reflexivity.
Qed.

Lemma lock_acquire_enters lock s :
  lock <> NULL ->
  lock_acquire lock s = lock_acquire_loop lock (curspl s) [] (set_curspl SPL_HIGH s).
Proof.
  intros Hp. unfold lock_acquire, lock_acquire_from.
  rewrite (not_NULL_eqb lock Hp). reflexivity.
Qed.

(** C7.  [lock_acquire] on a lock puts the caller to sleep (on the lock, to
    continue at the test of the loop) exactly when the lock is held and its
    holder is another context; the lock is then left as it was.  In every
    other case, and so whenever the caller is itself the holder, the call
    returns with [lock_occupied = 1] and [lock_holder = curthread].  A
    woken thread meets the same test again. *)
Theorem lock_acquire_sleeps_only_on_other_holder lock l s :
  lock <> NULL ->
  heap s !! lock = Some (O_lock l) ->
  (held_by_other l (curthread s) ->
     lock_acquire lock s
     = Sleep lock (K_lock_acquire lock (curspl s) [])
         (asleep_on lock (K_lock_acquire lock (curspl s) []) (set_curspl SPL_HIGH s))
     /\ heap (asleep_on lock (K_lock_acquire lock (curspl s) []) (set_curspl SPL_HIGH s))
        = heap s)
  /\ (~ held_by_other l (curthread s) ->
      lock_acquire lock s
      = Ok tt (set_heap (<[lock:=O_lock (lock_taken l (curthread s))]> (heap s)) s))
  /\ (lock_holder l = curthread s ->
      lock_acquire lock s
      = Ok tt (set_heap (<[lock:=O_lock (lock_taken l (curthread s))]> (heap s)) s))
  /\ (forall spl,
        (held_by_other l (curthread s) ->
         resume (K_lock_acquire lock spl []) s
         = Sleep lock (K_lock_acquire lock spl [])
             (asleep_on lock (K_lock_acquire lock spl []) s))
        /\ (~ held_by_other l (curthread s) ->
            resume (K_lock_acquire lock spl []) s
            = Ok tt (set_curspl spl
                       (set_heap (<[lock:=O_lock (lock_taken l (curthread s))]> (heap s)) s)))).
Proof.
  intros Hp Hl.
  assert (~ held_by_other l (curthread s) ->
          lock_acquire lock s
          = Ok tt (set_heap (<[lock:=O_lock (lock_taken l (curthread s))]> (heap s)) s))
    as Htake.
  { intros Hfree. rewrite (lock_acquire_enters lock s Hp).
    rewrite (lock_acquire_loop_takes lock (curspl s) l (set_curspl SPL_HIGH s) Hp Hl Hfree).
    reflexivity. }
  split; [|split; [exact Htake|split]].
  - intros Hheld. split; [|reflexivity].
    rewrite (lock_acquire_enters lock s Hp).
    exact (lock_acquire_loop_sleeps lock (curspl s) [] l (set_curspl SPL_HIGH s) Hp Hl Hheld).
  - intros Hme. apply Htake. intros [_ Hne]. contradiction.
  - intros spl. split.
    + intros Hheld. exact (lock_acquire_loop_sleeps lock spl [] l s Hp Hl Hheld).
    + intros Hfree. exact (lock_acquire_loop_takes lock spl l s Hp Hl Hfree).
Qed.

Lemma lock_acquire_sleeps_only_on_other_holder_witness :
  (exists s', lock_acquire 16 lock_demo = Sleep 16 (K_lock_acquire 16 0 []) s')
  /\ (exists s', lock_acquire 16 (set_curthread 2 lock_demo) = Ok tt s').
Proof.
  assert (16 <> NULL) as Hp by discriminate.
  split.
  - destruct (lock_acquire_sleeps_only_on_other_holder 16
                {| lock_name := 17; lock_occupied := 1; lock_holder := 2 |}
                lock_demo Hp eq_refl) as (Hsleep & _).
    destruct Hsleep as [Hs _]; [split; [reflexivity|discriminate]|].
    eexists. exact Hs.
  - destruct (lock_acquire_sleeps_only_on_other_holder 16
                {| lock_name := 17; lock_occupied := 1; lock_holder := 2 |}
                (set_curthread 2 lock_demo) Hp eq_refl) as (_ & _ & Hmine & _).
    eexists. apply Hmine. reflexivity.
Defined.

Lemma lock_release_returns lock l s :
  lock <> NULL -> heap s !! lock = Some (O_lock l) ->
  lock_release lock s
  = Ok tt (set_curspl (curspl s)
             (wake_all lock
                (set_heap (<[lock:=O_lock (lock_cleared l)]> (heap s))
                   (set_curspl SPL_HIGH s)))).
Proof.
  intros Hp Hl. unfold lock_release.
  rewrite (not_NULL_eqb lock Hp). cbn [negb].
  rewrite (bind_Ok _ _ _ _ _ (assert_true 166 s)).
  unfold splhigh. rewrite (bind_Ok _ _ s (curspl s) (set_curspl SPL_HIGH s)) by reflexivity.
  erewrite bind_Ok; [|apply upd_lock_Ok; [exact Hp|exact Hl]].
  erewrite bind_Ok; [|apply upd_lock_Ok; [exact Hp|cbn; apply lookup_insert_eq]].
  cbn. rewrite insert_insert_eq. reflexivity.
Qed.

(** What a call of [lock_release] that passes line 166 does, and so what
    it does for the holder: it returns, leaves [lock_occupied = 0] and
    [lock_holder = NULL], wakes every thread that sleeps on the lock and
    no other, and restores the caller's interrupt level.  A null handle
    is stopped by the assertion of line 166. *)
Theorem lock_release_clears_and_wakes_all lock l s :
  lock <> NULL ->
  heap s !! lock = Some (O_lock l) ->
  exists s',
    lock_release lock s = Ok tt s'
    /\ heap s' = <[lock:=O_lock (lock_cleared l)]> (heap s)
    /\ (forall t k, threads s !! t = Some (T_asleep lock k) ->
                    threads s' !! t = Some (T_woken k))
    /\ (forall t k, threads s' !! t <> Some (T_asleep lock k))
    /\ thread_hassleepers lock s' = Ok 0 s'
    /\ (forall t, (forall k, threads s !! t <> Some (T_asleep lock k)) ->
                  threads s' !! t = threads s !! t)
    /\ wakeups s' = wakeups s ++ [lock]
    /\ curspl s' = curspl s
    /\ lock_release NULL s = Fault (AssertFail 166) s.
Proof.
  intros Hp Hl. eexists. split; [apply lock_release_returns; eassumption|].
  split; [reflexivity|].
  split; [intros t k Ht; apply (wake_all_asleep lock); exact Ht|].
  split; [intros t k; apply (wake_all_no_sleeper lock)|].
  split; [apply thread_hassleepers_none; intros t k; apply (wake_all_no_sleeper lock)|].
  split; [|repeat split; reflexivity].
  intros t Ht.
  exact (wake_all_other lock
           (set_heap (<[lock:=O_lock (lock_cleared l)]> (heap s)) (set_curspl SPL_HIGH s))
           t Ht).
Qed.

Lemma lock_release_clears_and_wakes_all_witness :
  exists s',
    lock_release 16 (set_curthread 2 lock_demo) = Ok tt s'
    /\ heap s' !! 16
       = Some (O_lock {| lock_name := 17; lock_occupied := 0; lock_holder := NULL |})
    /\ threads s' !! 3 = Some (T_woken (K_lock_acquire 16 0 [])).
Proof.
  destruct (lock_release_clears_and_wakes_all 16
              {| lock_name := 17; lock_occupied := 1; lock_holder := 2 |}
              (set_curthread 2 lock_demo))
    as (s' & Hr & Hh & Hw & _).
  - discriminate.
  - reflexivity.
  - exists s'. split; [exact Hr|]. split.
    + rewrite Hh. apply lookup_insert_eq.
    + apply Hw. reflexivity.
Defined.

(** C1 at the input where the code leaves it.  In [lock_demo] thread 1
    runs, thread 2 holds the lock at 16 and thread 3 sleeps on it, so the
    caller is not the owner ([lock_do_i_hold] answers 0).  [lock_release]
    (lines 162-181) has no test of [lock_holder] against [curthread]:
    called by thread 1 it raises no fault, it clears the lock that thread 2
    holds and wakes thread 3, and thread 1 then takes by [lock_acquire] a
    lock that thread 2 never gave up.  The calls on condition variables do
    make the test: [cv_signal] by a thread that does not hold the lock
    stops at the assertion of line 284.  Called by the holder, thread 2,
    [lock_release] does what the claim says. *)
Theorem lock_release_by_non_owner :
  curthread lock_demo = 1
  /\ heap lock_demo !! 16
     = Some (O_lock {| lock_name := 17; lock_occupied := 1; lock_holder := 2 |})
  /\ threads lock_demo !! 3 = Some (T_asleep 16 (K_lock_acquire 16 0 []))
  /\ lock_do_i_hold 16 lock_demo = Ok 0 lock_demo
  /\ (forall f s', lock_release 16 lock_demo <> Fault f s')
  /\ match lock_release 16 lock_demo with
     | Ok _ s' =>
         heap s' !! 16
         = Some (O_lock {| lock_name := 17; lock_occupied := 0; lock_holder := NULL |})
         /\ threads s' !! 3 = Some (T_woken (K_lock_acquire 16 0 []))
         /\ curthread s' = 1
         /\ match lock_acquire 16 s' with
            | Ok _ s'' =>
                heap s'' !! 16
                = Some (O_lock {| lock_name := 17; lock_occupied := 1;
                                  lock_holder := 1 |})
            | _ => False
            end
     | _ => False
     end
  /\ match lock_release 16 (set_curthread 2 lock_demo) with
     | Ok _ s' =>
         heap s' !! 16
         = Some (O_lock {| lock_name := 17; lock_occupied := 0; lock_holder := NULL |})
         /\ threads s' !! 3 = Some (T_woken (K_lock_acquire 16 0 []))
     | _ => False
     end
  /\ lock_do_i_hold 18 (set_curthread 2 cv_idle_demo)
     = Ok 0 (set_curthread 2 cv_idle_demo)
  /\ cv_signal 16 18 (set_curthread 2 cv_idle_demo)
     = Fault (AssertFail 284) (set_curthread 2 cv_idle_demo).
Proof.
  assert (lock_release 16 lock_demo
          = Ok tt (set_curspl (curspl lock_demo)
                     (wake_all 16
                        (set_heap
                           (<[16:=O_lock (lock_cleared
                                    {| lock_name := 17; lock_occupied := 1;
                                       lock_holder := 2 |})]> (heap lock_demo))
                           (set_curspl SPL_HIGH lock_demo))))) as Hr.
  { apply lock_release_returns; [discriminate|reflexivity]. }
  do 4 (split; [reflexivity|]).
  split; [intros f s'; rewrite Hr; discriminate|].
  split; [vm_compute; repeat split; reflexivity|].
  split; [vm_compute; repeat split; reflexivity|].
  split; reflexivity.
Qed.

(** What a call of [lock_destroy] that passes line 128 does, and so what
    it does on a lock that is not held: it returns and has freed the name
    and the lock.  A null handle is stopped by the assertion of line
    128. *)
Theorem lock_destroy_frees_held_or_not lock l s :
  lock <> NULL ->
  heap s !! lock = Some (O_lock l) ->
  lock_destroy lock s
  = Ok tt (set_heap (delete lock (delete (lock_name l) (heap s))) s)
  /\ heap (set_heap (delete lock (delete (lock_name l) (heap s))) s) !! lock = None
  /\ lock_destroy NULL s = Fault (AssertFail 128) s.
Proof.
  intros Hp Hl. split; [|split; [cbn; apply lookup_delete_eq|reflexivity]].
  unfold lock_destroy.
  rewrite (not_NULL_eqb lock Hp). cbn [negb].
  rewrite (bind_Ok _ _ _ _ _ (assert_true 128 s)).
  rewrite (bind_Ok _ _ _ _ _ (rd_lock_Ok _ _ _ Hp Hl)).
  reflexivity.
Qed.

Lemma lock_destroy_frees_held_or_not_witness :
  exists s', lock_destroy 16 lock_irq_demo = Ok tt s' /\ heap s' !! 16 = None.
Proof.
  destruct (lock_destroy_frees_held_or_not 16
              {| lock_name := 17; lock_occupied := 0; lock_holder := NULL |}
              lock_irq_demo) as (Hr & Hn & _).
  - discriminate.
  - reflexivity.
  - eexists. split; [exact Hr|exact Hn].
Defined.

(** C3 at the input where the code leaves it.  In [lock_demo] the lock at
    16 is held by thread 2 and thread 3 sleeps on it.  [lock_destroy]
    (lines 125-133) never reads [lock_occupied]: it raises no fault and
    frees the name and the lock, and thread 3 is left asleep on a lock
    that is gone.  The other two destructors make the check that the
    comment of line 226 ascribes to locks as well: [sem_destroy] on a
    semaphore with a sleeper stops at the assertion of line 47, and
    [cv_destroy] on a condition variable with waiters at that of line 227.
    On a lock that is not held [lock_destroy] does what the claim says. *)
Theorem lock_destroy_of_held_lock :
  heap lock_demo !! 16
  = Some (O_lock {| lock_name := 17; lock_occupied := 1; lock_holder := 2 |})
  /\ threads lock_demo !! 3 = Some (T_asleep 16 (K_lock_acquire 16 0 []))
  /\ (forall f s', lock_destroy 16 lock_demo <> Fault f s')
  /\ match lock_destroy 16 lock_demo with
     | Ok _ s' =>
         heap s' !! 16 = None
         /\ heap s' !! 17 = None
         /\ threads s' !! 3 = Some (T_asleep 16 (K_lock_acquire 16 0 []))
     | _ => False
     end
  /\ match lock_destroy 16 lock_irq_demo with
     | Ok _ s' => heap s' !! 16 = None /\ heap s' !! 17 = None
     | _ => False
     end
  /\ sem_destroy 16 sem_demo = Fault (AssertFail 47) (set_curspl SPL_HIGH sem_demo)
  /\ cv_destroy 16 cv_busy_demo = Fault (AssertFail 227) cv_busy_demo.
Proof.
  assert (lock_destroy 16 lock_demo
          = Ok tt (set_heap (delete 16 (delete 17 (heap lock_demo))) lock_demo)) as Hr
    by reflexivity.
  do 2 (split; [reflexivity|]).
  split; [intros f s'; rewrite Hr; discriminate|].
  split; [vm_compute; repeat split; reflexivity|].
  split; [vm_compute; repeat split; reflexivity|].
  split; reflexivity.
Qed.

(** ** Blocking in an interrupt handler *)

(** [P] checks [in_interrupt] (line 75) before it touches anything. *)
Lemma P_in_interrupt sem s :
  in_interrupt s <> 0 ->
  exists line, P sem s = Fault (AssertFail line) s.
Proof.
  intros Hi. unfold P.
  destruct (sem =? NULL); cbn [negb].
  - exists 67%nat. reflexivity.
  - exists 75%nat.
    rewrite (bind_Ok _ _ _ _ _ (assert_true 67 s)).
    rewrite (bind_Ok _ _ s (in_interrupt s) s) by reflexivity.
    replace (in_interrupt s =? 0) with false by (symmetry; apply Z.eqb_neq; exact Hi).
    reflexivity.
Qed.

Lemma lock_do_i_hold_cases lock s :
  (exists h, lock_do_i_hold lock s = Ok h s)
  \/ lock_do_i_hold lock s = Fault MemFault s.
Proof.
  unfold lock_do_i_hold.
  destruct (rd_lock_cases lock s) as [(l & Hr & _)|Hf].
  - left. rewrite (bind_Ok _ _ _ _ _ Hr). eexists. reflexivity.
  - right. rewrite (bind_Fault _ _ _ _ _ Hf). reflexivity.
Qed.

(** [cv_wait] checks [in_interrupt] (line 253) before it touches anything. *)
Lemma cv_wait_in_interrupt c lock s :
  in_interrupt s <> 0 ->
  exists f, cv_wait c lock s = Fault f s.
Proof.
  intros Hi. unfold cv_wait.
  destruct (c =? NULL); cbn [negb]; [eexists; reflexivity|].
  rewrite (bind_Ok _ _ _ _ _ (assert_true 245 s)).
  destruct (lock =? NULL); cbn [negb]; [eexists; reflexivity|].
  rewrite (bind_Ok _ _ _ _ _ (assert_true 246 s)).
  destruct (lock_do_i_hold_cases lock s) as [(h & Hh)|Hf].
  - rewrite (bind_Ok _ _ _ _ _ Hh).
    destruct (h =? 0); cbn [negb]; [eexists; reflexivity|].
    rewrite (bind_Ok _ _ _ _ _ (assert_true 247 s)).
    rewrite (bind_Ok _ _ s (in_interrupt s) s) by reflexivity.
    replace (in_interrupt s =? 0) with false by (symmetry; apply Z.eqb_neq; exact Hi).
    eexists. reflexivity.
  - rewrite (bind_Fault _ _ _ _ _ Hf). eexists. reflexivity.
Qed.

(** C4 at the input where the code leaves it.  In [lock_irq_demo] the
    running context is an interrupt handler ([in_interrupt = 1]); there
    [P] and [cv_wait] stop at their assertion with the state untouched,
    but [lock_acquire], whose assertion of line 144 is commented out,
    returns and has taken the lock. *)
Theorem lock_acquire_in_interrupt_unchecked :
  in_interrupt lock_irq_demo = 1
  /\ P 16 lock_irq_demo = Fault (AssertFail 75) lock_irq_demo
  /\ (forall c, exists f, cv_wait c 16 lock_irq_demo = Fault f lock_irq_demo)
  /\ lock_acquire 16 lock_irq_demo
     = Ok tt (set_heap
                (<[16:=O_lock {| lock_name := 17; lock_occupied := 1; lock_holder := 1 |}]>
                   (heap lock_irq_demo))
                lock_irq_demo).
Proof.
  split; [reflexivity|]. split; [reflexivity|]. split.
  - intros c. apply cv_wait_in_interrupt. discriminate.
  - rewrite (lock_acquire_enters 16 lock_irq_demo) by discriminate.
    rewrite (lock_acquire_loop_takes 16 (curspl lock_irq_demo)
               {| lock_name := 17; lock_occupied := 0; lock_holder := NULL |}
               (set_curspl SPL_HIGH lock_irq_demo)).
    + reflexivity.
    + discriminate.
    + reflexivity.
    + intros [H _]. discriminate.
Qed.

(** ** Null handles *)

Lemma cv_broadcast_fuel_NULL fuel lock s :
  cv_broadcast_fuel fuel NULL lock s = Fault (AssertFail 305) s.
Proof. reflexivity. Qed.

Lemma cv_broadcast_fuel_lock_NULL fuel c s :
  exists line, cv_broadcast_fuel fuel c NULL s = Fault (AssertFail line) s.
Proof.
  unfold cv_broadcast_fuel. destruct (c =? NULL); cbn [negb]; eexists; reflexivity.
Qed.

(** C5 at the input where the code leaves it.  Every operation that takes a
    handle opens with an assertion that it is not null, except
    [lock_do_i_hold]: it reads [lock->lock_holder] at once, so a null
    handle is a memory fault there and no assertion. *)
Theorem lock_do_i_hold_NULL_unchecked s :
  lock_do_i_hold NULL s = Fault MemFault s
  /\ sem_destroy NULL s = Fault (AssertFail 44) s
  /\ P NULL s = Fault (AssertFail 67) s
  /\ V NULL s = Fault (AssertFail 90) s
  /\ lock_destroy NULL s = Fault (AssertFail 128) s
  /\ lock_acquire NULL s = Fault (AssertFail 141) s
  /\ lock_release NULL s = Fault (AssertFail 166) s
  /\ cv_destroy NULL s = Fault (AssertFail 224) s
  /\ (forall lock, cv_wait NULL lock s = Fault (AssertFail 245) s)
  /\ (forall c, exists line, cv_wait c NULL s = Fault (AssertFail line) s)
  /\ (forall lock, cv_signal NULL lock s = Fault (AssertFail 282) s)
  /\ (forall c, exists line, cv_signal c NULL s = Fault (AssertFail line) s)
  /\ (forall lock, cv_broadcast NULL lock s = Fault (AssertFail 305) s)
  /\ (forall c, exists line, cv_broadcast c NULL s = Fault (AssertFail line) s).
Proof.
  do 8 (split; [reflexivity|]).
  split; [intros lock; reflexivity|].
  split.
  { intros c. unfold cv_wait. destruct (c =? NULL); cbn [negb]; eexists; reflexivity. }
  split; [intros lock; reflexivity|].
  split.
  { intros c. unfold cv_signal. destruct (c =? NULL); cbn [negb]; eexists; reflexivity. }
  split.
  - intros lock. unfold cv_broadcast. apply cv_broadcast_fuel_NULL.
  - intros c. unfold cv_broadcast. apply cv_broadcast_fuel_lock_NULL.
Qed.

(** ** Condition variable *)

Lemma lock_do_i_hold_mine lock s :
  holds_lock lock s -> lock_do_i_hold lock s = Ok 1 s.
Proof.
  intros (Hp & l & Hl & Hme). unfold lock_do_i_hold.
  rewrite (bind_Ok _ _ _ _ _ (rd_lock_Ok _ _ _ Hp Hl)).
  rewrite (bind_Ok _ _ s (curthread s) s) by reflexivity.
  rewrite Hme, Z.eqb_refl. reflexivity.
Qed.

Lemma q_remhead_Ok p t q' s :
  p <> NULL -> heap s !! p = Some (O_queue (t :: q')) ->
  q_remhead p s = Ok t (set_heap (<[p:=O_queue q']> (heap s)) s).
Proof.
  intros Hp Hl. unfold q_remhead.
  rewrite (bind_Ok _ _ _ _ _ (rd_queue_Ok _ _ _ Hp Hl)). reflexivity.
Qed.

Lemma q_remhead_empty p s :
  p <> NULL -> heap s !! p = Some (O_queue []) ->
  q_remhead p s = Fault QueueUnderflow s.
Proof.
  intros Hp Hl. unfold q_remhead.
  rewrite (bind_Ok _ _ _ _ _ (rd_queue_Ok _ _ _ Hp Hl)). reflexivity.
Qed.

Lemma q_empty_Ok p q s :
  p <> NULL -> heap s !! p = Some (O_queue q) ->
  q_empty p s = Ok (of_bool (bool_decide (q = []))) s.
Proof.
  intros Hp Hl. unfold q_empty.
  rewrite (bind_Ok _ _ _ _ _ (rd_queue_Ok _ _ _ Hp Hl)). reflexivity.
Qed.

Lemma cv_at_distinct c x q s : cv_at c x q s -> c <> cv_thread_queue x.
Proof. intros (_ & Hc & _ & Hq) E. rewrite <- E in Hq. congruence. Qed.

Lemma holds_lock_distinct c x q lock s :
  cv_at c x q s -> holds_lock lock s -> lock <> c /\ lock <> cv_thread_queue x.
Proof.
  intros (_ & Hc & _ & Hq) (_ & l & Hl & _). split; intros E; subst lock; congruence.
Qed.

(** Lines 282-286 of [cv_signal]: the asserts pass and interrupts go off. *)
Lemma cv_signal_enters c lock s :
  c <> NULL -> holds_lock lock s ->
  cv_signal c lock s
  = (upd_cv c (fun x => with_cv_count (wrap_int (cv_count x - 1)) x) ;;
     x <- rd_cv c ;;
     next_thread <- q_remhead (cv_thread_queue x) ;;
     thread_wakeup next_thread ;;
     splx (curspl s) ;;
     ret tt) (set_curspl SPL_HIGH s).
Proof.
  intros Hc Hlock. unfold cv_signal.
  rewrite (not_NULL_eqb c Hc). cbn [negb].
  rewrite (bind_Ok _ _ _ _ _ (assert_true 282 s)).
  rewrite (not_NULL_eqb lock (proj1 Hlock)). cbn [negb].
  rewrite (bind_Ok _ _ _ _ _ (assert_true 283 s)).
  rewrite (bind_Ok _ _ _ _ _ (lock_do_i_hold_mine _ _ Hlock)).
  cbn [Z.eqb negb].
  rewrite (bind_Ok _ _ _ _ _ (assert_true 284 s)).
  reflexivity.
Qed.

Lemma cv_signal_returns c lock x t q' s :
  cv_at c x (t :: q') s -> holds_lock lock s ->
  INT_MIN < cv_count x <= INT_MAX ->
  cv_signal c lock s = Ok tt (cv_signal_post c x t q' s).
Proof.
  intros Hcv Hlock Hrange.
  pose proof (cv_at_distinct _ _ _ _ Hcv) as Hne.
  destruct Hcv as (Hc & Hx & Hqp & Hq).
  rewrite (cv_signal_enters c lock s Hc Hlock).
  erewrite bind_Ok; [|apply upd_cv_Ok; [exact Hc|exact Hx]].
  erewrite bind_Ok; [|apply rd_cv_Ok; [exact Hc|cbn; apply lookup_insert_eq]].
  cbn [with_cv_count cv_thread_queue].
  erewrite bind_Ok;
    [|apply q_remhead_Ok; [exact Hqp|cbn; rewrite lookup_insert_ne by exact Hne; exact Hq]].
  rewrite wrap_int_id by (unfold INT_MIN, INT_MAX in *; lia).
  reflexivity.
Qed.

(** With an empty queue [cv_signal] has lowered the count before it comes to
    the queue. *)
Lemma cv_signal_empty c lock x s :
  cv_at c x [] s -> holds_lock lock s ->
  cv_signal c lock s
  = Fault QueueUnderflow
      (set_heap (<[c:=O_cv (with_cv_count (wrap_int (cv_count x - 1)) x)]> (heap s))
         (set_curspl SPL_HIGH s)).
Proof.
  intros Hcv Hlock.
  pose proof (cv_at_distinct _ _ _ _ Hcv) as Hne.
  destruct Hcv as (Hc & Hx & Hqp & Hq).
  rewrite (cv_signal_enters c lock s Hc Hlock).
  erewrite bind_Ok; [|apply upd_cv_Ok; [exact Hc|exact Hx]].
  erewrite bind_Ok; [|apply rd_cv_Ok; [exact Hc|cbn; apply lookup_insert_eq]].
  cbn [with_cv_count cv_thread_queue].
  erewrite bind_Fault;
    [|apply q_remhead_empty; [exact Hqp|cbn; rewrite lookup_insert_ne by exact Hne; exact Hq]].
  reflexivity.
Qed.

(** C2 at the input where the code leaves it.  In [cv_idle_demo] thread 1
    holds the lock and nobody waits ([cv_count = 0], empty queue).
    [cv_signal] has no test of the count: line 288 lowers it to -1, then
    line 291 asks the empty queue for its head.  With waiters
    ([cv_busy_demo]: threads 2 and 3, 2 first) it does what the claim says:
    count 2 becomes 1, the head 2 leaves the queue and is woken, 3 sleeps
    on. *)
Theorem cv_signal_without_waiters :
  cv_at 16 {| cv_name := 17; cv_count := 0; cv_thread_queue := 19 |} [] cv_idle_demo
  /\ holds_lock 18 cv_idle_demo
  /\ (exists s',
        cv_signal 16 18 cv_idle_demo = Fault QueueUnderflow s'
        /\ heap s' !! 16
           = Some (O_cv {| cv_name := 17; cv_count := -1; cv_thread_queue := 19 |}))
  /\ (exists s',
        cv_signal 16 18 cv_busy_demo = Ok tt s'
        /\ heap s' !! 16
           = Some (O_cv {| cv_name := 17; cv_count := 1; cv_thread_queue := 19 |})
        /\ heap s' !! 19 = Some (O_queue [3])
        /\ threads s' !! 2 = Some (T_woken (K_cv_wait 18 0))
        /\ threads s' !! 3 = Some (T_asleep 3 (K_cv_wait 18 0))
        /\ wakeups s' = [2]).
Proof.
  assert (cv_at 16 {| cv_name := 17; cv_count := 0; cv_thread_queue := 19 |} []
            cv_idle_demo) as Hcv
    by (split; [discriminate|split; [reflexivity|split; [discriminate|reflexivity]]]).
  assert (holds_lock 18 cv_idle_demo) as Hlock
    by (split; [discriminate|eexists; split; reflexivity]).
  split; [exact Hcv|]. split; [exact Hlock|]. split.
  - eexists. split; [exact (cv_signal_empty _ _ _ _ Hcv Hlock)|].
    cbn. apply lookup_insert_eq.
  - exists (cv_signal_post 16 {| cv_name := 17; cv_count := 2; cv_thread_queue := 19 |}
              2 [3] cv_busy_demo).
    split.
    + apply cv_signal_returns.
      * split; [discriminate|split; [reflexivity|split; [discriminate|reflexivity]]].
      * split; [discriminate|eexists; split; reflexivity].
      * cbn. unfold INT_MIN, INT_MAX. lia.
    + repeat split; reflexivity.
Qed.

Lemma cv_broadcast_fuel_enters fuel c lock s :
  c <> NULL -> holds_lock lock s ->
  cv_broadcast_fuel fuel c lock s
  = (r <- cv_broadcast_loop fuel c lock ;;
     match r with
     | None => ret None
     | Some _ =>
         x <- rd_cv c ;;
         assert_ 318 (cv_count x =? 0) ;;
         x <- rd_cv c ;;
         e <- q_empty (cv_thread_queue x) ;;
         assert_ 319 (negb (e =? 0)) ;;
         ret (Some tt)
     end) s.
Proof.
  intros Hc Hlock. unfold cv_broadcast_fuel.
  rewrite (not_NULL_eqb c Hc). cbn [negb].
  rewrite (bind_Ok _ _ _ _ _ (assert_true 305 s)).
  rewrite (not_NULL_eqb lock (proj1 Hlock)). cbn [negb].
  rewrite (bind_Ok _ _ _ _ _ (assert_true 306 s)).
  rewrite (bind_Ok _ _ _ _ _ (lock_do_i_hold_mine _ _ Hlock)).
  cbn [Z.eqb negb].
  rewrite (bind_Ok _ _ _ _ _ (assert_true 307 s)).
  reflexivity.
Qed.

(** Lines 318-319 pass on a condition variable with count 0 and no entry. *)
Lemma cv_broadcast_closing c x s :
  cv_at c x [] s -> cv_count x = 0 ->
  (x <- rd_cv c ;;
   assert_ 318 (cv_count x =? 0) ;;
   x <- rd_cv c ;;
   e <- q_empty (cv_thread_queue x) ;;
   assert_ 319 (negb (e =? 0)) ;;
   ret (Some tt)) s = Ok (Some tt) s.
Proof.
  intros (Hc & Hx & Hqp & Hq) H0.
  rewrite (bind_Ok _ _ _ _ _ (rd_cv_Ok _ _ _ Hc Hx)).
  rewrite H0. cbn [Z.eqb].
  rewrite (bind_Ok _ _ _ _ _ (assert_true 318 s)).
  rewrite (bind_Ok _ _ _ _ _ (rd_cv_Ok _ _ _ Hc Hx)).
  rewrite (bind_Ok _ _ _ _ _ (q_empty_Ok _ _ _ Hqp Hq)).
  reflexivity.
Qed.

(** C10.  [cv_broadcast] on a condition variable with [cv_count = 0] and an
    empty queue, by the holder of the lock, returns and leaves the whole
    state as it was: count, queue, lock, threads and the record of wake-ups.
    Its loop makes no turn (whatever fuel it is given, it ends at the first
    test).  [cv_signal] in the same state is no such no-op. *)
Theorem cv_broadcast_no_waiters c lock x s :
  cv_at c x [] s ->
  holds_lock lock s ->
  cv_count x = 0 ->
  cv_broadcast c lock s = Ok (Some tt) s
  /\ (forall fuel, cv_broadcast_loop (S fuel) c lock s = Ok (Some tt) s)
  /\ signal_times 0 c lock s = Ok tt s
  /\ cv_signal c lock s <> Ok tt s.
Proof.
  intros Hcv Hlock H0.
  assert (forall fuel, cv_broadcast_loop (S fuel) c lock s = Ok (Some tt) s) as Hloop.
  { intros fuel. cbn [cv_broadcast_loop].
    destruct Hcv as (Hc & Hx & _).
    rewrite (bind_Ok _ _ _ _ _ (rd_cv_Ok _ _ _ Hc Hx)).
    rewrite H0. reflexivity. }
  split; [|split; [exact Hloop|split; [reflexivity|]]].
  - unfold cv_broadcast.
    destruct Hcv as (Hc & Hx & Hqp & Hq). rewrite Hx, H0. cbn [Z.to_nat].
    rewrite (cv_broadcast_fuel_enters _ c lock s Hc Hlock).
    rewrite (bind_Ok _ _ _ _ _ (Hloop O)).
    apply (cv_broadcast_closing c x s); [|exact H0].
    repeat split; assumption.
  - rewrite (cv_signal_empty c lock x s Hcv Hlock). discriminate.
Qed.

Lemma cv_broadcast_no_waiters_witness :
  cv_broadcast 16 18 cv_idle_demo = Ok (Some tt) cv_idle_demo.
Proof.
  apply (cv_broadcast_no_waiters 16 18
           {| cv_name := 17; cv_count := 0; cv_thread_queue := 19 |} cv_idle_demo).
  - split; [discriminate|split; [reflexivity|split; [discriminate|reflexivity]]].
  - split; [discriminate|eexists; split; reflexivity].
  - reflexivity.
Defined.

(** *** One signal after the other *)

Lemma cv_signal_post_cv_at c x t q' s :
  cv_at c x (t :: q') s ->
  cv_at c (with_cv_count (cv_count x - 1) x) q' (cv_signal_post c x t q' s).
Proof.
  intros Hcv. pose proof (cv_at_distinct _ _ _ _ Hcv) as Hne.
  destruct Hcv as (Hc & Hx & Hqp & Hq).
  split; [exact Hc|]. split.
  - cbn. rewrite lookup_insert_ne by congruence. apply lookup_insert_eq.
  - split; [exact Hqp|]. cbn. apply lookup_insert_eq.
Qed.

Lemma cv_signal_post_holds_lock c x t q' lock s :
  cv_at c x (t :: q') s -> holds_lock lock s ->
  holds_lock lock (cv_signal_post c x t q' s).
Proof.
  intros Hcv Hlock. destruct (holds_lock_distinct _ _ _ _ _ Hcv Hlock) as [Hn1 Hn2].
  destruct Hlock as (Hp & l & Hl & Hme).
  split; [exact Hp|]. exists l. split; [|exact Hme].
  cbn. rewrite !lookup_insert_ne by congruence. exact Hl.
Qed.

Lemma cv_signal_post_other c x t q' s p :
  p <> c -> p <> cv_thread_queue x ->
  heap (cv_signal_post c x t q' s) !! p = heap s !! p.
Proof.
  intros H1 H2. cbn. rewrite !lookup_insert_ne by congruence. reflexivity.
Qed.

Lemma cv_broadcast_loop_runs c lock q : forall x s fuel,
  cv_at c x q s -> holds_lock lock s ->
  cv_count x = Z.of_nat (length q) -> cv_count x <= INT_MAX ->
  (length q < fuel)%nat ->
  cv_broadcast_loop fuel c lock s = Ok (Some tt) (cv_broadcast_post c x q s)
  /\ signal_times (length q) c lock s = Ok tt (cv_broadcast_post c x q s).
Proof.
  induction q as [|t q' IH]; intros x s fuel Hcv Hlock Hlen Hmax Hfuel.
  - destruct fuel as [|fuel]; [cbn in Hfuel; lia|].
    split; [|reflexivity]. cbn [cv_broadcast_loop cv_broadcast_post].
    destruct Hcv as (Hc & Hx & _).
    rewrite (bind_Ok _ _ _ _ _ (rd_cv_Ok _ _ _ Hc Hx)).
    rewrite Hlen. reflexivity.
  - destruct fuel as [|fuel]; [cbn in Hfuel; lia|].
    cbn [length] in Hlen, Hfuel.
    assert (cv_signal c lock s = Ok tt (cv_signal_post c x t q' s)) as Hsig
      by (apply cv_signal_returns; [exact Hcv|exact Hlock|unfold INT_MIN; lia]).
    destruct (IH (with_cv_count (cv_count x - 1) x) (cv_signal_post c x t q' s) fuel)
      as [IHloop IHtimes].
    + apply cv_signal_post_cv_at. exact Hcv.
    + apply cv_signal_post_holds_lock; assumption.
    + cbn [with_cv_count cv_count]. lia.
    + cbn [with_cv_count cv_count]. lia.
    + lia.
    + cbn [cv_broadcast_loop cv_broadcast_post signal_times length].
      destruct Hcv as (Hc & Hx & _).
      rewrite (bind_Ok _ _ _ _ _ (rd_cv_Ok _ _ _ Hc Hx)).
      replace (0 <? cv_count x) with true by (symmetry; apply Z.ltb_lt; lia).
      rewrite !(bind_Ok _ _ _ _ _ Hsig). auto.
Qed.

(** *** The state after all the signals *)

Lemma with_cv_count_same x : with_cv_count (cv_count x) x = x.
Proof. destruct x. reflexivity. Qed.

Lemma with_cv_count_twice a b x : with_cv_count a (with_cv_count b x) = with_cv_count a x.
Proof. reflexivity. Qed.

Lemma cv_broadcast_post_cv_at c q : forall x s,
  cv_at c x q s ->
  cv_at c (with_cv_count (cv_count x - Z.of_nat (length q)) x) [] (cv_broadcast_post c x q s).
Proof.
  induction q as [|t q' IH]; intros x s Hcv.
  - cbn [length cv_broadcast_post]. rewrite Z.sub_0_r, with_cv_count_same. exact Hcv.
  - cbn [cv_broadcast_post].
    pose proof (IH _ _ (cv_signal_post_cv_at _ _ _ _ _ Hcv)) as H.
    rewrite with_cv_count_twice in H. cbn [cv_count with_cv_count] in H.
    replace (cv_count x - Z.of_nat (length (t :: q')))
      with (cv_count x - 1 - Z.of_nat (length q')) by (cbn [length]; lia).
    exact H.
Qed.

Lemma cv_broadcast_post_other c q p : forall x s,
  p <> c -> p <> cv_thread_queue x ->
  heap (cv_broadcast_post c x q s) !! p = heap s !! p.
Proof.
  induction q as [|t q' IH]; intros x s H1 H2; [reflexivity|].
  cbn [cv_broadcast_post]. rewrite IH by assumption.
  apply cv_signal_post_other; assumption.
Qed.

Lemma cv_broadcast_post_wakeups c q : forall x s,
  wakeups (cv_broadcast_post c x q s) = wakeups s ++ q.
Proof.
  induction q as [|t q' IH]; intros x s.
  - cbn. rewrite app_nil_r. reflexivity.
  - cbn [cv_broadcast_post]. rewrite IH. cbn. rewrite <- app_assoc. reflexivity.
Qed.

Lemma cv_broadcast_post_threads c q : forall x s,
  threads (cv_broadcast_post c x q s) = wake_each q (threads s).
Proof.
  induction q as [|t q' IH]; intros x s; [reflexivity|].
  cbn [cv_broadcast_post]. rewrite IH. reflexivity.
Qed.

Lemma cv_broadcast_post_curspl c q : forall x s,
  curspl (cv_broadcast_post c x q s) = curspl s.
Proof.
  induction q as [|t q' IH]; intros x s; [reflexivity|].
  cbn [cv_broadcast_post]. rewrite IH. reflexivity.
Qed.

Lemma wake_each_woken q : forall th t k,
  th !! t = Some (T_woken k) -> wake_each q th !! t = Some (T_woken k).
Proof.
  induction q as [|t' q' IH]; intros th t k H; [exact H|].
  cbn. apply IH. rewrite lookup_fmap, H. reflexivity.
Qed.

(** A waiter sleeps on its own address ([thread_sleep(curthread)], line 265);
    the signal that takes it off the queue wakes it. *)
Lemma wake_each_asleep q : forall th t k,
  t ∈ q -> th !! t = Some (T_asleep t k) -> wake_each q th !! t = Some (T_woken k).
Proof.
  induction q as [|t' q' IH]; intros th t k Hin H.
  - apply elem_of_nil in Hin. destruct Hin.
  - cbn. destruct (Z.eq_dec t t') as [<-|Hne].
    + apply wake_each_woken. rewrite lookup_fmap, H. cbn. rewrite Z.eqb_refl. reflexivity.
    + apply elem_of_cons in Hin as [->|Hin]; [contradiction|].
      apply IH; [exact Hin|].
      rewrite lookup_fmap, H. cbn.
      replace (t =? t') with false by (symmetry; apply Z.eqb_neq; exact Hne).
      reflexivity.
Qed.

Lemma wake_keeps_awake key ts key' k :
  (forall k0, ts <> T_asleep key' k0) -> wake key ts <> T_asleep key' k.
Proof.
  intros H. destruct ts as [|key0 k0|k0]; cbn; try discriminate.
  destruct (key0 =? key); [discriminate|]. apply H.
Qed.

Lemma wake_each_keeps_awake q : forall th t key,
  (forall k, th !! t <> Some (T_asleep key k)) ->
  forall k, wake_each q th !! t <> Some (T_asleep key k).
Proof.
  induction q as [|t' q' IH]; intros th t key H k; [apply H|].
  cbn. apply IH. intros k0. rewrite lookup_fmap.
  destruct (th !! t) as [ts|] eqn:E; cbn; [|discriminate].
  intros [= Hw]. revert Hw. apply wake_keeps_awake.
  intros k1 ->. exact (H k1 eq_refl).
Qed.

Lemma wake_each_not_asleep q : forall th t k,
  t ∈ q -> wake_each q th !! t <> Some (T_asleep t k).
Proof.
  induction q as [|t' q' IH]; intros th t k Hin.
  - apply elem_of_nil in Hin. destruct Hin.
  - cbn. destruct (Z.eq_dec t t') as [<-|Hne].
    + apply wake_each_keeps_awake. intros k0. rewrite lookup_fmap.
      destruct (th !! t) as [[|key1 k1|k1]|]; cbn; try discriminate.
      destruct (key1 =? t) eqn:E; [discriminate|].
      intros [= -> _]. rewrite Z.eqb_refl in E. discriminate.
    + apply elem_of_cons in Hin as [->|Hin]; [contradiction|].
      apply IH. exact Hin.
Qed.

(** *** The loop of [cv_broadcast] never wants for fuel *)

Lemma cv_signal_inv c lock s s' :
  cv_signal c lock s = Ok tt s' ->
  exists x,
    heap s !! c = Some (O_cv x)
    /\ heap s' !! c = Some (O_cv (with_cv_count (wrap_int (cv_count x - 1)) x)).
Proof.
  unfold cv_signal.
  destruct (c =? NULL) eqn:Ec; cbn [negb];
    [rewrite (bind_Fault _ _ _ _ _ (assert_false 282 s)); discriminate|].
  apply Z.eqb_neq in Ec.
  rewrite (bind_Ok _ _ _ _ _ (assert_true 282 s)).
  destruct (lock =? NULL); cbn [negb];
    [rewrite (bind_Fault _ _ _ _ _ (assert_false 283 s)); discriminate|].
  rewrite (bind_Ok _ _ _ _ _ (assert_true 283 s)).
  destruct (lock_do_i_hold_cases lock s) as [(h & Hh)|Hf];
    [|rewrite (bind_Fault _ _ _ _ _ Hf); discriminate].
  rewrite (bind_Ok _ _ _ _ _ Hh).
  destruct (h =? 0); cbn [negb];
    [rewrite (bind_Fault _ _ _ _ _ (assert_false 284 s)); discriminate|].
  rewrite (bind_Ok _ _ _ _ _ (assert_true 284 s)).
  unfold splhigh. rewrite (bind_Ok _ _ s (curspl s) (set_curspl SPL_HIGH s)) by reflexivity.
  destruct (rd_cv_cases c (set_curspl SPL_HIGH s)) as [(x & Hr & _ & Hx)|Hf].
  2:{ unfold upd_cv. rewrite (bind_Fault _ _ _ _ _ (bind_Fault _ _ _ _ _ Hf)). discriminate. }
  rewrite (bind_Ok _ _ _ _ _ (upd_cv_Ok _ _ _ _ Ec Hx)).
  erewrite bind_Ok; [|apply rd_cv_Ok; [exact Ec|cbn; apply lookup_insert_eq]].
  cbn [with_cv_count cv_thread_queue].
  unfold q_remhead.
  match goal with |- bind _ _ ?st = _ -> _ =>
    destruct (rd_queue_cases (cv_thread_queue x) st) as [(q & Hq & Hqp & Hql)|Hf] end.
  2:{ rewrite (bind_Fault _ _ _ _ _ (bind_Fault _ _ _ _ _ Hf)). discriminate. }
  destruct q as [|t q'].
  - rewrite (bind_Fault _ _ _ QueueUnderflow _ (bind_Ok _ _ _ _ _ Hq)). discriminate.
  - erewrite bind_Ok; [|rewrite (bind_Ok _ _ _ _ _ Hq); reflexivity].
    cbn. intros [= <-]. exists x. split; [exact Hx|]. cbn.
    cbn in Hql.
    assert (cv_thread_queue x <> c) as Hne.
    { intros E. rewrite E, lookup_insert_eq in Hql. discriminate. }
    rewrite lookup_insert_ne by exact Hne. apply lookup_insert_eq.
Qed.

Lemma cv_broadcast_loop_fuel fuel : forall c lock s x s',
  heap s !! c = Some (O_cv x) ->
  (Z.to_nat (cv_count x) < fuel)%nat ->
  cv_broadcast_loop fuel c lock s <> Ok None s'.
Proof.
  induction fuel as [|fuel IH]; intros c lock s x s' Hx Hfuel; [lia|].
  cbn [cv_broadcast_loop].
  destruct (rd_cv_cases c s) as [(x0 & Hr & _ & Hx0)|Hf];
    [|rewrite (bind_Fault _ _ _ _ _ Hf); discriminate].
  rewrite (bind_Ok _ _ _ _ _ Hr).
  assert (x0 = x) as -> by congruence.
  destruct (0 <? cv_count x) eqn:Epos; [|discriminate].
  apply Z.ltb_lt in Epos.
  destruct (cv_signal c lock s) as [[] s1|key k s1|f s1] eqn:Hsig.
  - rewrite (bind_Ok _ _ _ _ _ Hsig).
    destruct (cv_signal_inv _ _ _ _ Hsig) as (x1 & Hx1 & Hx1').
    assert (x1 = x) as -> by congruence.
    apply (IH c lock s1 _ s' Hx1'). cbn [with_cv_count cv_count].
    destruct (wrap_int_pred_le (cv_count x) Epos) as [[H0 H1]|Hneg]; lia.
  - unfold bind. rewrite Hsig. discriminate.
  - rewrite (bind_Fault _ _ _ _ _ Hsig). discriminate.
Qed.

Lemma cv_broadcast_fuel_on_return fuel c lock s r s' :
  cv_broadcast_fuel fuel c lock s = Ok r s' ->
  (forall s1, cv_broadcast_loop fuel c lock s <> Ok None s1) ->
  r = Some tt
  /\ exists x', heap s' !! c = Some (O_cv x') /\ cv_count x' = 0
                /\ heap s' !! cv_thread_queue x' = Some (O_queue []).
Proof.
  unfold cv_broadcast_fuel. intros H Hfuel. revert H.
  destruct (c =? NULL) eqn:Ec; cbn [negb];
    [rewrite (bind_Fault _ _ _ _ _ (assert_false 305 s)); discriminate|].
  rewrite (bind_Ok _ _ _ _ _ (assert_true 305 s)).
  destruct (lock =? NULL); cbn [negb];
    [rewrite (bind_Fault _ _ _ _ _ (assert_false 306 s)); discriminate|].
  rewrite (bind_Ok _ _ _ _ _ (assert_true 306 s)).
  destruct (lock_do_i_hold_cases lock s) as [(h & Hh)|Hf];
    [|rewrite (bind_Fault _ _ _ _ _ Hf); discriminate].
  rewrite (bind_Ok _ _ _ _ _ Hh).
  destruct (h =? 0); cbn [negb];
    [rewrite (bind_Fault _ _ _ _ _ (assert_false 307 s)); discriminate|].
  rewrite (bind_Ok _ _ _ _ _ (assert_true 307 s)).
  destruct (cv_broadcast_loop fuel c lock s) as [[[]|] s1|key k s1|f s1] eqn:Hloop.
  - rewrite (bind_Ok _ _ _ _ _ Hloop).
    destruct (rd_cv_cases c s1) as [(x' & Hr & _ & Hx')|Hf];
      [|rewrite (bind_Fault _ _ _ _ _ Hf); discriminate].
    rewrite (bind_Ok _ _ _ _ _ Hr).
    destruct (cv_count x' =? 0) eqn:E0;
      [|rewrite (bind_Fault _ _ _ _ _ (assert_false 318 s1)); discriminate].
    apply Z.eqb_eq in E0.
    rewrite (bind_Ok _ _ _ _ _ (assert_true 318 s1)).
    rewrite (bind_Ok _ _ _ _ _ Hr).
    unfold q_empty.
    destruct (rd_queue_cases (cv_thread_queue x') s1) as [(q & Hq & _ & Hql)|Hf];
      [|rewrite (bind_Fault _ _ _ _ _ (bind_Fault _ _ _ _ _ Hf)); discriminate].
    erewrite bind_Ok; [|rewrite (bind_Ok _ _ _ _ _ Hq); reflexivity].
    destruct q as [|t q']; cbn.
    + intros [= <- <-]. split; [reflexivity|]. exists x'. auto.
    + discriminate.
  - destruct (Hfuel s1). reflexivity.
  - unfold bind. rewrite Hloop. discriminate.
  - rewrite (bind_Fault _ _ _ _ _ Hloop). discriminate.
Qed.

(** Whenever [cv_broadcast] returns, its loop has run to its end, the count
    is 0 and the queue has no entry (lines 318-319). *)
Lemma cv_broadcast_on_return c lock s r s' :
  cv_broadcast c lock s = Ok r s' ->
  r = Some tt
  /\ exists x', heap s' !! c = Some (O_cv x') /\ cv_count x' = 0
                /\ heap s' !! cv_thread_queue x' = Some (O_queue []).
Proof.
  unfold cv_broadcast. intros H.
  apply (cv_broadcast_fuel_on_return _ _ _ _ _ _ H).
  intros s1.
  destruct (heap s !! c) as [o|] eqn:Ho.
  - destruct o as [| | | |x|];
      try (cbn [cv_broadcast_loop];
           destruct (rd_cv_cases c s) as [(x0 & _ & _ & Hx0)|Hf];
           [congruence|rewrite (bind_Fault _ _ _ _ _ Hf); discriminate]).
    apply (cv_broadcast_loop_fuel _ c lock s x s1 Ho). lia.
  - cbn [cv_broadcast_loop].
    destruct (rd_cv_cases c s) as [(x0 & _ & _ & Hx0)|Hf];
      [congruence|rewrite (bind_Fault _ _ _ _ _ Hf); discriminate].
Qed.

(** C9.  Whenever [cv_broadcast] returns, the count is 0 and the queue is
    empty.  Called by the holder of the lock on a condition variable whose
    count is the length of its queue [q], it does return, and the state it
    leaves is the one that [length q] calls of [cv_signal] in a row leave:
    count 0, empty queue, one wake-up for each entry of [q] in the order
    of the queue (head first), every waiter of [q] that slept on its own
    address runnable again, nothing else in memory changed. *)
Theorem cv_broadcast_signals_until_empty c lock x q s :
  (forall r s',
     cv_broadcast c lock s = Ok r s' ->
     r = Some tt
     /\ exists x', heap s' !! c = Some (O_cv x') /\ cv_count x' = 0
                   /\ heap s' !! cv_thread_queue x' = Some (O_queue []))
  /\ (cv_at c x q s ->
      holds_lock lock s ->
      cv_count x = Z.of_nat (length q) ->
      cv_count x <= INT_MAX ->
      exists s',
        cv_broadcast c lock s = Ok (Some tt) s'
        /\ signal_times (length q) c lock s = Ok tt s'
        /\ heap s' !! c = Some (O_cv (with_cv_count 0 x))
        /\ heap s' !! cv_thread_queue x = Some (O_queue [])
        /\ wakeups s' = wakeups s ++ q
        /\ threads s' = wake_each q (threads s)
        /\ (forall t k, t ∈ q -> threads s !! t = Some (T_asleep t k) ->
                        threads s' !! t = Some (T_woken k))
        /\ (forall t k, t ∈ q -> threads s' !! t <> Some (T_asleep t k))
        /\ (forall p, p <> c -> p <> cv_thread_queue x -> heap s' !! p = heap s !! p)
        /\ curspl s' = curspl s).
Proof.
  split; [intros r s'; apply cv_broadcast_on_return|].
  intros Hcv Hlock Hlen Hmax.
  exists (cv_broadcast_post c x q s).
  destruct (cv_broadcast_loop_runs c lock q x s (S (Z.to_nat (cv_count x)))
              Hcv Hlock Hlen Hmax) as [Hloop Htimes]; [lia|].
  pose proof (cv_broadcast_post_cv_at c q x s Hcv) as Hpost.
  rewrite Hlen, Z.sub_diag in Hpost.
  split.
  { unfold cv_broadcast. rewrite (proj1 (proj2 Hcv)).
    rewrite (cv_broadcast_fuel_enters _ c lock s (proj1 Hcv) Hlock).
    rewrite (bind_Ok _ _ _ _ _ Hloop).
    apply (cv_broadcast_closing c _ _ Hpost). reflexivity. }
  split; [exact Htimes|].
  destruct Hpost as (_ & Hx' & _ & Hq').
  split; [exact Hx'|]. split; [exact Hq'|].
  split; [apply cv_broadcast_post_wakeups|].
  split; [apply cv_broadcast_post_threads|].
  split.
  { intros t k Hin Ht. rewrite cv_broadcast_post_threads.
    apply wake_each_asleep; assumption. }
  split.
  { intros t k Hin. rewrite cv_broadcast_post_threads.
    apply wake_each_not_asleep. exact Hin. }
  split; [intros p H1 H2; apply cv_broadcast_post_other; assumption|].
  apply cv_broadcast_post_curspl.
Qed.

Lemma cv_broadcast_signals_until_empty_witness :
  exists s',
    cv_broadcast 16 18 cv_busy_demo = Ok (Some tt) s'
    /\ heap s' !! 16
       = Some (O_cv {| cv_name := 17; cv_count := 0; cv_thread_queue := 19 |})
    /\ heap s' !! 19 = Some (O_queue [])
    /\ wakeups s' = [2; 3]
    /\ threads s' !! 2 = Some (T_woken (K_cv_wait 18 0))
    /\ threads s' !! 3 = Some (T_woken (K_cv_wait 18 0)).
Proof.
  destruct (cv_broadcast_signals_until_empty 16 18
              {| cv_name := 17; cv_count := 2; cv_thread_queue := 19 |}
              [2; 3] cv_busy_demo) as [_ H].
  destruct H as (s' & Hb & _ & Hc & Hq & Hw & _ & Hwoken & _).
  - split; [discriminate|split; [reflexivity|split; [discriminate|reflexivity]]].
  - split; [discriminate|eexists; split; reflexivity].
  - reflexivity.
  - cbn. unfold INT_MAX. lia.
  - exists s'. split; [exact Hb|]. split; [exact Hc|]. split; [exact Hq|].
    split; [exact Hw|]. split.
    + apply Hwoken; [|reflexivity]. apply elem_of_cons. left. reflexivity.
    + apply Hwoken; [|reflexivity]. apply elem_of_cons. right.
      apply elem_of_cons. left. reflexivity.
Defined.

(** * More of synch.c *)

(** ** Allocation *)

Lemma kmalloc_fails s : kmem s = O -> kmalloc s = Ok NULL s.
Proof. intros H. unfold kmalloc. rewrite H. reflexivity. Qed.

Lemma kmalloc_gives s m :
  kmem s = S m ->
  kmalloc s
  = Ok (Z.pos (brk s))
      (set_alloc (Pos.succ (brk s)) m
         (set_heap (<[Z.pos (brk s):=O_raw]> (heap s)) s)).
Proof. intros H. unfold kmalloc. rewrite H. reflexivity. Qed.

Lemma kstrdup_fails str s : kmem s = O -> kstrdup str s = Ok NULL s.
Proof.
  intros H. unfold kstrdup. rewrite (bind_Ok _ _ _ _ _ (kmalloc_fails s H)).
  reflexivity.
Qed.

Lemma kstrdup_gives str s m :
  kmem s = S m ->
  kstrdup str s
  = Ok (Z.pos (brk s))
      (set_alloc (Pos.succ (brk s)) m
         (set_heap (<[Z.pos (brk s):=O_str str]> (heap s)) s)).
Proof.
  intros H. unfold kstrdup. rewrite (bind_Ok _ _ _ _ _ (kmalloc_gives s m H)).
  cbn. rewrite insert_insert_eq. reflexivity.
Qed.

Lemma delete_insert_fresh (h : gmap Z object) p o :
  h !! p = None -> delete p (<[p:=o]> h) = h.
Proof. intros H. rewrite delete_insert_eq. apply delete_id. exact H. Qed.

Lemma sem_create_NULL_heap namearg n s s' :
  heap s !! Z.pos (brk s) = None ->
  sem_create namearg n s = Ok NULL s' ->
  heap s' = heap s.
Proof.
  intros Hfresh. unfold sem_create.
  destruct (0 <=? n); [|discriminate].
  rewrite (bind_Ok _ _ _ _ _ (assert_true 23 s)).
  destruct (kmem s) as [|[|m]] eqn:Hm.
  - rewrite (bind_Ok _ _ _ _ _ (kmalloc_fails s Hm)). cbn. intros [= <-]. reflexivity.
  - rewrite (bind_Ok _ _ _ _ _ (kmalloc_gives s _ Hm)). cbn [Z.eqb NULL].
    erewrite bind_Ok; [|apply kstrdup_fails; reflexivity].
    cbn. intros [= <-]. cbn. apply delete_insert_fresh. exact Hfresh.
  - rewrite (bind_Ok _ _ _ _ _ (kmalloc_gives s _ Hm)). cbn [Z.eqb NULL].
    erewrite bind_Ok; [|eapply kstrdup_gives; reflexivity].
    cbn. discriminate.
Qed.

Lemma lock_create_NULL_heap name s s' :
  heap s !! Z.pos (brk s) = None ->
  lock_create name s = Ok NULL s' ->
  heap s' = heap s.
Proof.
  intros Hfresh. unfold lock_create.
  destruct (kmem s) as [|[|m]] eqn:Hm.
  - rewrite (bind_Ok _ _ _ _ _ (kmalloc_fails s Hm)). cbn. intros [= <-]. reflexivity.
  - rewrite (bind_Ok _ _ _ _ _ (kmalloc_gives s _ Hm)). cbn [Z.eqb NULL].
    erewrite bind_Ok; [|apply kstrdup_fails; reflexivity].
    cbn. intros [= <-]. cbn. apply delete_insert_fresh. exact Hfresh.
  - rewrite (bind_Ok _ _ _ _ _ (kmalloc_gives s _ Hm)). cbn [Z.eqb NULL].
    erewrite bind_Ok; [|eapply kstrdup_gives; reflexivity].
    cbn. discriminate.
Qed.

Lemma cv_create_NULL_heap name s s' :
  heap s !! Z.pos (brk s) = None ->
  cv_create name s = Ok NULL s' ->
  heap s' = heap s.
Proof.
  intros Hfresh. unfold cv_create.
  destruct (kmem s) as [|[|m]] eqn:Hm.
  - rewrite (bind_Ok _ _ _ _ _ (kmalloc_fails s Hm)). cbn. intros [= <-]. reflexivity.
  - rewrite (bind_Ok _ _ _ _ _ (kmalloc_gives s _ Hm)). cbn [Z.eqb NULL].
    erewrite bind_Ok; [|apply kstrdup_fails; reflexivity].
    cbn. intros [= <-]. cbn. apply delete_insert_fresh. exact Hfresh.
  - rewrite (bind_Ok _ _ _ _ _ (kmalloc_gives s _ Hm)). cbn [Z.eqb NULL].
    erewrite bind_Ok; [|eapply kstrdup_gives; reflexivity].
    cbn [Z.eqb NULL]. unfold q_create.
    destruct m as [|m].
    + erewrite bind_Ok;
        [|erewrite bind_Ok; [|apply kmalloc_fails; reflexivity]; reflexivity].
      cbn. discriminate.
    + erewrite bind_Ok;
        [|erewrite bind_Ok; [|eapply kmalloc_gives; reflexivity]; reflexivity].
      cbn. discriminate.
Qed.

(** X1.  A create that fails gives back what it took.  When [sem_create],
    [lock_create] or [cv_create] returns [NULL] (the structure or its name
    could not be allocated), the heap is what it was before the call: the
    structure allocated first is freed when the name cannot be
    (lines 31-34, 114-117, 207-210). *)
Theorem create_failure_leaks_nothing namearg n s s' :
  heap s !! Z.pos (brk s) = None ->
  (sem_create namearg n s = Ok NULL s' -> heap s' = heap s)
  /\ (lock_create namearg s = Ok NULL s' -> heap s' = heap s)
  /\ (cv_create namearg s = Ok NULL s' -> heap s' = heap s).
Proof.
  intros Hfresh. split; [|split].
  - apply sem_create_NULL_heap. exact Hfresh.
  - apply lock_create_NULL_heap. exact Hfresh.
  - apply cv_create_NULL_heap. exact Hfresh.
Qed.

Lemma create_failure_leaks_nothing_witness :
  exists s',
    sem_create "sem" 3 (set_alloc 16 1 boot) = Ok NULL s'
    /\ kmem s' = O
    /\ heap s' = heap (set_alloc 16 1 boot).
Proof.
  eexists. split; [reflexivity|]. split; [reflexivity|].
  refine (proj1 (create_failure_leaks_nothing "sem" 3 (set_alloc 16 1 boot) _ _) _);
    reflexivity.
Defined.

(** X2.  [cv_create] does not look at what [q_create] returns (line 216).
    When memory lasts for the structure and its name but not for the queue,
    it returns a condition variable whose [thread_queue] is [NULL]; with it
    [cv_destroy] ends in a memory fault, and so does [cv_signal] by a holder
    of the lock, after it has lowered the count. *)
Theorem cv_create_unchecked_queue name s :
  kmem s = 2%nat ->
  exists s',
    cv_create name s = Ok (Z.pos (brk s)) s'
    /\ heap s' !! Z.pos (brk s)
       = Some (O_cv {| cv_name := Z.pos (Pos.succ (brk s)); cv_count := 0;
                       cv_thread_queue := NULL |})
    /\ cv_destroy (Z.pos (brk s)) s' = Fault MemFault s'
    /\ forall lock, holds_lock lock s' ->
         exists s'', cv_signal (Z.pos (brk s)) lock s' = Fault MemFault s''
                     /\ heap s'' !! Z.pos (brk s)
                        = Some (O_cv {| cv_name := Z.pos (Pos.succ (brk s));
                                        cv_count := -1; cv_thread_queue := NULL |}).
Proof.
  intros Hm.
  assert (Z.pos (brk s) <> NULL) as Hc by discriminate.
  eexists. split.
  { unfold cv_create.
    rewrite (bind_Ok _ _ _ _ _ (kmalloc_gives s _ Hm)). cbn [Z.eqb NULL].
    erewrite bind_Ok; [|eapply kstrdup_gives; reflexivity].
    cbn [Z.eqb NULL]. unfold q_create.
    erewrite bind_Ok;
      [|erewrite bind_Ok; [|apply kmalloc_fails; reflexivity]; reflexivity].
    reflexivity. }
  split; [cbn; apply lookup_insert_eq|].
  split.
  - unfold cv_destroy. rewrite (not_NULL_eqb _ Hc). cbn [negb].
    erewrite bind_Ok; [|reflexivity].
    erewrite bind_Ok; [|apply rd_cv_Ok; [exact Hc|cbn; apply lookup_insert_eq]].
    cbn [cv_count cv_thread_queue Z.eqb].
    erewrite bind_Ok; [|reflexivity].
    reflexivity.
  - intros lock Hlock. eexists. split.
    + rewrite (cv_signal_enters _ lock _ Hc Hlock).
      erewrite bind_Ok; [|apply upd_cv_Ok; [exact Hc|cbn; apply lookup_insert_eq]].
      erewrite bind_Ok; [|apply rd_cv_Ok; [exact Hc|cbn; apply lookup_insert_eq]].
      cbn [with_cv_count cv_thread_queue].
      reflexivity.
    + cbn. apply lookup_insert_eq.
Qed.

Lemma cv_create_unchecked_queue_witness :
  exists s',
    cv_create "cv" (set_alloc 16 2 boot) = Ok 16 s'
    /\ cv_destroy 16 s' = Fault MemFault s'.
Proof.
  destruct (cv_create_unchecked_queue "cv" (set_alloc 16 2 boot) eq_refl)
    as (s' & Hc & _ & Hd & _).
  exists s'. split; [exact Hc|exact Hd].
Defined.

(** ** Create, then destroy *)

Ltac heap_lookup :=
  repeat first
    [ rewrite lookup_delete_eq
    | rewrite lookup_insert_eq
    | rewrite lookup_delete_ne by congruence
    | rewrite lookup_insert_ne by congruence ].

Lemma heap_round_trip2 (h : gmap Z object) c nm o1 o2 o3 :
  h !! c = None -> h !! nm = None ->
  delete c (delete nm (<[c:=o3]> (<[nm:=o2]> (<[c:=o1]> h)))) = h.
Proof.
  intros Hc Hn. apply map_eq. intros i.
  destruct (decide (i = c)) as [->|Hic]; [heap_lookup; congruence|].
  destruct (decide (i = nm)) as [->|Hin]; heap_lookup; congruence.
Qed.

Lemma heap_round_trip3 (h : gmap Z object) c nm q o1 o2 o3 o4 o5 :
  h !! c = None -> h !! nm = None -> h !! q = None ->
  delete c (delete nm (delete q
    (<[c:=o5]> (<[q:=o4]> (<[q:=o3]> (<[nm:=o2]> (<[c:=o1]> h))))))) = h.
Proof.
  intros Hc Hn Hq. apply map_eq. intros i.
  destruct (decide (i = c)) as [->|Hic]; [heap_lookup; congruence|].
  destruct (decide (i = nm)) as [->|Hin]; [heap_lookup; congruence|].
  destruct (decide (i = q)) as [->|Hiq]; heap_lookup; congruence.
Qed.

Lemma thread_hassleepers_some key s t k :
  threads s !! t = Some (T_asleep key k) ->
  thread_hassleepers key s = Ok 1 s.
Proof.
  intros H. unfold thread_hassleepers, get.
  rewrite bool_decide_eq_false_2; [reflexivity|].
  intros Hall. specialize (Hall t _ H). cbn in Hall.
  rewrite Z.eqb_refl in Hall. discriminate.
Qed.

Lemma sem_create_gives namearg n s m :
  0 <= n -> kmem s = S (S m) ->
  sem_create namearg n s
  = Ok (Z.pos (brk s))
      (set_alloc (Pos.succ (Pos.succ (brk s))) m
         (set_heap
            (<[Z.pos (brk s):=O_sem {| sem_name := Z.pos (Pos.succ (brk s));
                                       sem_count := n |}]>
               (<[Z.pos (Pos.succ (brk s)):=O_str namearg]>
                  (<[Z.pos (brk s):=O_raw]> (heap s)))) s)).
Proof.
  intros Hn Hm. unfold sem_create.
  replace (0 <=? n) with true by (symmetry; apply Z.leb_le; exact Hn).
  rewrite (bind_Ok _ _ _ _ _ (assert_true 23 s)).
  rewrite (bind_Ok _ _ _ _ _ (kmalloc_gives s _ Hm)). cbn [Z.eqb NULL].
  erewrite bind_Ok; [|eapply kstrdup_gives; reflexivity].
  reflexivity.
Qed.

Lemma lock_create_gives name s m :
  kmem s = S (S m) ->
  lock_create name s
  = Ok (Z.pos (brk s))
      (set_alloc (Pos.succ (Pos.succ (brk s))) m
         (set_heap
            (<[Z.pos (brk s):=O_lock {| lock_name := Z.pos (Pos.succ (brk s));
                                        lock_occupied := 0; lock_holder := NULL |}]>
               (<[Z.pos (Pos.succ (brk s)):=O_str name]>
                  (<[Z.pos (brk s):=O_raw]> (heap s)))) s)).
Proof.
  intros Hm. unfold lock_create.
  rewrite (bind_Ok _ _ _ _ _ (kmalloc_gives s _ Hm)). cbn [Z.eqb NULL].
  erewrite bind_Ok; [|eapply kstrdup_gives; reflexivity].
  reflexivity.
Qed.

Lemma cv_create_gives name s m :
  kmem s = S (S (S m)) ->
  cv_create name s
  = Ok (Z.pos (brk s))
      (set_alloc (Pos.succ (Pos.succ (Pos.succ (brk s)))) m
         (set_heap
            (<[Z.pos (brk s):=O_cv {| cv_name := Z.pos (Pos.succ (brk s));
                                      cv_count := 0;
                                      cv_thread_queue :=
                                        Z.pos (Pos.succ (Pos.succ (brk s))) |}]>
               (<[Z.pos (Pos.succ (Pos.succ (brk s))):=O_queue []]>
                  (<[Z.pos (Pos.succ (Pos.succ (brk s))):=O_raw]>
                     (<[Z.pos (Pos.succ (brk s)):=O_str name]>
                        (<[Z.pos (brk s):=O_raw]> (heap s)))))) s)).
Proof.
  intros Hm. unfold cv_create.
  rewrite (bind_Ok _ _ _ _ _ (kmalloc_gives s _ Hm)). cbn [Z.eqb NULL].
  erewrite bind_Ok; [|eapply kstrdup_gives; reflexivity].
  cbn [Z.eqb NULL]. unfold q_create.
  erewrite bind_Ok;
    [|erewrite bind_Ok; [|eapply kmalloc_gives; reflexivity]; reflexivity].
  reflexivity.
Qed.

Lemma sem_destroy_frees sem x s :
  sem <> NULL -> heap s !! sem = Some (O_sem x) -> no_sleeper sem s ->
  sem_destroy sem s
  = Ok tt (set_heap (delete sem (delete (sem_name x) (heap s))) s).
Proof.
  intros Hp Hl Hno. unfold sem_destroy.
  rewrite (not_NULL_eqb sem Hp). cbn [negb].
  rewrite (bind_Ok _ _ _ _ _ (assert_true 44 s)).
  unfold splhigh. rewrite (bind_Ok _ _ s (curspl s) (set_curspl SPL_HIGH s)) by reflexivity.
  erewrite bind_Ok; [|apply thread_hassleepers_none; exact Hno].
  cbn [Z.eqb].
  erewrite bind_Ok; [|reflexivity].
  erewrite bind_Ok; [|reflexivity].
  erewrite bind_Ok; [|apply rd_sem_Ok; [exact Hp|exact Hl]].
  reflexivity.
Qed.

Lemma sem_destroy_asserts sem s t k :
  sem <> NULL -> threads s !! t = Some (T_asleep sem k) ->
  sem_destroy sem s = Fault (AssertFail 47) (set_curspl SPL_HIGH s).
Proof.
  intros Hp Ht. unfold sem_destroy.
  rewrite (not_NULL_eqb sem Hp). cbn [negb].
  rewrite (bind_Ok _ _ _ _ _ (assert_true 44 s)).
  unfold splhigh. rewrite (bind_Ok _ _ s (curspl s) (set_curspl SPL_HIGH s)) by reflexivity.
  erewrite bind_Ok; [|apply (thread_hassleepers_some sem _ t k); exact Ht].
  reflexivity.
Qed.

(** X3.  [sem_destroy] frees a semaphore only when nobody sleeps on it.  If
    some thread sleeps on the semaphore, the assertion of line 47 stops the
    kernel with nothing freed (and interrupts still masked); if none does,
    the name and the semaphore are freed and the interrupt level is the
    caller's again. *)
Theorem sem_destroy_only_without_sleepers sem x s :
  sem <> NULL ->
  heap s !! sem = Some (O_sem x) ->
  (forall t k, threads s !! t = Some (T_asleep sem k) ->
     sem_destroy sem s = Fault (AssertFail 47) (set_curspl SPL_HIGH s)
     /\ heap (set_curspl SPL_HIGH s) = heap s)
  /\ (no_sleeper sem s ->
      exists s',
        sem_destroy sem s = Ok tt s'
        /\ heap s' = delete sem (delete (sem_name x) (heap s))
        /\ heap s' !! sem = None
        /\ curspl s' = curspl s
        /\ threads s' = threads s).
Proof.
  intros Hp Hl. split.
  - intros t k Ht. split; [|reflexivity]. exact (sem_destroy_asserts sem s t k Hp Ht).
  - intros Hno. eexists. split; [apply sem_destroy_frees; eassumption|].
    split; [reflexivity|]. split; [cbn; apply lookup_delete_eq|].
    split; reflexivity.
Qed.

Lemma sem_destroy_only_without_sleepers_witness :
  sem_destroy 16 sem_demo = Fault (AssertFail 47) (set_curspl SPL_HIGH sem_demo)
  /\ exists s', sem_destroy 16 (set_threads ∅ sem_demo) = Ok tt s'
                /\ heap s' !! 16 = None.
Proof.
  split.
  - destruct (sem_destroy_only_without_sleepers 16
                {| sem_name := 17; sem_count := 0 |} sem_demo) as [H _].
    + discriminate.
    + reflexivity.
    + exact (proj1 (H 2 (K_P 16 0) eq_refl)).
  - destruct (sem_destroy_only_without_sleepers 16
                {| sem_name := 17; sem_count := 0 |} (set_threads ∅ sem_demo))
      as [_ H].
    + discriminate.
    + reflexivity.
    + destruct H as (s' & Hd & _ & Hn & _).
      * intros t k. cbn. rewrite lookup_empty. discriminate.
      * exists s'. split; [exact Hd|exact Hn].
Defined.

Lemma cv_destroy_frees c x s :
  cv_at c x [] s -> cv_count x = 0 ->
  cv_destroy c s
  = Ok tt (set_heap
             (delete c (delete (cv_name x) (delete (cv_thread_queue x) (heap s)))) s).
Proof.
  intros Hcv H0. pose proof (cv_at_distinct _ _ _ _ Hcv) as Hne.
  destruct Hcv as (Hc & Hx & Hqp & Hq).
  unfold cv_destroy.
  rewrite (not_NULL_eqb c Hc). cbn [negb].
  rewrite (bind_Ok _ _ _ _ _ (assert_true 224 s)).
  rewrite (bind_Ok _ _ _ _ _ (rd_cv_Ok _ _ _ Hc Hx)).
  rewrite H0. cbn [Z.eqb].
  rewrite (bind_Ok _ _ _ _ _ (assert_true 227 s)).
  rewrite (bind_Ok _ _ _ _ _ (q_empty_Ok _ _ _ Hqp Hq)).
  cbn [bool_decide decide_rel of_bool Z.eqb negb].
  erewrite bind_Ok; [|reflexivity].
  unfold q_destroy.
  erewrite bind_Ok;
    [|erewrite bind_Ok; [|apply rd_queue_Ok; [exact Hqp|exact Hq]]; reflexivity].
  erewrite bind_Ok;
    [|apply rd_cv_Ok; [exact Hc|cbn; rewrite lookup_delete_ne by congruence; exact Hx]].
  reflexivity.
Qed.

(** X4.  [cv_destroy] frees a condition variable only when it is idle.  A
    count other than 0 stops at the assertion of line 227, a queue with an
    entry at that of line 228, in both cases with the state untouched; with
    count 0 and an empty queue the queue, the name and the structure are
    freed. *)
Theorem cv_destroy_only_when_idle c x q s :
  cv_at c x q s ->
  (cv_count x <> 0 -> cv_destroy c s = Fault (AssertFail 227) s)
  /\ (cv_count x = 0 -> q <> [] -> cv_destroy c s = Fault (AssertFail 228) s)
  /\ (cv_count x = 0 -> q = [] ->
      exists s',
        cv_destroy c s = Ok tt s'
        /\ heap s' = delete c (delete (cv_name x) (delete (cv_thread_queue x) (heap s)))
        /\ heap s' !! c = None
        /\ heap s' !! cv_thread_queue x = None).
Proof.
  intros Hcv. pose proof (cv_at_distinct _ _ _ _ Hcv) as Hne.
  pose proof Hcv as (Hc & Hx & Hqp & Hq).
  assert (forall b, cv_destroy c s
                    = (assert_ 227 b ;;
                       e <- q_empty (cv_thread_queue x) ;;
                       assert_ 228 (negb (e =? 0)) ;;
                       q_destroy (cv_thread_queue x) ;;
                       x <- rd_cv c ;;
                       kfree (cv_name x) ;;
                       kfree c) s
                    \/ b <> (cv_count x =? 0)) as Henter.
  { intros b. destruct (bool_decide (b = (cv_count x =? 0))) eqn:E.
    - apply bool_decide_eq_true in E. subst b. left.
      unfold cv_destroy. rewrite (not_NULL_eqb c Hc). cbn [negb].
      rewrite (bind_Ok _ _ _ _ _ (assert_true 224 s)).
      rewrite (bind_Ok _ _ _ _ _ (rd_cv_Ok _ _ _ Hc Hx)). reflexivity.
    - apply bool_decide_eq_false in E. right. exact E. }
  split; [|split].
  - intros Hn.
    destruct (Henter false) as [->|Hb]; [reflexivity|].
    destruct Hb. symmetry. apply Z.eqb_neq. exact Hn.
  - intros H0 Hq'.
    destruct (Henter true) as [->|Hb]; [|destruct Hb; symmetry; apply Z.eqb_eq; exact H0].
    rewrite (bind_Ok _ _ _ _ _ (assert_true 227 s)).
    rewrite (bind_Ok _ _ _ _ _ (q_empty_Ok _ _ _ Hqp Hq)).
    destruct q as [|t q']; [destruct Hq'; reflexivity|]. reflexivity.
  - intros H0 ->. eexists. split; [apply cv_destroy_frees; [exact Hcv|exact H0]|].
    split; [reflexivity|]. split; [cbn; apply lookup_delete_eq|].
    cbn. rewrite !lookup_delete. repeat case_decide; congruence.
Qed.

Lemma cv_destroy_only_when_idle_witness :
  cv_destroy 16 cv_busy_demo = Fault (AssertFail 227) cv_busy_demo
  /\ exists s', cv_destroy 16 cv_idle_demo = Ok tt s' /\ heap s' !! 16 = None.
Proof.
  split.
  - refine (proj1 (cv_destroy_only_when_idle 16
                     {| cv_name := 17; cv_count := 2; cv_thread_queue := 19 |}
                     [2; 3] cv_busy_demo _) _).
    + split; [discriminate|split; [reflexivity|split; [discriminate|reflexivity]]].
    + discriminate.
  - destruct (cv_destroy_only_when_idle 16
                {| cv_name := 17; cv_count := 0; cv_thread_queue := 19 |}
                [] cv_idle_demo) as (_ & _ & H).
    + split; [discriminate|split; [reflexivity|split; [discriminate|reflexivity]]].
    + destruct (H eq_refl eq_refl) as (s' & Hd & _ & Hn & _).
      exists s'. split; [exact Hd|exact Hn].
Defined.

Lemma lock_destroy_returns lock l s :
  lock <> NULL -> heap s !! lock = Some (O_lock l) ->
  lock_destroy lock s
  = Ok tt (set_heap (delete lock (delete (lock_name l) (heap s))) s).
Proof.
  intros Hp Hl. unfold lock_destroy.
  rewrite (not_NULL_eqb lock Hp). cbn [negb].
  rewrite (bind_Ok _ _ _ _ _ (assert_true 128 s)).
  rewrite (bind_Ok _ _ _ _ _ (rd_lock_Ok _ _ _ Hp Hl)).
  reflexivity.
Qed.

(** X5.  Create, then destroy, and memory is as before.  In a state with
    room for three allocations at unused addresses, each of the three
    creators returns a handle that is not null, the matching destroy
    accepts it at once (for the semaphore: provided no thread sleeps on
    the new address), and afterwards the heap, the threads and the
    interrupt level are what they were before the create. *)
Theorem create_destroy_round_trip name n s m :
  kmem s = S (S (S m)) ->
  fresh_from (brk s) 3 (heap s) ->
  0 <= n ->
  no_sleeper (Z.pos (brk s)) s ->
  (exists sem s1 s2,
     sem_create name n s = Ok sem s1 /\ sem <> NULL
     /\ sem_destroy sem s1 = Ok tt s2
     /\ heap s2 = heap s /\ threads s2 = threads s /\ curspl s2 = curspl s)
  /\ (exists lock s1 s2,
        lock_create name s = Ok lock s1 /\ lock <> NULL
        /\ lock_destroy lock s1 = Ok tt s2
        /\ heap s2 = heap s /\ threads s2 = threads s /\ curspl s2 = curspl s)
  /\ (exists c s1 s2,
        cv_create name s = Ok c s1 /\ c <> NULL
        /\ cv_destroy c s1 = Ok tt s2
        /\ heap s2 = heap s /\ threads s2 = threads s /\ curspl s2 = curspl s).
Proof.
  intros Hm (Hf1 & Hf2 & Hf3 & _) Hn Hno.
  split; [|split].
  - eexists. eexists. eexists.
    split; [apply (sem_create_gives name n s (S m) Hn Hm)|].
    split; [discriminate|].
    split; [apply sem_destroy_frees;
            [discriminate|cbn; apply lookup_insert_eq|exact Hno]|].
    split; [|split; reflexivity].
    cbn. apply heap_round_trip2; assumption.
  - eexists. eexists. eexists.
    split; [apply (lock_create_gives name s (S m) Hm)|].
    split; [discriminate|].
    split.
    { apply lock_destroy_returns; [discriminate|cbn; apply lookup_insert_eq]. }
    split; [|split; reflexivity].
    cbn. apply heap_round_trip2; assumption.
  - eexists. eexists. eexists.
    split; [apply (cv_create_gives name s m Hm)|].
    split; [discriminate|].
    split.
    { apply (cv_destroy_frees _
               {| cv_name := Z.pos (Pos.succ (brk s)); cv_count := 0;
                  cv_thread_queue := Z.pos (Pos.succ (Pos.succ (brk s))) |});
        [|reflexivity].
      split; [discriminate|]. split; [cbn; apply lookup_insert_eq|].
      split; [discriminate|]. cbn.
      rewrite lookup_insert_ne by (intros E; injection E as E; lia).
      apply lookup_insert_eq. }
    split; [|split; reflexivity].
    cbn. apply heap_round_trip3; assumption.
Qed.

Lemma create_destroy_round_trip_witness :
  exists c s1 s2,
    cv_create "cv" boot = Ok c s1 /\ c <> NULL
    /\ cv_destroy c s1 = Ok tt s2 /\ heap s2 = heap boot.
Proof.
  destruct (create_destroy_round_trip "cv" 0 boot 5) as (_ & _ & H).
  - reflexivity.
  - repeat split; reflexivity.
  - lia.
  - intros t k. cbn.
    destruct (decide (t = 1)) as [->|H1]; [discriminate|].
    destruct (decide (t = 2)) as [->|H2]; [discriminate|].
    rewrite !lookup_insert_ne by congruence. rewrite lookup_empty. discriminate.
  - destruct H as (c & s1 & s2 & Hc & Hn & Hd & Hh & _).
    exists c, s1, s2. auto.
Defined.

(** ** Who holds the lock *)

Lemma lock_do_i_hold_Ok lock l s :
  lock <> NULL -> heap s !! lock = Some (O_lock l) ->
  lock_do_i_hold lock s = Ok (of_bool (lock_holder l =? curthread s)) s.
Proof.
  intros Hp Hl. unfold lock_do_i_hold.
  rewrite (bind_Ok _ _ _ _ _ (rd_lock_Ok _ _ _ Hp Hl)). reflexivity.
Qed.

Lemma lock_acquire_inv lock s s' :
  lock_acquire lock s = Ok tt s' ->
  exists l,
    lock <> NULL /\ heap s !! lock = Some (O_lock l)
    /\ ~ held_by_other l (curthread s)
    /\ s' = set_heap (<[lock:=O_lock (lock_taken l (curthread s))]> (heap s)) s.
Proof.
  unfold lock_acquire, lock_acquire_from.
  destruct (lock =? NULL) eqn:Ep; cbn [negb];
    [rewrite (bind_Fault _ _ _ _ _ (assert_false 141 s)); discriminate|].
  apply Z.eqb_neq in Ep.
  rewrite (bind_Ok _ _ _ _ _ (assert_true 141 s)).
  unfold splhigh. rewrite (bind_Ok _ _ s (curspl s) (set_curspl SPL_HIGH s)) by reflexivity.
  destruct (rd_lock_cases lock (set_curspl SPL_HIGH s)) as [(l & Hr & _ & Hl)|Hf].
  - destruct (bool_decide (held_by_other l (curthread s))) eqn:E.
    + apply bool_decide_eq_true in E.
      rewrite (lock_acquire_loop_sleeps lock (curspl s) [] l _ Ep Hl E). discriminate.
    + apply bool_decide_eq_false in E.
      rewrite (lock_acquire_loop_takes lock (curspl s) l _ Ep Hl E).
      intros [= <-]. exists l. auto.
  - unfold lock_acquire_loop. rewrite (bind_Fault _ _ _ _ _ Hf). discriminate.
Qed.

Lemma lock_release_inv lock s s' :
  lock_release lock s = Ok tt s' ->
  exists l,
    lock <> NULL /\ heap s !! lock = Some (O_lock l)
    /\ s' = set_curspl (curspl s)
              (wake_all lock
                 (set_heap (<[lock:=O_lock (lock_cleared l)]> (heap s))
                    (set_curspl SPL_HIGH s))).
Proof.
  destruct (Z.eq_dec lock NULL) as [->|Hp]; [discriminate|].
  destruct (rd_lock_cases lock s) as [(l & _ & _ & Hl)|Hf].
  - rewrite (lock_release_returns lock l s Hp Hl). intros [= <-]. exists l. auto.
  - unfold lock_release. rewrite (not_NULL_eqb lock Hp). cbn [negb].
    rewrite (bind_Ok _ _ _ _ _ (assert_true 166 s)).
    unfold splhigh. rewrite (bind_Ok _ _ s (curspl s) (set_curspl SPL_HIGH s)) by reflexivity.
    unfold upd_lock.
    assert (rd_lock lock (set_curspl SPL_HIGH s) = Fault MemFault (set_curspl SPL_HIGH s))
      as Hf'.
    { revert Hf. unfold rd_lock, bind, load. cbn.
      destruct (lock =? NULL); [reflexivity|].
      destruct (heap s !! lock) as [[]|]; try reflexivity. discriminate. }
    rewrite (bind_Fault _ _ _ _ _ (bind_Fault _ _ _ _ _ Hf')). discriminate.
Qed.

(** X6.  What [lock_do_i_hold] answers after the lock has changed hands.
    Once [lock_acquire] has returned, [lock_do_i_hold] is 1 for the caller
    and 0 for every other thread.  Once [lock_release] has returned it is 0
    for every thread with a non-null identity; it is 1 for a context whose
    [curthread] is [NULL], since only [lock_holder] is compared and a
    free lock has [lock_holder = NULL]. *)
Theorem lock_do_i_hold_after lock s s' :
  (lock_acquire lock s = Ok tt s' ->
     lock_do_i_hold lock s' = Ok 1 s'
     /\ forall t, t <> curthread s ->
          lock_do_i_hold lock (set_curthread t s') = Ok 0 (set_curthread t s'))
  /\ (lock_release lock s = Ok tt s' ->
      (forall t, t <> NULL ->
         lock_do_i_hold lock (set_curthread t s') = Ok 0 (set_curthread t s'))
      /\ lock_do_i_hold lock (set_curthread NULL s') = Ok 1 (set_curthread NULL s')).
Proof.
  split.
  - intros H. destruct (lock_acquire_inv _ _ _ H) as (l & Hp & Hl & _ & ->).
    split.
    + erewrite lock_do_i_hold_Ok; [|exact Hp|cbn; apply lookup_insert_eq].
      cbn. rewrite Z.eqb_refl. reflexivity.
    + intros t Ht.
      erewrite lock_do_i_hold_Ok; [|exact Hp|cbn; apply lookup_insert_eq].
      cbn. replace (curthread s =? t) with false
        by (symmetry; apply Z.eqb_neq; congruence).
      reflexivity.
  - intros H. destruct (lock_release_inv _ _ _ H) as (l & Hp & Hl & ->).
    split.
    + intros t Ht.
      erewrite lock_do_i_hold_Ok; [|exact Hp|cbn; apply lookup_insert_eq].
      cbn. destruct t; [destruct Ht| |]; reflexivity.
    + erewrite lock_do_i_hold_Ok; [|exact Hp|cbn; apply lookup_insert_eq].
      reflexivity.
Qed.

Lemma lock_do_i_hold_after_witness :
  exists s',
    lock_acquire 16 (set_curthread 2 lock_irq_demo) = Ok tt s'
    /\ lock_do_i_hold 16 s' = Ok 1 s'
    /\ lock_do_i_hold 16 (set_curthread 1 s') = Ok 0 (set_curthread 1 s').
Proof.
  eexists. split; [reflexivity|].
  match goal with |- lock_do_i_hold 16 ?s' = _ /\ _ =>
    destruct (lock_do_i_hold_after 16 (set_curthread 2 lock_irq_demo) s') as [H _] end.
  destruct (H eq_refl) as [H1 H2]. split; [exact H1|].
  apply H2. discriminate.
Defined.

(** *** Acquiring again *)

Lemma lock_acquire_by_holder lock l s :
  lock <> NULL -> heap s !! lock = Some (O_lock l) ->
  lock_occupied l = 1 -> lock_holder l = curthread s ->
  lock_acquire lock s = Ok tt s.
Proof.
  intros Hp Hl Hocc Hme.
  rewrite (lock_acquire_enters lock s Hp).
  rewrite (lock_acquire_loop_takes lock (curspl s) l (set_curspl SPL_HIGH s) Hp Hl)
    by (intros [_ Hne]; contradiction).
  cbn. f_equal.
  assert (lock_taken l (curthread s) = l) as ->
    by (destruct l; cbn in *; subst; reflexivity).
  rewrite insert_id by exact Hl. destruct s. reflexivity.
Qed.

Lemma times_noop n (m : M unit) s : m s = Ok tt s -> times n m s = Ok tt s.
Proof.
  intros H. induction n as [|n IH]; [reflexivity|].
  cbn [times]. rewrite (bind_Ok _ _ _ _ _ H). exact IH.
Qed.

(** X7.  The lock keeps no count of acquisitions.  A thread that does not
    find the lock held by another acquires it, may acquire it again any
    number of times without blocking and without any change of state, and a
    single [lock_release] then leaves the lock free: [lock_occupied = 0],
    [lock_holder = NULL].  If the lock was free as [lock_create] leaves it,
    the heap is back to what it was. *)
Theorem lock_acquire_again_not_counted lock l s n :
  lock <> NULL ->
  heap s !! lock = Some (O_lock l) ->
  ~ held_by_other l (curthread s) ->
  exists s1 s2,
    lock_acquire lock s = Ok tt s1
    /\ times n (lock_acquire lock) s1 = Ok tt s1
    /\ (times (S n) (lock_acquire lock) ;; lock_release lock) s = Ok tt s2
    /\ heap s2 = <[lock:=O_lock (lock_cleared l)]> (heap s)
    /\ curspl s2 = curspl s
    /\ (lock_occupied l = 0 -> lock_holder l = NULL -> heap s2 = heap s).
Proof.
  intros Hp Hl Hfree.
  set (s1 := set_heap (<[lock:=O_lock (lock_taken l (curthread s))]> (heap s)) s).
  assert (lock_acquire lock s = Ok tt s1) as H1.
  { rewrite (lock_acquire_enters lock s Hp).
    rewrite (lock_acquire_loop_takes lock (curspl s) l (set_curspl SPL_HIGH s) Hp Hl Hfree).
    reflexivity. }
  assert (heap s1 !! lock = Some (O_lock (lock_taken l (curthread s)))) as Hl1
    by (cbn; apply lookup_insert_eq).
  assert (times n (lock_acquire lock) s1 = Ok tt s1) as Hn.
  { apply times_noop.
    apply (lock_acquire_by_holder lock _ s1 Hp Hl1); reflexivity. }
  eexists. eexists. split; [exact H1|]. split; [exact Hn|].
  split.
  { cbn [times]. unfold bind at 1. unfold bind at 1. rewrite H1.
    fold (bind (times n (lock_acquire lock)) (fun _ => lock_release lock) s1).
    rewrite (bind_Ok _ _ _ _ _ Hn).
    apply (lock_release_returns lock _ s1 Hp Hl1). }
  split; [cbn; apply insert_insert_eq|].
  split; [reflexivity|].
  intros Hocc Hhold. cbn. rewrite insert_insert_eq.
  apply insert_id. rewrite Hl. f_equal. f_equal.
  destruct l; cbn in *; subst; reflexivity.
Qed.

Lemma lock_acquire_again_not_counted_witness :
  exists s2,
    (times 3 (lock_acquire 16) ;; lock_release 16) lock_irq_demo = Ok tt s2
    /\ heap s2 = heap lock_irq_demo.
Proof.
  destruct (lock_acquire_again_not_counted 16
              {| lock_name := 17; lock_occupied := 0; lock_holder := NULL |}
              lock_irq_demo 2) as (s1 & s2 & _ & _ & H & _ & _ & Hh).
  - discriminate.
  - reflexivity.
  - intros [H _]. discriminate.
  - exists s2. split; [exact H|]. apply Hh; reflexivity.
Defined.

(** ** More on the semaphore *)

Lemma P_enters sem s :
  sem <> NULL -> in_interrupt s = 0 ->
  P sem s = P_loop sem (curspl s) (set_curspl SPL_HIGH s).
Proof.
  intros Hp Hi. unfold P. rewrite (not_NULL_eqb sem Hp). cbn [negb].
  rewrite (bind_Ok _ _ _ _ _ (assert_true 67 s)).
  rewrite (bind_Ok _ _ s (in_interrupt s) s) by reflexivity.
  rewrite Hi. reflexivity.
Qed.

Lemma P_loop_sleeps sem spl x s :
  sem <> NULL -> heap s !! sem = Some (O_sem x) -> sem_count x = 0 ->
  P_loop sem spl s = Sleep sem (K_P sem spl) (asleep_on sem (K_P sem spl) s).
Proof.
  intros Hp Hl H0. unfold P_loop.
  rewrite (bind_Ok _ _ _ _ _ (rd_sem_Ok _ _ _ Hp Hl)). rewrite H0. reflexivity.
Qed.

Lemma P_loop_takes sem spl x s :
  sem <> NULL -> heap s !! sem = Some (O_sem x) -> 0 < sem_count x <= INT_MAX ->
  P_loop sem spl s
  = Ok tt (set_curspl spl
             (set_heap (<[sem:=O_sem (with_sem_count (sem_count x - 1) x)]> (heap s)) s)).
Proof.
  intros Hp Hl Hc. unfold P_loop.
  rewrite (bind_Ok _ _ _ _ _ (rd_sem_Ok _ _ _ Hp Hl)).
  replace (sem_count x =? 0) with false by (symmetry; apply Z.eqb_neq; lia).
  rewrite (bind_Ok _ _ _ _ _ (rd_sem_Ok _ _ _ Hp Hl)).
  replace (0 <? sem_count x) with true by (symmetry; apply Z.ltb_lt; lia).
  rewrite (bind_Ok _ _ _ _ _ (assert_true 81 s)).
  rewrite (bind_Ok _ _ _ _ _ (upd_sem_Ok _ _ _ _ Hp Hl)).
  rewrite wrap_int_id by (unfold INT_MIN, INT_MAX in *; lia).
  reflexivity.
Qed.

Lemma P_loop_negative sem spl x s :
  sem <> NULL -> heap s !! sem = Some (O_sem x) -> sem_count x < 0 ->
  P_loop sem spl s = Fault (AssertFail 81) s.
Proof.
  intros Hp Hl Hc. unfold P_loop.
  rewrite (bind_Ok _ _ _ _ _ (rd_sem_Ok _ _ _ Hp Hl)).
  replace (sem_count x =? 0) with false by (symmetry; apply Z.eqb_neq; lia).
  rewrite (bind_Ok _ _ _ _ _ (rd_sem_Ok _ _ _ Hp Hl)).
  replace (0 <? sem_count x) with false by (symmetry; apply Z.ltb_ge; lia).
  reflexivity.
Qed.

(** X8.  [P] by the sign of the count.  Outside interrupt handlers, [P] on a
    semaphore with count 0 puts the caller to sleep on the semaphore with
    the count unchanged and interrupts masked, to test the count again
    when woken; with a positive count it returns at once with the count
    one lower and nothing else in memory changed; a negative count stops
    at the assertion of line 81.  A woken thread that finds the count 0
    again sleeps again. *)
Theorem P_by_count sem x s :
  sem <> NULL ->
  heap s !! sem = Some (O_sem x) ->
  in_interrupt s = 0 ->
  sem_count x <= INT_MAX ->
  (sem_count x = 0 ->
     P sem s = Sleep sem (K_P sem (curspl s))
                 (asleep_on sem (K_P sem (curspl s)) (set_curspl SPL_HIGH s))
     /\ forall spl, resume (K_P sem spl) s
                    = Sleep sem (K_P sem spl) (asleep_on sem (K_P sem spl) s))
  /\ (0 < sem_count x ->
      P sem s
      = Ok tt (set_heap (<[sem:=O_sem (with_sem_count (sem_count x - 1) x)]> (heap s)) s))
  /\ (sem_count x < 0 ->
      P sem s = Fault (AssertFail 81) (set_curspl SPL_HIGH s)).
Proof.
  intros Hp Hl Hi Hmax. rewrite (P_enters sem s Hp Hi). split; [|split].
  - intros H0. split.
    + exact (P_loop_sleeps sem (curspl s) x (set_curspl SPL_HIGH s) Hp Hl H0).
    + intros spl. exact (P_loop_sleeps sem spl x s Hp Hl H0).
  - intros Hpos.
    rewrite (P_loop_takes sem (curspl s) x (set_curspl SPL_HIGH s) Hp Hl) by lia.
    reflexivity.
  - intros Hneg.
    exact (P_loop_negative sem (curspl s) x (set_curspl SPL_HIGH s) Hp Hl Hneg).
Qed.

Lemma P_by_count_witness :
  P 16 sem_demo
  = Sleep 16 (K_P 16 0) (asleep_on 16 (K_P 16 0) (set_curspl SPL_HIGH sem_demo)).
Proof.
  refine (proj1 (proj1 (P_by_count 16 {| sem_name := 17; sem_count := 0 |} sem_demo
                          _ _ _ _) _)).
  - discriminate.
  - reflexivity.
  - reflexivity.
  - cbn. unfold INT_MAX. lia.
  - reflexivity.
Defined.

(** X9.  [V] returns exactly when the count has room.  On a semaphore whose
    count is an [int], [V] returns if and only if the count is at least 0
    and below [INT_MAX]; at [INT_MAX] the increment wraps to [INT_MIN] and
    the assertion of line 93 stops the kernel, before any thread is
    woken. *)
Theorem V_returns_iff_room sem x s :
  sem <> NULL ->
  heap s !! sem = Some (O_sem x) ->
  INT_MIN <= sem_count x <= INT_MAX ->
  ((exists s', V sem s = Ok tt s') <-> 0 <= sem_count x < INT_MAX)
  /\ (sem_count x = INT_MAX ->
      V sem s
      = Fault (AssertFail 93)
          (set_heap (<[sem:=O_sem (with_sem_count INT_MIN x)]> (heap s))
             (set_curspl SPL_HIGH s))).
Proof.
  intros Hp Hl Hr.
  assert (V sem s
          = (assert_ 93 (0 <? wrap_int (sem_count x + 1)) ;;
             thread_wakeup sem ;; splx (curspl s) ;; ret tt)
              (set_heap (<[sem:=O_sem (with_sem_count (wrap_int (sem_count x + 1)) x)]>
                           (heap s)) (set_curspl SPL_HIGH s))) as HV.
  { unfold V. rewrite (not_NULL_eqb sem Hp). cbn [negb].
    rewrite (bind_Ok _ _ _ _ _ (assert_true 90 s)).
    unfold splhigh.
    rewrite (bind_Ok _ _ s (curspl s) (set_curspl SPL_HIGH s)) by reflexivity.
    erewrite bind_Ok; [|apply upd_sem_Ok; [exact Hp|exact Hl]].
    erewrite bind_Ok; [|apply rd_sem_Ok; [exact Hp|cbn; apply lookup_insert_eq]].
    reflexivity. }
  split; [split|].
  - intros [s' Hs']. rewrite HV in Hs'.
    destruct (0 <? wrap_int (sem_count x + 1)) eqn:E; [|discriminate].
    apply Z.ltb_lt in E.
    destruct (Z.eq_dec (sem_count x) INT_MAX) as [Emax|Hne].
    + rewrite Emax, wrap_int_succ_max in E. unfold INT_MIN in E. lia.
    + rewrite wrap_int_id in E by (unfold INT_MIN, INT_MAX in *; lia). lia.
  - intros Hroom. eexists. apply (V_returns sem x s Hp Hl Hroom).
  - intros Emax. rewrite HV, Emax, wrap_int_succ_max. reflexivity.
Qed.

Lemma V_returns_iff_room_witness :
  V 16 (set_heap (<[16:=O_sem {| sem_name := 17; sem_count := INT_MAX |}]> ∅) sem_demo)
  = Fault (AssertFail 93)
      (set_heap (<[16:=O_sem {| sem_name := 17; sem_count := INT_MIN |}]>
                   (<[16:=O_sem {| sem_name := 17; sem_count := INT_MAX |}]> ∅))
         (set_curspl SPL_HIGH sem_demo)).
Proof.
  refine (proj2 (V_returns_iff_room 16 {| sem_name := 17; sem_count := INT_MAX |}
                   (set_heap (<[16:=O_sem {| sem_name := 17; sem_count := INT_MAX |}]> ∅)
                      sem_demo) _ _ _) _).
  - discriminate.
  - reflexivity.
  - cbn. unfold INT_MIN, INT_MAX. lia.
  - reflexivity.
Defined.

(** X10.  [V] and [P] undo each other.  In a thread context, [V] followed
    by [P] on a semaphore with room returns without sleeping and leaves
    the heap as it was; so does [P] followed by [V] on a semaphore with a
    positive count.  In both cases the threads that slept on the semaphore
    have been woken and the interrupt level is the caller's. *)
Theorem V_P_round_trip sem x s :
  sem <> NULL ->
  heap s !! sem = Some (O_sem x) ->
  in_interrupt s = 0 ->
  (0 <= sem_count x < INT_MAX ->
     exists s', (V sem ;; P sem) s = Ok tt s'
                /\ heap s' = heap s
                /\ threads s' = wake sem <$> threads s
                /\ curspl s' = curspl s)
  /\ (0 < sem_count x <= INT_MAX ->
      exists s', (P sem ;; V sem) s = Ok tt s'
                 /\ heap s' = heap s
                 /\ threads s' = wake sem <$> threads s
                 /\ curspl s' = curspl s).
Proof.
  intros Hp Hl Hi. split.
  - intros Hc. eexists. split.
    + rewrite (bind_Ok _ _ _ _ _ (V_returns sem x s Hp Hl Hc)).
      rewrite (P_enters sem _ Hp) by exact Hi.
      apply (P_loop_takes sem _ (V_count x)).
      * exact Hp.
      * cbn. apply lookup_insert_eq.
      * cbn. lia.
    + split; [|split; reflexivity].
      cbn. rewrite insert_insert_eq.
      replace (with_sem_count (sem_count x + 1 - 1) (V_count x)) with x
        by (destruct x; unfold V_count, with_sem_count; cbn; f_equal; lia).
      apply insert_id. exact Hl.
  - intros Hc. eexists. split.
    + erewrite bind_Ok;
        [|rewrite (P_enters sem s Hp Hi);
          apply (P_loop_takes sem _ x); [exact Hp|exact Hl|exact Hc]].
      apply (V_returns sem (with_sem_count (sem_count x - 1) x)).
      * exact Hp.
      * cbn. apply lookup_insert_eq.
      * cbn. lia.
    + split; [|split; reflexivity].
      cbn. rewrite insert_insert_eq.
      replace (V_count (with_sem_count (sem_count x - 1) x)) with x
        by (destruct x; unfold V_count, with_sem_count; cbn; f_equal; lia).
      apply insert_id. exact Hl.
Qed.

Lemma V_P_round_trip_witness :
  exists s', (V 16 ;; P 16) sem_demo = Ok tt s' /\ heap s' = heap sem_demo.
Proof.
  destruct (V_P_round_trip 16 {| sem_name := 17; sem_count := 0 |} sem_demo)
    as [H _].
  - discriminate.
  - reflexivity.
  - reflexivity.
  - destruct H as (s' & Hr & Hh & _).
    + cbn. unfold INT_MAX. lia.
    + exists s'. split; [exact Hr|exact Hh].
Defined.

(** ** Waiting on a condition variable *)

Lemma cv_wait_sleeps c lock x l q s :
  cv_at c x q s ->
  lock <> NULL -> heap s !! lock = Some (O_lock l) -> lock_holder l = curthread s ->
  in_interrupt s = 0 ->
  INT_MIN <= cv_count x < INT_MAX ->
  cv_wait c lock s
  = Sleep (curthread s) (K_cv_wait lock (curspl s)) (cv_wait_post l c lock x q s).
Proof.
  intros Hcv Hp Hl Hme Hi Hr.
  assert (holds_lock lock s) as Hlock by (split; [exact Hp|eauto]).
  pose proof (cv_at_distinct _ _ _ _ Hcv) as Hne.
  destruct (holds_lock_distinct _ _ _ _ _ Hcv Hlock) as [Hn1 Hn2].
  destruct Hcv as (Hc & Hx & Hqp & Hq).
  unfold cv_wait.
  rewrite (not_NULL_eqb c Hc). cbn [negb].
  rewrite (bind_Ok _ _ _ _ _ (assert_true 245 s)).
  rewrite (not_NULL_eqb lock Hp). cbn [negb].
  rewrite (bind_Ok _ _ _ _ _ (assert_true 246 s)).
  rewrite (bind_Ok _ _ _ _ _ (lock_do_i_hold_mine _ _ Hlock)).
  cbn [Z.eqb negb].
  rewrite (bind_Ok _ _ _ _ _ (assert_true 247 s)).
  rewrite (bind_Ok _ _ s (in_interrupt s) s) by reflexivity.
  rewrite Hi. cbn [Z.eqb].
  rewrite (bind_Ok _ _ _ _ _ (assert_true 253 s)).
  unfold splhigh at 1.
  rewrite (bind_Ok _ _ s (curspl s) (set_curspl SPL_HIGH s)) by reflexivity.
  erewrite bind_Ok; [|apply (lock_release_returns lock l); [exact Hp|exact Hl]].
  erewrite bind_Ok;
    [|apply (upd_cv_Ok c _ x);
      [exact Hc|cbn; rewrite lookup_insert_ne by congruence; exact Hx]].
  erewrite bind_Ok; [|apply rd_cv_Ok; [exact Hc|cbn; apply lookup_insert_eq]].
  cbn [with_cv_count cv_thread_queue cv_count].
  unfold q_preallocate.
  erewrite bind_Ok;
    [|erewrite bind_Ok;
       [|apply (rd_queue_Ok _ q);
         [exact Hqp|cbn; rewrite !lookup_insert_ne by congruence; exact Hq]];
      reflexivity].
  erewrite bind_Ok; [|reflexivity].
  unfold q_addtail.
  erewrite bind_Ok;
    [|erewrite bind_Ok;
       [|apply (rd_queue_Ok _ q);
         [exact Hqp|cbn; rewrite !lookup_insert_ne by congruence; exact Hq]];
      reflexivity].
  erewrite bind_Ok; [|reflexivity].
  rewrite wrap_int_id by (unfold INT_MIN, INT_MAX in *; lia).
  reflexivity.
Qed.

(** X11.  What [cv_wait] has done when its caller goes to sleep.  Called by
    the holder of the lock, outside interrupt handlers, [cv_wait] never
    returns at once: it puts the caller to sleep on its own thread address,
    to go on with [lock_acquire] when woken.  By then the lock is free and
    the threads that slept on it are woken, the count is one higher, the
    caller is the last entry of the queue (so count and queue length stay
    equal), nothing else in memory has changed, and interrupts are still
    masked. *)
Theorem cv_wait_releases_and_queues c lock x l q s :
  cv_at c x q s ->
  lock <> NULL ->
  heap s !! lock = Some (O_lock l) ->
  lock_holder l = curthread s ->
  in_interrupt s = 0 ->
  INT_MIN <= cv_count x < INT_MAX ->
  exists s',
    cv_wait c lock s = Sleep (curthread s) (K_cv_wait lock (curspl s)) s'
    /\ heap s' !! lock = Some (O_lock (lock_cleared l))
    /\ heap s' !! c = Some (O_cv (with_cv_count (cv_count x + 1) x))
    /\ heap s' !! cv_thread_queue x = Some (O_queue (q ++ [curthread s]))
    /\ (cv_count x = Z.of_nat (length q) ->
        cv_count x + 1 = Z.of_nat (length (q ++ [curthread s])))
    /\ (forall p, p <> lock -> p <> c -> p <> cv_thread_queue x ->
                  heap s' !! p = heap s !! p)
    /\ threads s' !! curthread s
       = Some (T_asleep (curthread s) (K_cv_wait lock (curspl s)))
    /\ (forall t k, t <> curthread s -> threads s !! t = Some (T_asleep lock k) ->
                    threads s' !! t = Some (T_woken k))
    /\ wakeups s' = wakeups s ++ [lock]
    /\ curspl s' = SPL_HIGH.
Proof.
  intros Hcv Hp Hl Hme Hi Hr.
  assert (holds_lock lock s) as Hlock by (split; [exact Hp|eauto]).
  pose proof (cv_at_distinct _ _ _ _ Hcv) as Hne.
  destruct (holds_lock_distinct _ _ _ _ _ Hcv Hlock) as [Hn1 Hn2].
  exists (cv_wait_post l c lock x q s).
  split; [apply cv_wait_sleeps; assumption|].
  split; [cbn; rewrite !lookup_insert_ne by congruence; apply lookup_insert_eq|].
  split; [cbn; rewrite lookup_insert_ne by congruence; apply lookup_insert_eq|].
  split; [cbn; apply lookup_insert_eq|].
  split; [intros Hlen; rewrite length_app; cbn; lia|].
  split; [intros p H1 H2 H3; cbn; rewrite !lookup_insert_ne by congruence; reflexivity|].
  split; [cbn; apply lookup_insert_eq|].
  split; [|split; reflexivity].
  intros t k Ht Hs. cbn. rewrite lookup_insert_ne by congruence.
  rewrite lookup_fmap, Hs. cbn. rewrite Z.eqb_refl. reflexivity.
Qed.

Lemma cv_wait_releases_and_queues_witness :
  exists s',
    cv_wait 16 18 cv_idle_demo = Sleep 1 (K_cv_wait 18 0) s'
    /\ heap s' !! 19 = Some (O_queue [1])
    /\ heap s' !! 18
       = Some (O_lock {| lock_name := 20; lock_occupied := 0; lock_holder := NULL |}).
Proof.
  destruct (cv_wait_releases_and_queues 16 18
              {| cv_name := 17; cv_count := 0; cv_thread_queue := 19 |}
              {| lock_name := 20; lock_occupied := 1; lock_holder := 1 |}
              [] cv_idle_demo)
    as (s' & Hw & Hlk & _ & Hq & _).
  - split; [discriminate|split; [reflexivity|split; [discriminate|reflexivity]]].
  - discriminate.
  - reflexivity.
  - reflexivity.
  - reflexivity.
  - cbn. unfold INT_MIN, INT_MAX. lia.
  - exists s'. split; [exact Hw|]. split; [exact Hq|exact Hlk].
Defined.

Lemma lock_do_i_hold_not_mine lock l s :
  lock <> NULL -> heap s !! lock = Some (O_lock l) -> lock_holder l <> curthread s ->
  lock_do_i_hold lock s = Ok 0 s.
Proof.
  intros Hp Hl Hne. rewrite (lock_do_i_hold_Ok lock l s Hp Hl).
  replace (lock_holder l =? curthread s) with false
    by (symmetry; apply Z.eqb_neq; exact Hne).
  reflexivity.
Qed.

(** X12.  The three operations on a condition variable are refused to a
    caller that is not the recorded holder of the lock.  [cv_wait],
    [cv_signal] and [cv_broadcast] each stop at their assertion on
    [lock_do_i_hold] (lines 247, 284, 307) with the state untouched,
    whether or not the lock is held by anyone. *)
Theorem cv_operations_need_the_lock c lock l s :
  c <> NULL ->
  lock <> NULL ->
  heap s !! lock = Some (O_lock l) ->
  lock_holder l <> curthread s ->
  cv_wait c lock s = Fault (AssertFail 247) s
  /\ cv_signal c lock s = Fault (AssertFail 284) s
  /\ cv_broadcast c lock s = Fault (AssertFail 307) s.
Proof.
  intros Hc Hp Hl Hne.
  pose proof (lock_do_i_hold_not_mine lock l s Hp Hl Hne) as Hh.
  split; [|split].
  - unfold cv_wait. rewrite (not_NULL_eqb c Hc), (not_NULL_eqb lock Hp). cbn [negb].
    rewrite (bind_Ok _ _ _ _ _ (assert_true 245 s)).
    rewrite (bind_Ok _ _ _ _ _ (assert_true 246 s)).
    rewrite (bind_Ok _ _ _ _ _ Hh). reflexivity.
  - unfold cv_signal. rewrite (not_NULL_eqb c Hc), (not_NULL_eqb lock Hp). cbn [negb].
    rewrite (bind_Ok _ _ _ _ _ (assert_true 282 s)).
    rewrite (bind_Ok _ _ _ _ _ (assert_true 283 s)).
    rewrite (bind_Ok _ _ _ _ _ Hh). reflexivity.
  - unfold cv_broadcast, cv_broadcast_fuel.
    rewrite (not_NULL_eqb c Hc), (not_NULL_eqb lock Hp). cbn [negb].
    rewrite (bind_Ok _ _ _ _ _ (assert_true 305 s)).
    rewrite (bind_Ok _ _ _ _ _ (assert_true 306 s)).
    rewrite (bind_Ok _ _ _ _ _ Hh). reflexivity.
Qed.

Lemma cv_operations_need_the_lock_witness :
  cv_wait 16 18 (set_curthread 2 cv_busy_demo)
  = Fault (AssertFail 247) (set_curthread 2 cv_busy_demo).
Proof.
  refine (proj1 (cv_operations_need_the_lock 16 18
                   {| lock_name := 20; lock_occupied := 1; lock_holder := 1 |}
                   (set_curthread 2 cv_busy_demo) _ _ _ _)).
  - discriminate.
  - discriminate.
  - reflexivity.
  - discriminate.
Defined.

(** *** Coming back from [cv_wait] *)

Lemma lock_acquire_loop_takes_in_cv_wait lock spl spl0 l s :
  lock <> NULL -> heap s !! lock = Some (O_lock l) ->
  ~ held_by_other l (curthread s) ->
  lock_acquire_loop lock spl [F_cv_wait spl0] s
  = Ok tt (set_curspl spl0
             (set_heap (<[lock:=O_lock (lock_taken l (curthread s))]> (heap s)) s)).
Proof.
  intros Hp Hl Hfree. unfold lock_acquire_loop.
  rewrite (bind_Ok _ _ _ _ _ (rd_lock_Ok _ _ _ Hp Hl)).
  rewrite (bind_Ok _ _ s (curthread s) s) by reflexivity.
  rewrite (proj2 (not_held_by_other_test _ _) Hfree).
  rewrite (bind_Ok _ _ _ _ _ (upd_lock_Ok _ _ _ _ Hp Hl)).
  erewrite bind_Ok; [|reflexivity].
  cbn [curthread set_heap].
  erewrite bind_Ok; [|apply upd_lock_Ok; [exact Hp|cbn; apply lookup_insert_eq]].
  cbn. rewrite insert_insert_eq. reflexivity.
Qed.

(** X13.  [cv_wait] comes back only with the lock.  A thread woken out of
    [cv_wait] (at line 265, or later at line 149 inside the [lock_acquire]
    of line 267) either returns, and then it is the holder of the lock,
    the lock is marked held, and the interrupt level is the one it had when
    it called [cv_wait]; or it sleeps on the lock, to go on at the loop
    test of that same [lock_acquire] inside [cv_wait]. *)
Theorem cv_wait_returns_with_the_lock lock spl s :
  (forall s',
     resume (K_cv_wait lock spl) s = Ok tt s' ->
     (exists l, heap s' !! lock = Some (O_lock l)
                /\ lock_occupied l = 1 /\ lock_holder l = curthread s)
     /\ lock_do_i_hold lock s' = Ok 1 s'
     /\ curspl s' = spl)
  /\ (forall key k s',
        resume (K_cv_wait lock spl) s = Sleep key k s' ->
        key = lock /\ k = K_lock_acquire lock (curspl s) [F_cv_wait spl])
  /\ (forall spl1 s',
        resume (K_lock_acquire lock spl1 [F_cv_wait spl]) s = Ok tt s' ->
        (exists l, heap s' !! lock = Some (O_lock l)
                   /\ lock_occupied l = 1 /\ lock_holder l = curthread s)
        /\ lock_do_i_hold lock s' = Ok 1 s'
        /\ curspl s' = spl)
  /\ (forall spl1 key k s',
        resume (K_lock_acquire lock spl1 [F_cv_wait spl]) s = Sleep key k s' ->
        key = lock /\ k = K_lock_acquire lock spl1 [F_cv_wait spl]).
Proof.
  assert (forall spl1 s0 s',
            curthread s0 = curthread s ->
            lock_acquire_loop lock spl1 [F_cv_wait spl] s0 = Ok tt s' ->
            (exists l, heap s' !! lock = Some (O_lock l)
                       /\ lock_occupied l = 1 /\ lock_holder l = curthread s)
            /\ lock_do_i_hold lock s' = Ok 1 s'
            /\ curspl s' = spl) as Hok.
  { intros spl1 s0 s' Hcur H.
    destruct (rd_lock_cases lock s0) as [(l & _ & Hp & Hl)|Hf];
      [|unfold lock_acquire_loop in H; rewrite (bind_Fault _ _ _ _ _ Hf) in H;
        discriminate].
    destruct (bool_decide (held_by_other l (curthread s0))) eqn:E.
    - apply bool_decide_eq_true in E.
      rewrite (lock_acquire_loop_sleeps lock spl1 _ l s0 Hp Hl E) in H. discriminate.
    - apply bool_decide_eq_false in E.
      rewrite (lock_acquire_loop_takes_in_cv_wait lock spl1 spl l s0 Hp Hl E) in H.
      injection H as <-. split; [|split; [|reflexivity]].
      + eexists. split; [cbn; apply lookup_insert_eq|]. split; [reflexivity|exact Hcur].
      + erewrite lock_do_i_hold_Ok; [|exact Hp|cbn; apply lookup_insert_eq].
        cbn. rewrite Z.eqb_refl. reflexivity. }
  assert (forall spl1 s0 key k s',
            lock_acquire_loop lock spl1 [F_cv_wait spl] s0 = Sleep key k s' ->
            key = lock /\ k = K_lock_acquire lock spl1 [F_cv_wait spl]) as Hsl.
  { intros spl1 s0 key k s' H.
    pose proof (lock_acquire_loop_heap lock spl1 [F_cv_wait spl] s0) as Hh.
    rewrite H in Hh. destruct Hh as (l & _ & _ & -> & -> & _). auto. }
  assert (forall r, resume (K_cv_wait lock spl) s = r ->
                    (exists f, r = Fault f s)
                    \/ r = lock_acquire_loop lock (curspl s) [F_cv_wait spl]
                           (set_curspl SPL_HIGH s)) as Hent.
  { intros r <-. cbn [resume]. unfold lock_acquire_from.
    destruct (lock =? NULL); cbn [negb]; [left; eexists; reflexivity|].
    right. reflexivity. }
  split; [|split; [|split]].
  - intros s' H. destruct (Hent _ H) as [[f Hf]|Hr]; [discriminate|].
    apply (Hok (curspl s) (set_curspl SPL_HIGH s) s'); [reflexivity|].
    symmetry. exact Hr.
  - intros key k s' H. destruct (Hent _ H) as [[f Hf]|Hr]; [discriminate|].
    apply (Hsl (curspl s) (set_curspl SPL_HIGH s) key k s'). symmetry. exact Hr.
  - intros spl1 s' H. apply (Hok spl1 s s'); [reflexivity|exact H].
  - intros spl1 key k s' H. apply (Hsl spl1 s key k s'). exact H.
Qed.

Lemma cv_wait_returns_with_the_lock_witness :
  exists s',
    resume (K_cv_wait 16 7) lock_irq_demo = Ok tt s'
    /\ lock_do_i_hold 16 s' = Ok 1 s'
    /\ curspl s' = 7.
Proof.
  eexists. split; [reflexivity|].
  match goal with |- lock_do_i_hold 16 ?s' = _ /\ _ =>
    destruct (cv_wait_returns_with_the_lock 16 7 lock_irq_demo) as [H _];
    destruct (H s' eq_refl) as (_ & H1 & H2) end.
  split; [exact H1|exact H2].
Defined.

(** ** A wake-up is a hint *)

Lemma switch_to_woken t k s :
  threads s !! t = Some (T_woken k) ->
  switch_to t s
  = match resume k (set_curthread t (set_threads (<[t:=T_ready]> (threads s)) s)) with
    | Ok _ s' | Sleep _ _ s' => Some s'
    | Fault _ _ => None
    end.
Proof. intros H. unfold switch_to, dispatch. rewrite H. reflexivity. Qed.

(** X14.  [lock_release] wakes every sleeper, and the first one to run gets
    the lock.  Let threads [t2] and [t3] sleep in [lock_acquire] on a
    lock.  After a [lock_release] (by any thread) both are runnable; when
    [t2] is switched to, its [lock_acquire] returns with [t2] as holder and
    its interrupt level restored; when [t3] is switched to after that, it
    finds the lock held by [t2] and sleeps on the lock again. *)
Theorem lock_release_then_first_wins lock l s t1 t2 t3 spl2 spl3 :
  lock <> NULL ->
  heap s !! lock = Some (O_lock l) ->
  threads s !! t2 = Some (T_asleep lock (K_lock_acquire lock spl2 [])) ->
  threads s !! t3 = Some (T_asleep lock (K_lock_acquire lock spl3 [])) ->
  t2 <> t3 ->
  exists s1 s2 s3,
    as_thread t1 (lock_release lock) s = Some s1
    /\ threads s1 !! t2 = Some (T_woken (K_lock_acquire lock spl2 []))
    /\ threads s1 !! t3 = Some (T_woken (K_lock_acquire lock spl3 []))
    /\ switch_to t2 s1 = Some s2
    /\ heap s2 !! lock = Some (O_lock (lock_taken l t2))
    /\ threads s2 !! t2 = Some T_ready
    /\ curspl s2 = spl2
    /\ switch_to t3 s2 = Some s3
    /\ heap s3 !! lock = Some (O_lock (lock_taken l t2))
    /\ threads s3 !! t2 = Some T_ready
    /\ threads s3 !! t3 = Some (T_asleep lock (K_lock_acquire lock spl3 [])).
Proof.
  intros Hp Hl Ht2 Ht3 Hne.
  set (s1 := set_curspl (curspl s)
               (wake_all lock
                  (set_heap (<[lock:=O_lock (lock_cleared l)]> (heap s))
                     (set_curspl SPL_HIGH (set_curthread t1 s))))).
  assert (as_thread t1 (lock_release lock) s = Some s1) as H1.
  { unfold as_thread.
    rewrite (lock_release_returns lock l (set_curthread t1 s) Hp Hl). reflexivity. }
  assert (threads s1 !! t2 = Some (T_woken (K_lock_acquire lock spl2 []))) as Hw2
    by (cbn; rewrite lookup_fmap, Ht2; cbn; rewrite Z.eqb_refl; reflexivity).
  assert (threads s1 !! t3 = Some (T_woken (K_lock_acquire lock spl3 []))) as Hw3
    by (cbn; rewrite lookup_fmap, Ht3; cbn; rewrite Z.eqb_refl; reflexivity).
  set (s1' := set_curthread t2 (set_threads (<[t2:=T_ready]> (threads s1)) s1)).
  set (s2 := set_curspl spl2
               (set_heap (<[lock:=O_lock (lock_taken (lock_cleared l) t2)]> (heap s1'))
                  s1')).
  assert (switch_to t2 s1 = Some s2) as H2.
  { rewrite (switch_to_woken t2 _ s1 Hw2). cbn [resume]. fold s1'.
    rewrite (lock_acquire_loop_takes lock spl2 (lock_cleared l) s1' Hp).
    - reflexivity.
    - cbn. apply lookup_insert_eq.
    - intros [H _]. discriminate. }
  assert (threads s2 !! t3 = Some (T_woken (K_lock_acquire lock spl3 []))) as Hw3'
    by (cbn; rewrite lookup_insert_ne by congruence; exact Hw3).
  set (s2' := set_curthread t3 (set_threads (<[t3:=T_ready]> (threads s2)) s2)).
  set (s3 := asleep_on lock (K_lock_acquire lock spl3 []) s2').
  assert (switch_to t3 s2 = Some s3) as H3.
  { rewrite (switch_to_woken t3 _ s2 Hw3'). cbn [resume]. fold s2'.
    rewrite (lock_acquire_loop_sleeps lock spl3 [] (lock_taken (lock_cleared l) t2) s2' Hp).
    - reflexivity.
    - cbn. apply lookup_insert_eq.
    - split; [reflexivity|]. cbn. exact Hne. }
  exists s1, s2, s3.
  split; [exact H1|]. split; [exact Hw2|]. split; [exact Hw3|].
  split; [exact H2|].
  split; [cbn; apply lookup_insert_eq|].
  split; [cbn; apply lookup_insert_eq|].
  split; [reflexivity|].
  split; [exact H3|].
  split; [cbn; apply lookup_insert_eq|].
  split.
  - cbn. rewrite !lookup_insert_ne by congruence. apply lookup_insert_eq.
  - cbn. apply lookup_insert_eq.
Qed.

Lemma lock_release_then_first_wins_witness :
  exists s1 s2 s3,
    as_thread 2 (lock_release 16)
      (set_threads (<[4:=T_asleep 16 (K_lock_acquire 16 0 [])]> (threads lock_demo))
         lock_demo) = Some s1
    /\ switch_to 3 s1 = Some s2
    /\ switch_to 4 s2 = Some s3
    /\ threads s3 !! 3 = Some T_ready
    /\ threads s3 !! 4 = Some (T_asleep 16 (K_lock_acquire 16 0 [])).
Proof.
  destruct (lock_release_then_first_wins 16
              {| lock_name := 17; lock_occupied := 1; lock_holder := 2 |}
              (set_threads (<[4:=T_asleep 16 (K_lock_acquire 16 0 [])]> (threads lock_demo))
                 lock_demo) 2 3 4 0 0)
    as (s1 & s2 & s3 & H1 & _ & _ & H2 & _ & _ & _ & H3 & _ & Hr & Ha).
  - discriminate.
  - reflexivity.
  - reflexivity.
  - reflexivity.
  - discriminate.
  - exists s1, s2, s3. auto.
Defined.

(** X15.  [V] wakes every sleeper, and one unit lets one of them through.
    Let threads [t1] and [t2] sleep in [P] on a semaphore with count 0.
    After one [V] (by any thread) both are runnable and the count is 1;
    when [t1] is switched to, its [P] returns and the count is 0 again;
    when [t2] is switched to after that, it finds the count 0 and sleeps on
    the semaphore again. *)
Theorem V_then_first_wins sem x s t0 t1 t2 spl1 spl2 :
  sem <> NULL ->
  heap s !! sem = Some (O_sem x) ->
  sem_count x = 0 ->
  threads s !! t1 = Some (T_asleep sem (K_P sem spl1)) ->
  threads s !! t2 = Some (T_asleep sem (K_P sem spl2)) ->
  t1 <> t2 ->
  exists s1 s2 s3,
    as_thread t0 (V sem) s = Some s1
    /\ heap s1 !! sem = Some (O_sem (with_sem_count 1 x))
    /\ threads s1 !! t1 = Some (T_woken (K_P sem spl1))
    /\ threads s1 !! t2 = Some (T_woken (K_P sem spl2))
    /\ switch_to t1 s1 = Some s2
    /\ heap s2 !! sem = Some (O_sem x)
    /\ threads s2 !! t1 = Some T_ready
    /\ curspl s2 = spl1
    /\ switch_to t2 s2 = Some s3
    /\ heap s3 !! sem = Some (O_sem x)
    /\ threads s3 !! t1 = Some T_ready
    /\ threads s3 !! t2 = Some (T_asleep sem (K_P sem spl2)).
Proof.
  intros Hp Hl H0 Ht1 Ht2 Hne.
  set (s1 := V_post sem x (set_curthread t0 s)).
  assert (as_thread t0 (V sem) s = Some s1) as H1.
  { unfold as_thread.
    rewrite (V_returns sem x (set_curthread t0 s) Hp Hl)
      by (rewrite H0; unfold INT_MAX; lia).
    reflexivity. }
  assert (with_sem_count 1 x = V_count x) as Hone
    by (unfold V_count; rewrite H0; reflexivity).
  assert (heap s1 !! sem = Some (O_sem (with_sem_count 1 x))) as Hl1
    by (rewrite Hone; cbn; apply lookup_insert_eq).
  assert (threads s1 !! t1 = Some (T_woken (K_P sem spl1))) as Hw1
    by (cbn; rewrite lookup_fmap, Ht1; cbn; rewrite Z.eqb_refl; reflexivity).
  assert (threads s1 !! t2 = Some (T_woken (K_P sem spl2))) as Hw2
    by (cbn; rewrite lookup_fmap, Ht2; cbn; rewrite Z.eqb_refl; reflexivity).
  set (s1' := set_curthread t1 (set_threads (<[t1:=T_ready]> (threads s1)) s1)).
  set (s2 := set_curspl spl1
               (set_heap
                  (<[sem:=O_sem (with_sem_count (sem_count (with_sem_count 1 x) - 1)
                                   (with_sem_count 1 x))]> (heap s1')) s1')).
  assert (switch_to t1 s1 = Some s2) as H2.
  { rewrite (switch_to_woken t1 _ s1 Hw1). cbn [resume]. fold s1'.
    rewrite (P_loop_takes sem spl1 (with_sem_count 1 x) s1' Hp).
    - reflexivity.
    - exact Hl1.
    - cbn. unfold INT_MAX. lia. }
  assert (heap s2 !! sem = Some (O_sem x)) as Hl2.
  { cbn. rewrite lookup_insert_eq. do 2 f_equal.
    destruct x; cbn in *; subst; reflexivity. }
  assert (threads s2 !! t2 = Some (T_woken (K_P sem spl2))) as Hw2'
    by (cbn; rewrite lookup_insert_ne by congruence; exact Hw2).
  set (s2' := set_curthread t2 (set_threads (<[t2:=T_ready]> (threads s2)) s2)).
  set (s3 := asleep_on sem (K_P sem spl2) s2').
  assert (switch_to t2 s2 = Some s3) as H3.
  { rewrite (switch_to_woken t2 _ s2 Hw2'). cbn [resume]. fold s2'.
    rewrite (P_loop_sleeps sem spl2 x s2' Hp Hl2 H0). reflexivity. }
  exists s1, s2, s3.
  split; [exact H1|]. split; [exact Hl1|]. split; [exact Hw1|]. split; [exact Hw2|].
  split; [exact H2|]. split; [exact Hl2|].
  split; [cbn; apply lookup_insert_eq|].
  split; [reflexivity|].
  split; [exact H3|].
  split; [exact Hl2|].
  split.
  - cbn. rewrite !lookup_insert_ne by congruence. apply lookup_insert_eq.
  - cbn. apply lookup_insert_eq.
Qed.

Lemma V_then_first_wins_witness :
  exists s1 s2 s3,
    as_thread 1 (V 16)
      (set_threads (<[3:=T_asleep 16 (K_P 16 0)]> (threads sem_demo)) sem_demo)
    = Some s1
    /\ switch_to 2 s1 = Some s2
    /\ switch_to 3 s2 = Some s3
    /\ threads s3 !! 2 = Some T_ready
    /\ threads s3 !! 3 = Some (T_asleep 16 (K_P 16 0)).
Proof.
  destruct (V_then_first_wins 16 {| sem_name := 17; sem_count := 0 |}
              (set_threads (<[3:=T_asleep 16 (K_P 16 0)]> (threads sem_demo)) sem_demo)
              1 2 3 0 0)
    as (s1 & s2 & s3 & H1 & _ & _ & _ & H2 & _ & _ & _ & H3 & _ & Hr & Ha).
  - discriminate.
  - reflexivity.
  - reflexivity.
  - reflexivity.
  - reflexivity.
  - discriminate.
  - exists s1, s2, s3. auto.
Defined.

(** ** Wait, signal, and back *)

Lemma lock_acquire_from_enters rest lock s :
  lock <> NULL ->
  lock_acquire_from rest lock s
  = lock_acquire_loop lock (curspl s) rest (set_curspl SPL_HIGH s).
Proof.
  intros Hp. unfold lock_acquire_from. rewrite (not_NULL_eqb lock Hp). reflexivity.
Qed.

(** X16.  One waiter, one signal.  Thread [a] holds the lock and calls
    [cv_wait] on an idle condition variable; thread [b] then acquires the
    lock (it is free) and calls [cv_signal].  The signal takes [a] off the
    queue and makes it runnable, and the condition variable is idle again,
    but [b] still holds the lock: if [a] is switched to now it sleeps on
    the lock.  After [b] has released the lock and [a] is switched to,
    [cv_wait] returns to [a] with [a] holding the lock and its interrupt
    level restored. *)
Theorem cv_wait_signal_hand_over c lock x l s a b :
  cv_at c x [] s ->
  cv_count x = 0 ->
  lock <> NULL ->
  heap s !! lock = Some (O_lock l) ->
  lock_holder l = a ->
  in_interrupt s = 0 ->
  a <> b ->
  exists s1 s2 s3 s4 s5 s6,
    as_thread a (cv_wait c lock) s = Some s1
    /\ threads s1 !! a = Some (T_asleep a (K_cv_wait lock (curspl s)))
    /\ as_thread b (lock_acquire lock) s1 = Some s2
    /\ heap s2 !! lock = Some (O_lock (lock_taken l b))
    /\ as_thread b (cv_signal c lock) s2 = Some s3
    /\ heap s3 !! c = Some (O_cv x)
    /\ heap s3 !! cv_thread_queue x = Some (O_queue [])
    /\ threads s3 !! a = Some (T_woken (K_cv_wait lock (curspl s)))
    /\ switch_to a s3 = Some s4
    /\ threads s4 !! a
       = Some (T_asleep lock (K_lock_acquire lock (curspl s3) [F_cv_wait (curspl s)]))
    /\ as_thread b (lock_release lock) s4 = Some s5
    /\ switch_to a s5 = Some s6
    /\ heap s6 !! lock = Some (O_lock (lock_taken l a))
    /\ heap s6 !! c = Some (O_cv x)
    /\ heap s6 !! cv_thread_queue x = Some (O_queue [])
    /\ threads s6 !! a = Some T_ready
    /\ curspl s6 = curspl s.
Proof.
  intros Hcv H0 Hp Hl Hme Hi Hab.
  assert (holds_lock lock (set_curthread a s)) as Hlock by (split; [exact Hp|eauto]).
  pose proof (cv_at_distinct _ _ _ _ Hcv) as Hne.
  destruct (holds_lock_distinct c x [] lock (set_curthread a s) Hcv Hlock) as [Hn1 Hn2].
  pose proof Hcv as (Hc & Hx & Hqp & Hq).
  (* a waits *)
  set (s1 := cv_wait_post l c lock x [] (set_curthread a s)).
  assert (as_thread a (cv_wait c lock) s = Some s1) as H1.
  { unfold as_thread.
    rewrite (cv_wait_sleeps c lock x l [] (set_curthread a s) Hcv Hp Hl Hme Hi)
      by (rewrite H0; unfold INT_MIN, INT_MAX; lia).
    reflexivity. }
  assert (heap s1 !! lock = Some (O_lock (lock_cleared l))) as Hl1
    by (cbn; rewrite !lookup_insert_ne by congruence; apply lookup_insert_eq).
  assert (heap s1 !! c = Some (O_cv (with_cv_count (cv_count x + 1) x))) as Hx1
    by (cbn; rewrite lookup_insert_ne by congruence; apply lookup_insert_eq).
  assert (heap s1 !! cv_thread_queue x = Some (O_queue [a])) as Hq1
    by (cbn; apply lookup_insert_eq).
  (* b takes the lock *)
  set (s2 := set_heap (<[lock:=O_lock (lock_taken l b)]> (heap s1)) (set_curthread b s1)).
  assert (as_thread b (lock_acquire lock) s1 = Some s2) as H2.
  { unfold as_thread. rewrite (lock_acquire_enters lock _ Hp).
    rewrite (lock_acquire_loop_takes lock _ (lock_cleared l) _ Hp).
    - reflexivity.
    - exact Hl1.
    - intros [H _]. discriminate. }
  assert (cv_at c (with_cv_count (cv_count x + 1) x) [a] (set_curthread b s2)) as Hcv2.
  { split; [exact Hc|]. split.
    - cbn. rewrite lookup_insert_ne by congruence. exact Hx1.
    - split; [exact Hqp|]. cbn. rewrite lookup_insert_ne by congruence. exact Hq1. }
  assert (holds_lock lock (set_curthread b s2)) as Hlock2.
  { split; [exact Hp|]. eexists. split; [cbn; apply lookup_insert_eq|reflexivity]. }
  (* b signals *)
  set (s3 := cv_signal_post c (with_cv_count (cv_count x + 1) x) a [] (set_curthread b s2)).
  assert (as_thread b (cv_signal c lock) s2 = Some s3) as H3.
  { unfold as_thread.
    rewrite (cv_signal_returns c lock _ a [] _ Hcv2 Hlock2)
      by (cbn; rewrite H0; unfold INT_MIN, INT_MAX; lia).
    reflexivity. }
  assert (heap s3 !! c = Some (O_cv x)) as Hx3.
  { cbn. rewrite lookup_insert_ne by congruence. rewrite lookup_insert_eq.
    do 2 f_equal. destruct x; cbn in *; subst; reflexivity. }
  assert (heap s3 !! cv_thread_queue x = Some (O_queue [])) as Hq3
    by (cbn; apply lookup_insert_eq).
  assert (heap s3 !! lock = Some (O_lock (lock_taken l b))) as Hl3
    by (cbn; rewrite !lookup_insert_ne by congruence; apply lookup_insert_eq).
  assert (threads s3 !! a = Some (T_woken (K_cv_wait lock (curspl s)))) as Hw3.
  { cbn. rewrite lookup_fmap, lookup_insert_eq. cbn. rewrite Z.eqb_refl. reflexivity. }
  (* a is switched to while b holds the lock *)
  set (s3' := set_curthread a (set_threads (<[a:=T_ready]> (threads s3)) s3)).
  set (k4 := K_lock_acquire lock (curspl s3) [F_cv_wait (curspl s)]).
  set (s4 := asleep_on lock k4 (set_curspl SPL_HIGH s3')).
  assert (switch_to a s3 = Some s4) as H4.
  { rewrite (switch_to_woken a _ s3 Hw3). cbn [resume].
    rewrite (lock_acquire_from_enters _ lock _ Hp).
    rewrite (lock_acquire_loop_sleeps lock _ _ (lock_taken l b) _ Hp).
    - reflexivity.
    - exact Hl3.
    - split; [reflexivity|]. cbn. congruence. }
  assert (heap s4 !! lock = Some (O_lock (lock_taken l b))) as Hl4 by exact Hl3.
  (* b releases *)
  set (s5 := set_curspl (curspl (set_curthread b s4))
               (wake_all lock
                  (set_heap (<[lock:=O_lock (lock_cleared (lock_taken l b))]>
                               (heap (set_curthread b s4)))
                     (set_curspl SPL_HIGH (set_curthread b s4))))).
  assert (as_thread b (lock_release lock) s4 = Some s5) as H5.
  { unfold as_thread.
    rewrite (lock_release_returns lock (lock_taken l b) (set_curthread b s4) Hp Hl4).
    reflexivity. }
  assert (threads s5 !! a = Some (T_woken k4)) as Hw5.
  { cbn. rewrite lookup_fmap, lookup_insert_eq. cbn. rewrite Z.eqb_refl. reflexivity. }
  (* a is switched to again *)
  set (s5' := set_curthread a (set_threads (<[a:=T_ready]> (threads s5)) s5)).
  set (s6 := set_curspl (curspl s)
               (set_heap
                  (<[lock:=O_lock (lock_taken (lock_cleared (lock_taken l b)) a)]>
                     (heap s5')) s5')).
  assert (switch_to a s5 = Some s6) as H6.
  { rewrite (switch_to_woken a _ s5 Hw5). unfold k4. cbn [resume]. fold s5'.
    rewrite (lock_acquire_loop_takes_in_cv_wait lock _ _
               (lock_cleared (lock_taken l b)) s5' Hp).
    - reflexivity.
    - cbn. apply lookup_insert_eq.
    - intros [H _]. discriminate. }
  exists s1, s2, s3, s4, s5, s6.
  split; [exact H1|].
  split; [cbn; apply lookup_insert_eq|].
  split; [exact H2|].
  split; [cbn; apply lookup_insert_eq|].
  split; [exact H3|]. split; [exact Hx3|]. split; [exact Hq3|]. split; [exact Hw3|].
  split; [exact H4|].
  split; [cbn; apply lookup_insert_eq|].
  split; [exact H5|]. split; [exact H6|].
  split; [cbn; apply lookup_insert_eq|].
  assert (forall p, p <> lock -> heap s6 !! p = heap s3 !! p) as Hsame
    by (intros p Hpl; cbn; rewrite !lookup_insert_ne by congruence; reflexivity).
  split; [rewrite Hsame by congruence; exact Hx3|].
  split; [rewrite Hsame by congruence; exact Hq3|].
  split; [cbn; apply lookup_insert_eq|].
  reflexivity.
Qed.

Lemma cv_wait_signal_hand_over_witness :
  exists s1 s2 s3 s4 s5 s6,
    as_thread 1 (cv_wait 16 18) cv_idle_demo = Some s1
    /\ as_thread 2 (lock_acquire 18) s1 = Some s2
    /\ as_thread 2 (cv_signal 16 18) s2 = Some s3
    /\ switch_to 1 s3 = Some s4
    /\ as_thread 2 (lock_release 18) s4 = Some s5
    /\ switch_to 1 s5 = Some s6
    /\ threads s6 !! 1 = Some T_ready
    /\ heap s6 !! 18
       = Some (O_lock {| lock_name := 20; lock_occupied := 1; lock_holder := 1 |}).
Proof.
  destruct (cv_wait_signal_hand_over 16 18
              {| cv_name := 17; cv_count := 0; cv_thread_queue := 19 |}
              {| lock_name := 20; lock_occupied := 1; lock_holder := 1 |}
              cv_idle_demo 1 2)
    as (s1 & s2 & s3 & s4 & s5 & s6 & H1 & _ & H2 & _ & H3 & _ & _ & _ & H4 & _
        & H5 & H6 & Hl & _ & _ & Hr & _).
  - split; [discriminate|split; [reflexivity|split; [discriminate|reflexivity]]].
  - reflexivity.
  - discriminate.
  - reflexivity.
  - reflexivity.
  - reflexivity.
  - discriminate.
  - exists s1, s2, s3, s4, s5, s6. repeat (split; [assumption|]). exact Hl.
Defined.

(** ** What a call may and may not do *)

Lemma bind_Ok_inv {A B} (m : M A) (f : A -> M B) s b s' :
  bind m f s = Ok b s' -> exists a s1, m s = Ok a s1 /\ f a s1 = Ok b s'.
Proof.
  unfold bind. destruct (m s) as [a s1| |]; try discriminate. eauto.
Qed.

Lemma bind_Sleep_inv {A B} (m : M A) (f : A -> M B) s key k s' :
  bind m f s = Sleep key k s' ->
  m s = Sleep key k s' \/ exists a s1, m s = Ok a s1 /\ f a s1 = Sleep key k s'.
Proof.
  unfold bind. destruct (m s) as [a s1|key1 k1 s1|]; try discriminate.
  - eauto.
  - intros [= -> -> ->]. auto.
Qed.

Section Respects.

Variable R : kstate -> kstate -> Prop.
Hypothesis R_refl : forall s, R s s.
Hypothesis R_trans : forall s1 s2 s3, R s1 s2 -> R s2 s3 -> R s1 s3.

Lemma respects_bind {A B} (m : M A) (f : A -> M B) :
  respects R m -> (forall a, respects R (f a)) -> respects R (bind m f).
Proof.
  intros Hm Hf s. unfold bind. specialize (Hm s).
  destruct (m s) as [a s1|key k s1|e s1]; cbn in *; [|exact Hm|exact Hm].
  exact (R_trans _ _ _ Hm (Hf a s1)).
Qed.

Lemma respects_pure {A} (m : M A) :
  respects (fun s s' => s' = s) m -> respects R m.
Proof. intros H s. rewrite (H s). apply R_refl. Qed.

Lemma respects_if {A} (b : bool) (m1 m2 : M A) :
  respects R m1 -> respects R m2 -> respects R (if b then m1 else m2).
Proof. destruct b; auto. Qed.

End Respects.

(** *** Calls that leave the state alone *)

Lemma pure_ret {A} (a : A) : respects (fun s s' => s' = s) (ret a).
Proof. intros s. reflexivity. Qed.

Lemma pure_get {A} (f : kstate -> A) : respects (fun s s' => s' = s) (get f).
Proof. intros s. reflexivity. Qed.

Lemma pure_raise {A} e : respects (fun s s' => s' = s) (@raise A e).
Proof. intros s. reflexivity. Qed.

Lemma pure_assert line b : respects (fun s s' => s' = s) (assert_ line b).
Proof. intros s. destruct b; reflexivity. Qed.

Lemma pure_load p : respects (fun s s' => s' = s) (load p).
Proof.
  intros s. unfold load. destruct (p =? NULL); [reflexivity|].
  destruct (heap s !! p); reflexivity.
Qed.

Lemma pure_bind {A B} (m : M A) (f : A -> M B) :
  respects (fun s s' => s' = s) m ->
  (forall a, respects (fun s s' => s' = s) (f a)) ->
  respects (fun s s' => s' = s) (bind m f).
Proof.
  apply respects_bind. intros s1 s2 s3 H1 H2. congruence.
Qed.

Lemma pure_rd_sem p : respects (fun s s' => s' = s) (rd_sem p).
Proof.
  apply pure_bind; [apply pure_load|]. intros []; first [apply pure_ret|apply pure_raise].
Qed.

Lemma pure_rd_lock p : respects (fun s s' => s' = s) (rd_lock p).
Proof.
  apply pure_bind; [apply pure_load|]. intros []; first [apply pure_ret|apply pure_raise].
Qed.

Lemma pure_rd_cv p : respects (fun s s' => s' = s) (rd_cv p).
Proof.
  apply pure_bind; [apply pure_load|]. intros []; first [apply pure_ret|apply pure_raise].
Qed.

Lemma pure_rd_queue p : respects (fun s s' => s' = s) (rd_queue p).
Proof.
  apply pure_bind; [apply pure_load|]. intros []; first [apply pure_ret|apply pure_raise].
Qed.

Lemma pure_thread_hassleepers key :
  respects (fun s s' => s' = s) (thread_hassleepers key).
Proof. apply pure_get. Qed.

Lemma pure_q_preallocate q size : respects (fun s s' => s' = s) (q_preallocate q size).
Proof. apply pure_bind; [apply pure_rd_queue|]. intros l. apply pure_ret. Qed.

Lemma pure_q_empty q : respects (fun s s' => s' = s) (q_empty q).
Proof. apply pure_bind; [apply pure_rd_queue|]. intros l. apply pure_ret. Qed.

Lemma pure_lock_do_i_hold lock : respects (fun s s' => s' = s) (lock_do_i_hold lock).
Proof.
  apply pure_bind; [apply pure_rd_lock|]. intros l.
  apply pure_bind; [apply pure_get|]. intros me. apply pure_ret.
Qed.

(** *** Calls that never sleep *)

Lemma never_sleeps_bind {A B} (m : M A) (f : A -> M B) :
  never_sleeps m -> (forall a, never_sleeps (f a)) -> never_sleeps (bind m f).
Proof.
  intros Hm Hf s key k s' H.
  destruct (bind_Sleep_inv _ _ _ _ _ _ H) as [H1|(a & s1 & _ & H2)].
  - exact (Hm _ _ _ _ H1).
  - exact (Hf _ _ _ _ _ H2).
Qed.

Lemma never_sleeps_if {A} (b : bool) (m1 m2 : M A) :
  never_sleeps m1 -> never_sleeps m2 -> never_sleeps (if b then m1 else m2).
Proof. destruct b; auto. Qed.

Lemma never_sleeps_ret {A} (a : A) : never_sleeps (ret a).
Proof. intros s key k s'. discriminate. Qed.

Lemma never_sleeps_get {A} (f : kstate -> A) : never_sleeps (get f).
Proof. intros s key k s'. discriminate. Qed.

Lemma never_sleeps_modify f : never_sleeps (modify f).
Proof. intros s key k s'. discriminate. Qed.

Lemma never_sleeps_raise {A} e : never_sleeps (@raise A e).
Proof. intros s key k s'. discriminate. Qed.

Lemma never_sleeps_assert line b : never_sleeps (assert_ line b).
Proof. destruct b; [apply never_sleeps_ret|apply never_sleeps_raise]. Qed.

Lemma never_sleeps_load p : never_sleeps (load p).
Proof.
  intros s key k s'. unfold load. destruct (p =? NULL); [discriminate|].
  destruct (heap s !! p); discriminate.
Qed.

Lemma never_sleeps_splx l : never_sleeps (splx l).
Proof. intros s key k s'. discriminate. Qed.

Lemma never_sleeps_kmalloc : never_sleeps kmalloc.
Proof. intros s key k s'. unfold kmalloc. destruct (kmem s); discriminate. Qed.

Create HintDb awake discriminated.

#[local] Hint Resolve never_sleeps_ret never_sleeps_get never_sleeps_modify
  never_sleeps_raise never_sleeps_assert never_sleeps_load never_sleeps_splx
  never_sleeps_kmalloc : awake.

Ltac awake :=
  repeat first
    [ progress auto with awake
    | apply never_sleeps_bind; [|intros ?]
    | apply never_sleeps_if
    | match goal with
      | |- never_sleeps (match ?x with _ => _ end) => destruct x
      end ].

Lemma never_sleeps_store p o : never_sleeps (store p o).
Proof. unfold store. awake. Qed.
Lemma never_sleeps_kfree p : never_sleeps (kfree p).
Proof. unfold kfree. awake. Qed.
Lemma never_sleeps_thread_wakeup key : never_sleeps (thread_wakeup key).
Proof. unfold thread_wakeup. awake. Qed.
Lemma never_sleeps_thread_hassleepers key : never_sleeps (thread_hassleepers key).
Proof. unfold thread_hassleepers. awake. Qed.
Lemma never_sleeps_splhigh : never_sleeps splhigh.
Proof. unfold splhigh. awake. Qed.

#[local] Hint Resolve never_sleeps_store never_sleeps_kfree never_sleeps_thread_wakeup
  never_sleeps_thread_hassleepers never_sleeps_splhigh : awake.

Lemma never_sleeps_rd_sem p : never_sleeps (rd_sem p).
Proof. unfold rd_sem. awake. Qed.
Lemma never_sleeps_rd_lock p : never_sleeps (rd_lock p).
Proof. unfold rd_lock. awake. Qed.
Lemma never_sleeps_rd_cv p : never_sleeps (rd_cv p).
Proof. unfold rd_cv. awake. Qed.
Lemma never_sleeps_rd_queue p : never_sleeps (rd_queue p).
Proof. unfold rd_queue. awake. Qed.

#[local] Hint Resolve never_sleeps_rd_sem never_sleeps_rd_lock never_sleeps_rd_cv
  never_sleeps_rd_queue : awake.

Lemma never_sleeps_upd_sem p f : never_sleeps (upd_sem p f).
Proof. unfold upd_sem. awake. Qed.
Lemma never_sleeps_upd_lock p f : never_sleeps (upd_lock p f).
Proof. unfold upd_lock. awake. Qed.
Lemma never_sleeps_upd_cv p f : never_sleeps (upd_cv p f).
Proof. unfold upd_cv. awake. Qed.
Lemma never_sleeps_kstrdup str : never_sleeps (kstrdup str).
Proof. unfold kstrdup. awake. Qed.
Lemma never_sleeps_q_create size : never_sleeps (q_create size).
Proof. unfold q_create. awake. Qed.
Lemma never_sleeps_q_preallocate q size : never_sleeps (q_preallocate q size).
Proof. unfold q_preallocate. awake. Qed.
Lemma never_sleeps_q_empty q : never_sleeps (q_empty q).
Proof. unfold q_empty. awake. Qed.
Lemma never_sleeps_q_addtail q x : never_sleeps (q_addtail q x).
Proof. unfold q_addtail. awake. Qed.
Lemma never_sleeps_q_remhead q : never_sleeps (q_remhead q).
Proof. unfold q_remhead. awake. Qed.
Lemma never_sleeps_q_destroy q : never_sleeps (q_destroy q).
Proof. unfold q_destroy. awake. Qed.

#[local] Hint Resolve never_sleeps_upd_sem never_sleeps_upd_lock never_sleeps_upd_cv
  never_sleeps_kstrdup never_sleeps_q_create never_sleeps_q_preallocate
  never_sleeps_q_empty never_sleeps_q_addtail never_sleeps_q_remhead
  never_sleeps_q_destroy : awake.

Lemma never_sleeps_lock_do_i_hold lock : never_sleeps (lock_do_i_hold lock).
Proof. unfold lock_do_i_hold. awake. Qed.
Lemma never_sleeps_lock_release lock : never_sleeps (lock_release lock).
Proof. unfold lock_release. awake. Qed.
Lemma never_sleeps_cv_signal c lock : never_sleeps (cv_signal c lock).
Proof.
  unfold cv_signal. pose proof (never_sleeps_lock_do_i_hold lock). awake.
Qed.
Lemma never_sleeps_cv_broadcast_loop fuel c lock :
  never_sleeps (cv_broadcast_loop fuel c lock).
Proof.
  induction fuel as [|fuel IH]; cbn [cv_broadcast_loop]; [awake|].
  pose proof (never_sleeps_cv_signal c lock). awake.
Qed.

Lemma never_sleeps_cv_broadcast_fuel fuel c lock :
  never_sleeps (cv_broadcast_fuel fuel c lock).
Proof.
  unfold cv_broadcast_fuel.
  pose proof (never_sleeps_lock_do_i_hold lock).
  pose proof (never_sleeps_cv_broadcast_loop fuel c lock).
  awake.
Qed.

(** X17.  Which calls can block.  [sem_create], [sem_destroy], [V],
    [lock_create], [lock_destroy], [lock_release], [lock_do_i_hold],
    [cv_create], [cv_destroy], [cv_signal] and [cv_broadcast] never put
    their caller to sleep, in any state and with any arguments: each of
    them returns or faults.  (The other three, [P], [lock_acquire] and
    [cv_wait], are the only ones that call [thread_sleep].) *)
Theorem only_P_acquire_wait_sleep name n sem lock c :
  never_sleeps (sem_create name n)
  /\ never_sleeps (sem_destroy sem)
  /\ never_sleeps (V sem)
  /\ never_sleeps (lock_create name)
  /\ never_sleeps (lock_destroy lock)
  /\ never_sleeps (lock_release lock)
  /\ never_sleeps (lock_do_i_hold lock)
  /\ never_sleeps (cv_create name)
  /\ never_sleeps (cv_destroy c)
  /\ never_sleeps (cv_signal c lock)
  /\ never_sleeps (cv_broadcast c lock).
Proof.
  pose proof (never_sleeps_lock_do_i_hold lock) as Hh.
  split; [unfold sem_create; awake|].
  split; [unfold sem_destroy; awake|].
  split; [unfold V; awake|].
  split; [unfold lock_create; awake|].
  split; [unfold lock_destroy; awake|].
  split; [apply never_sleeps_lock_release|].
  split; [exact Hh|].
  split; [unfold cv_create; awake|].
  split; [unfold cv_destroy; awake|].
  split; [apply never_sleeps_cv_signal|].
  intros s key k s'. unfold cv_broadcast. apply never_sleeps_cv_broadcast_fuel.
Qed.

(** *** The interrupt level on return *)

Lemma level_kept_of_respects {A} (m : M A) : respects same_level m -> level_kept m.
Proof. intros H s a s' Hm. specialize (H s). rewrite Hm in H. exact H. Qed.

Lemma same_level_of_pure {A} (m : M A) :
  respects (fun s s' => s' = s) m -> respects same_level m.
Proof. apply respects_pure. intros s. reflexivity. Qed.

Lemma level_kept_pure {A} (m : M A) :
  respects (fun s s' => s' = s) m -> level_kept m.
Proof. intros H. apply level_kept_of_respects, same_level_of_pure, H. Qed.

Lemma level_kept_bind {A B} (m : M A) (f : A -> M B) :
  level_kept m -> (forall a, level_kept (f a)) -> level_kept (bind m f).
Proof.
  intros Hm Hf s b s' H.
  destruct (bind_Ok_inv _ _ _ _ _ H) as (a & s1 & H1 & H2).
  rewrite (Hf _ _ _ _ H2). exact (Hm _ _ _ H1).
Qed.

Lemma level_kept_if {A} (b : bool) (m1 m2 : M A) :
  level_kept m1 -> level_kept m2 -> level_kept (if b then m1 else m2).
Proof. destruct b; auto. Qed.

Lemma level_kept_modify f :
  (forall s, curspl (f s) = curspl s) -> level_kept (modify f).
Proof. intros H s a s' Hm. injection Hm as Hm. subst s'. apply H. Qed.

Lemma level_kept_ret {A} (a : A) : level_kept (ret a).
Proof. apply level_kept_pure, pure_ret. Qed.
Lemma level_kept_get {A} (f : kstate -> A) : level_kept (get f).
Proof. apply level_kept_pure, pure_get. Qed.
Lemma level_kept_raise {A} e : level_kept (@raise A e).
Proof. apply level_kept_pure, pure_raise. Qed.
Lemma level_kept_assert line b : level_kept (assert_ line b).
Proof. apply level_kept_pure, pure_assert. Qed.
Lemma level_kept_rd_sem p : level_kept (rd_sem p).
Proof. apply level_kept_pure, pure_rd_sem. Qed.
Lemma level_kept_rd_lock p : level_kept (rd_lock p).
Proof. apply level_kept_pure, pure_rd_lock. Qed.
Lemma level_kept_rd_cv p : level_kept (rd_cv p).
Proof. apply level_kept_pure, pure_rd_cv. Qed.
Lemma level_kept_rd_queue p : level_kept (rd_queue p).
Proof. apply level_kept_pure, pure_rd_queue. Qed.
Lemma level_kept_thread_hassleepers key : level_kept (thread_hassleepers key).
Proof. apply level_kept_pure, pure_thread_hassleepers. Qed.
Lemma level_kept_q_empty q : level_kept (q_empty q).
Proof. apply level_kept_pure, pure_q_empty. Qed.
Lemma level_kept_q_preallocate q size : level_kept (q_preallocate q size).
Proof. apply level_kept_pure, pure_q_preallocate. Qed.
Lemma level_kept_lock_do_i_hold lock : level_kept (lock_do_i_hold lock).
Proof. apply level_kept_pure, pure_lock_do_i_hold. Qed.
Lemma level_kept_store p o : level_kept (store p o).
Proof. apply level_kept_modify. reflexivity. Qed.
Lemma level_kept_kfree p : level_kept (kfree p).
Proof. apply level_kept_modify. reflexivity. Qed.
Lemma level_kept_thread_wakeup key : level_kept (thread_wakeup key).
Proof. apply level_kept_modify. reflexivity. Qed.
Lemma level_kept_kmalloc : level_kept kmalloc.
Proof.
  intros s a s'. unfold kmalloc. destruct (kmem s); intros [= <- <-]; reflexivity.
Qed.
Lemma level_kept_thread_sleep {A} key k : level_kept (@thread_sleep A key k).
Proof. intros s a s'. discriminate. Qed.

Create HintDb level discriminated.

#[local] Hint Resolve level_kept_ret level_kept_get level_kept_raise level_kept_assert
  level_kept_rd_sem level_kept_rd_lock level_kept_rd_cv level_kept_rd_queue
  level_kept_thread_hassleepers level_kept_q_empty level_kept_q_preallocate
  level_kept_lock_do_i_hold level_kept_store level_kept_kfree
  level_kept_thread_wakeup level_kept_kmalloc level_kept_thread_sleep : level.

Ltac level :=
  repeat first
    [ progress auto with level
    | apply level_kept_bind; [|intros ?]
    | apply level_kept_if
    | match goal with
      | |- level_kept (match ?x with _ => _ end) => destruct x
      end ].

Lemma level_kept_upd_sem p f : level_kept (upd_sem p f).
Proof. unfold upd_sem. level. Qed.
Lemma level_kept_upd_lock p f : level_kept (upd_lock p f).
Proof. unfold upd_lock. level. Qed.
Lemma level_kept_upd_cv p f : level_kept (upd_cv p f).
Proof. unfold upd_cv. level. Qed.
Lemma level_kept_kstrdup str : level_kept (kstrdup str).
Proof. unfold kstrdup. level. Qed.
Lemma level_kept_q_create size : level_kept (q_create size).
Proof. unfold q_create. level. Qed.
Lemma level_kept_q_addtail q x : level_kept (q_addtail q x).
Proof. unfold q_addtail. level. Qed.
Lemma level_kept_q_remhead q : level_kept (q_remhead q).
Proof. unfold q_remhead. level. Qed.
Lemma level_kept_q_destroy q : level_kept (q_destroy q).
Proof. unfold q_destroy. level. Qed.

#[local] Hint Resolve level_kept_upd_sem level_kept_upd_lock level_kept_upd_cv
  level_kept_kstrdup level_kept_q_create level_kept_q_addtail level_kept_q_remhead
  level_kept_q_destroy : level.

Lemma returns_at_bind spl {A B} (m : M A) (f : A -> M B) :
  (forall a, returns_at spl (f a)) -> returns_at spl (bind m f).
Proof.
  intros Hf s b s' H.
  destruct (bind_Ok_inv _ _ _ _ _ H) as (a & s1 & _ & H2).
  exact (Hf _ _ _ _ H2).
Qed.

Lemma returns_at_splx spl {A} (m : M A) :
  level_kept m -> returns_at spl (splx spl ;; m).
Proof.
  intros Hm s a s' H.
  destruct (bind_Ok_inv _ _ _ _ _ H) as (old & s1 & H1 & H2).
  injection H1 as _ <-. rewrite (Hm _ _ _ H2). reflexivity.
Qed.

Lemma returns_at_if spl {A} (b : bool) (m1 m2 : M A) :
  returns_at spl m1 -> returns_at spl m2 -> returns_at spl (if b then m1 else m2).
Proof. destruct b; auto. Qed.

Lemma returns_at_thread_sleep spl {A} key k : returns_at spl (@thread_sleep A key k).
Proof. intros s a s'. discriminate. Qed.

Lemma level_kept_guard {A} (rest : Z -> M A) :
  (forall spl, returns_at spl (rest spl)) -> level_kept (spl <- splhigh ;; rest spl).
Proof.
  intros Hr s a s' H.
  destruct (bind_Ok_inv _ _ _ _ _ H) as (old & s1 & H1 & H2).
  injection H1 as <- <-. exact (Hr _ _ _ _ H2).
Qed.

Ltac returns :=
  repeat first
    [ apply returns_at_thread_sleep
    | apply returns_at_splx; level
    | apply returns_at_bind; intros ?
    | apply returns_at_if ].

Ltac guarded :=
  repeat first
    [ progress auto with level
    | apply level_kept_guard; intros ?; returns
    | apply level_kept_bind; [|intros ?]
    | apply level_kept_if
    | match goal with
      | |- level_kept (match ?x with _ => _ end) => destruct x
      end ].

Lemma level_kept_lock_release lock : level_kept (lock_release lock).
Proof. unfold lock_release. guarded. Qed.

Lemma level_kept_cv_signal c lock : level_kept (cv_signal c lock).
Proof. unfold cv_signal. guarded. Qed.

Lemma level_kept_cv_broadcast_loop fuel c lock :
  level_kept (cv_broadcast_loop fuel c lock).
Proof.
  induction fuel as [|fuel IH]; cbn [cv_broadcast_loop]; [level|].
  pose proof (level_kept_cv_signal c lock). level.
Qed.

Lemma level_kept_cv_broadcast_fuel fuel c lock :
  level_kept (cv_broadcast_fuel fuel c lock).
Proof.
  unfold cv_broadcast_fuel.
  pose proof (level_kept_cv_broadcast_loop fuel c lock). level.
Qed.

Lemma never_returns_bind {A B} (m : M A) (f : A -> M B) :
  (forall a, never_returns (f a)) -> never_returns (bind m f).
Proof.
  intros Hf s b s' H.
  destruct (bind_Ok_inv _ _ _ _ _ H) as (a & s1 & _ & H2).
  exact (Hf _ _ _ _ H2).
Qed.

(** X18.  The interrupt level is given back on every return.  Whatever the
    state and the arguments, when one of the operations returns, the
    interrupt level is what it was when the operation was called: every
    [splhigh] is matched by its [splx] on the paths that return.  [cv_wait]
    never returns at once (it sleeps or faults); a thread woken inside [P]
    or [lock_acquire] returns at the level saved when it called. *)
Theorem interrupt_level_restored name n sem lock c :
  level_kept (sem_create name n)
  /\ level_kept (sem_destroy sem)
  /\ level_kept (P sem)
  /\ level_kept (V sem)
  /\ level_kept (lock_create name)
  /\ level_kept (lock_destroy lock)
  /\ level_kept (lock_acquire lock)
  /\ level_kept (lock_release lock)
  /\ level_kept (lock_do_i_hold lock)
  /\ level_kept (cv_create name)
  /\ level_kept (cv_destroy c)
  /\ level_kept (cv_signal c lock)
  /\ level_kept (cv_broadcast c lock)
  /\ never_returns (cv_wait c lock)
  /\ (forall spl, returns_at spl (resume (K_P sem spl)))
  /\ (forall spl, returns_at spl (resume (K_lock_acquire lock spl []))).
Proof.
  split; [unfold sem_create; guarded|].
  split; [unfold sem_destroy; guarded|].
  split; [unfold P, P_loop; guarded|].
  split; [unfold V; guarded|].
  split; [unfold lock_create; guarded|].
  split; [unfold lock_destroy; guarded|].
  split; [unfold lock_acquire, lock_acquire_from, lock_acquire_loop; cbn [unwind];
          guarded|].
  split; [apply level_kept_lock_release|].
  split; [auto with level|].
  split; [unfold cv_create; guarded|].
  split; [unfold cv_destroy; guarded|].
  split; [apply level_kept_cv_signal|].
  split.
  { intros s a s'. unfold cv_broadcast. apply level_kept_cv_broadcast_fuel. }
  split.
  { unfold cv_wait. repeat (apply never_returns_bind; intros ?).
    intros s0 r0 s1. discriminate. }
  split.
  - intros spl. cbn [resume]. unfold P_loop. returns.
  - intros spl. cbn [resume]. unfold lock_acquire_loop. cbn [unwind]. returns.
Qed.

(** *** Memory is rewritten in place, by kind *)

Lemma in_place_refl K s : in_place K s s.
Proof.
  split; [|auto]. intros p. destruct (heap s !! p) as [o|]; [|reflexivity].
  exists o. auto.
Qed.

Lemma in_place_trans K s1 s2 s3 :
  in_place K s1 s2 -> in_place K s2 s3 -> in_place K s1 s3.
Proof.
  intros (H1 & Ha & Hb & Hc & Hd) (H2 & Ha' & Hb' & Hc' & Hd').
  split; [|repeat split; congruence].
  intros p. specialize (H1 p). specialize (H2 p).
  destruct (heap s1 !! p) as [o|].
  - destruct H1 as (o' & Ho' & Hk & Hsame). rewrite Ho' in H2.
    destruct H2 as (o'' & Ho'' & Hk' & Hsame').
    exists o''. split; [exact Ho''|]. split; [congruence|].
    intros HK. rewrite Hsame' by (rewrite Hk; exact HK). apply Hsame. exact HK.
  - rewrite H1 in H2. exact H2.
Qed.

Lemma in_place_mono (K K' : kind -> bool) s s' :
  (forall k, K k = true -> K' k = true) -> in_place K s s' -> in_place K' s s'.
Proof.
  intros Hsub (H & Hrest). split; [|exact Hrest].
  intros p. specialize (H p). destruct (heap s !! p) as [o|]; [|exact H].
  destruct H as (o' & Ho' & Hk & Hsame). exists o'. split; [exact Ho'|].
  split; [exact Hk|]. intros HK'. apply Hsame.
  destruct (K (kind_of o)) eqn:E; [|reflexivity].
  rewrite (Hsub _ E) in HK'. discriminate.
Qed.

Lemma in_place_bind K {A B} (m : M A) (f : A -> M B) :
  respects (in_place K) m -> (forall a, respects (in_place K) (f a)) ->
  respects (in_place K) (bind m f).
Proof. apply respects_bind. apply in_place_trans. Qed.

Lemma in_place_pure K {A} (m : M A) :
  respects (fun s s' => s' = s) m -> respects (in_place K) m.
Proof. apply respects_pure. apply in_place_refl. Qed.

Lemma in_place_same_heap K s s' :
  heap s' = heap s -> curthread s' = curthread s -> in_interrupt s' = in_interrupt s ->
  brk s' = brk s -> kmem s' = kmem s -> in_place K s s'.
Proof.
  intros Hh Ha Hb Hc Hd. split; [|auto]. intros p. rewrite Hh.
  destruct (heap s !! p) as [o|]; [|reflexivity]. exists o. auto.
Qed.

Lemma in_place_insert K s p o o' :
  heap s !! p = Some o -> kind_of o' = kind_of o -> K (kind_of o) = true ->
  in_place K s (set_heap (<[p:=o']> (heap s)) s).
Proof.
  intros Hl Hk HK. split; [|cbn; auto]. intros q. cbn.
  destruct (decide (q = p)) as [->|Hne].
  - rewrite Hl, lookup_insert_eq. exists o'. split; [reflexivity|].
    split; [exact Hk|]. intros HK'. congruence.
  - rewrite lookup_insert_ne by congruence.
    destruct (heap s !! q) as [o0|]; [|reflexivity]. exists o0. auto.
Qed.

Lemma in_place_modify K f :
  (forall s, in_place K s (f s)) -> respects (in_place K) (modify f).
Proof. intros H s. apply H. Qed.

Lemma in_place_thread_wakeup K key : respects (in_place K) (thread_wakeup key).
Proof. apply in_place_modify. intros s. apply in_place_same_heap; reflexivity. Qed.

Lemma in_place_thread_sleep K {A} key k : respects (in_place K) (@thread_sleep A key k).
Proof. intros s. apply in_place_same_heap; reflexivity. Qed.

Lemma in_place_splx K l : respects (in_place K) (splx l).
Proof. intros s. apply in_place_same_heap; reflexivity. Qed.

Lemma in_place_upd_sem K p f :
  K k_sem = true -> respects (in_place K) (upd_sem p f).
Proof.
  intros HK s. unfold upd_sem.
  destruct (rd_sem_cases p s) as [(x & Hr & _ & Hl)|Hf].
  - rewrite (bind_Ok _ _ _ _ _ Hr). cbn.
    apply (in_place_insert K s p (O_sem x)); [exact Hl|reflexivity|exact HK].
  - rewrite (bind_Fault _ _ _ _ _ Hf). apply in_place_refl.
Qed.

Lemma in_place_upd_lock K p f :
  K k_lock = true -> respects (in_place K) (upd_lock p f).
Proof.
  intros HK s. unfold upd_lock.
  destruct (rd_lock_cases p s) as [(x & Hr & _ & Hl)|Hf].
  - rewrite (bind_Ok _ _ _ _ _ Hr). cbn.
    apply (in_place_insert K s p (O_lock x)); [exact Hl|reflexivity|exact HK].
  - rewrite (bind_Fault _ _ _ _ _ Hf). apply in_place_refl.
Qed.

Lemma in_place_upd_cv K p f :
  K k_cv = true -> respects (in_place K) (upd_cv p f).
Proof.
  intros HK s. unfold upd_cv.
  destruct (rd_cv_cases p s) as [(x & Hr & _ & Hl)|Hf].
  - rewrite (bind_Ok _ _ _ _ _ Hr). cbn.
    apply (in_place_insert K s p (O_cv x)); [exact Hl|reflexivity|exact HK].
  - rewrite (bind_Fault _ _ _ _ _ Hf). apply in_place_refl.
Qed.

Lemma in_place_q_addtail K q x :
  K k_queue = true -> respects (in_place K) (q_addtail q x).
Proof.
  intros HK s. unfold q_addtail.
  destruct (rd_queue_cases q s) as [(l & Hr & _ & Hl)|Hf].
  - rewrite (bind_Ok _ _ _ _ _ Hr). cbn.
    apply (in_place_insert K s q (O_queue l)); [exact Hl|reflexivity|exact HK].
  - rewrite (bind_Fault _ _ _ _ _ Hf). apply in_place_refl.
Qed.

Lemma in_place_q_remhead K q :
  K k_queue = true -> respects (in_place K) (q_remhead q).
Proof.
  intros HK s. unfold q_remhead.
  destruct (rd_queue_cases q s) as [(l & Hr & _ & Hl)|Hf].
  - rewrite (bind_Ok _ _ _ _ _ Hr). destruct l as [|t l']; cbn.
    + apply in_place_refl.
    + apply (in_place_insert K s q (O_queue (t :: l'))); [exact Hl|reflexivity|exact HK].
  - rewrite (bind_Fault _ _ _ _ _ Hf). apply in_place_refl.
Qed.

Create HintDb inplace discriminated.

#[local] Hint Resolve pure_ret pure_get pure_raise pure_assert pure_rd_sem pure_rd_lock
  pure_rd_cv pure_rd_queue pure_thread_hassleepers pure_q_preallocate pure_q_empty
  pure_lock_do_i_hold : inplace.
#[local] Hint Resolve in_place_thread_wakeup in_place_thread_sleep in_place_splx
  in_place_upd_sem in_place_upd_lock in_place_upd_cv in_place_q_addtail
  in_place_q_remhead : inplace.
#[local] Hint Extern 1 (_ = true) => reflexivity : inplace.

Ltac inplace :=
  repeat first
    [ progress auto with inplace
    | apply in_place_pure; solve [auto with inplace]
    | apply in_place_bind; [|intros ?]
    | apply respects_if
    | match goal with
      | |- respects _ (match ?x with _ => _ end) => destruct x
      end ].

Lemma in_place_lock_release K lock :
  K k_lock = true -> respects (in_place K) (lock_release lock).
Proof. intros HK. unfold lock_release, splhigh. inplace. Qed.

Lemma in_place_cv_signal K c lock :
  K k_cv = true -> K k_queue = true -> respects (in_place K) (cv_signal c lock).
Proof. intros HK1 HK2. unfold cv_signal, splhigh. inplace. Qed.

Lemma in_place_cv_broadcast_loop K fuel c lock :
  K k_cv = true -> K k_queue = true ->
  respects (in_place K) (cv_broadcast_loop fuel c lock).
Proof.
  intros HK1 HK2. induction fuel as [|fuel IH]; cbn [cv_broadcast_loop]; [inplace|].
  pose proof (in_place_cv_signal K c lock HK1 HK2). inplace.
Qed.

Lemma in_place_cv_broadcast_fuel K fuel c lock :
  K k_cv = true -> K k_queue = true ->
  respects (in_place K) (cv_broadcast_fuel fuel c lock).
Proof.
  intros HK1 HK2. unfold cv_broadcast_fuel.
  pose proof (in_place_cv_broadcast_loop K fuel c lock HK1 HK2). inplace.
Qed.

Lemma in_place_P_loop K sem spl :
  K k_sem = true -> respects (in_place K) (P_loop sem spl).
Proof. intros HK. unfold P_loop. inplace. Qed.

Lemma in_place_lock_acquire_loop K lock spl rest :
  K k_lock = true -> respects (in_place K) (lock_acquire_loop lock spl rest).
Proof.
  intros HK. unfold lock_acquire_loop.
  assert (respects (in_place K) (unwind rest)) by (unfold unwind; inplace).
  inplace.
Qed.

Lemma in_place_lock_acquire_from K rest lock :
  K k_lock = true -> respects (in_place K) (lock_acquire_from rest lock).
Proof.
  intros HK. unfold lock_acquire_from, splhigh.
  pose proof (fun spl => in_place_lock_acquire_loop K lock spl rest HK). inplace.
Qed.

(** X19.  Memory is rewritten in place, each operation within its own kind
    of object.  However a call ends (return, sleep or fault), nothing has
    been allocated or freed, every object still has its kind, the running
    thread, [in_interrupt] and the allocator are unchanged, and the only
    objects whose contents may differ are: semaphores for [P] and [V];
    locks for [lock_acquire] and [lock_release]; condition variables and
    queues for [cv_signal] and [cv_broadcast] (never a lock); locks,
    condition variables and queues for [cv_wait]; semaphores and locks for
    a thread resumed from sleep. *)
Theorem memory_rewritten_in_place sem lock c k :
  respects (in_place only_sem) (P sem)
  /\ respects (in_place only_sem) (V sem)
  /\ respects (in_place only_lock) (lock_acquire lock)
  /\ respects (in_place only_lock) (lock_release lock)
  /\ respects (in_place lock_cv_queue) (cv_wait c lock)
  /\ respects (in_place cv_queue) (cv_signal c lock)
  /\ respects (in_place cv_queue) (cv_broadcast c lock)
  /\ respects (in_place sem_lock) (resume k).
Proof.
  split.
  { unfold P, splhigh.
    pose proof (fun spl => in_place_P_loop only_sem sem spl eq_refl). inplace. }
  split; [unfold V, splhigh; inplace|].
  split; [apply in_place_lock_acquire_from; reflexivity|].
  split; [apply in_place_lock_release; reflexivity|].
  split.
  { unfold cv_wait, splhigh.
    pose proof (in_place_lock_release lock_cv_queue lock eq_refl). inplace. }
  split; [apply in_place_cv_signal; reflexivity|].
  split.
  { intros s. unfold cv_broadcast. apply in_place_cv_broadcast_fuel; reflexivity. }
  destruct k as [sem' spl|lock' spl rest|lock' spl]; cbn [resume].
  - apply in_place_P_loop. reflexivity.
  - apply in_place_lock_acquire_loop. reflexivity.
  - apply in_place_lock_acquire_from. reflexivity.
Qed.

(** *** Going to sleep *)

Lemma P_sleep_inv sem s key k s' :
  P sem s = Sleep key k s' ->
  key = sem /\ k = K_P sem (curspl s)
  /\ s' = asleep_on sem (K_P sem (curspl s)) (set_curspl SPL_HIGH s).
Proof.
  unfold P.
  destruct (sem =? NULL); cbn [negb];
    [rewrite (bind_Fault _ _ _ _ _ (assert_false 67 s)); discriminate|].
  rewrite (bind_Ok _ _ _ _ _ (assert_true 67 s)).
  rewrite (bind_Ok _ _ s (in_interrupt s) s) by reflexivity.
  destruct (in_interrupt s =? 0);
    [|rewrite (bind_Fault _ _ _ _ _ (assert_false 75 s)); discriminate].
  rewrite (bind_Ok _ _ _ _ _ (assert_true 75 s)).
  unfold splhigh. rewrite (bind_Ok _ _ s (curspl s) (set_curspl SPL_HIGH s)) by reflexivity.
  unfold P_loop.
  destruct (rd_sem_cases sem (set_curspl SPL_HIGH s)) as [(x & Hr & _ & Hl)|Hf];
    [|rewrite (bind_Fault _ _ _ _ _ Hf); discriminate].
  rewrite (bind_Ok _ _ _ _ _ Hr).
  destruct (sem_count x =? 0).
  - cbn. intros [= <- <- <-]. auto.
  - rewrite (bind_Ok _ _ _ _ _ Hr).
    destruct (0 <? sem_count x);
      [|rewrite (bind_Fault _ _ _ _ _ (assert_false 81 _)); discriminate].
    rewrite (bind_Ok _ _ _ _ _ (assert_true 81 _)).
    intros H. exfalso. revert H.
    apply never_sleeps_bind; [apply never_sleeps_upd_sem|].
    intros _. awake.
Qed.

Lemma lock_acquire_sleep_inv lock s key k s' :
  lock_acquire lock s = Sleep key k s' ->
  key = lock /\ k = K_lock_acquire lock (curspl s) []
  /\ s' = asleep_on lock (K_lock_acquire lock (curspl s) []) (set_curspl SPL_HIGH s).
Proof.
  unfold lock_acquire, lock_acquire_from.
  destruct (lock =? NULL) eqn:Ep; cbn [negb];
    [rewrite (bind_Fault _ _ _ _ _ (assert_false 141 s)); discriminate|].
  apply Z.eqb_neq in Ep.
  rewrite (bind_Ok _ _ _ _ _ (assert_true 141 s)).
  unfold splhigh. rewrite (bind_Ok _ _ s (curspl s) (set_curspl SPL_HIGH s)) by reflexivity.
  destruct (rd_lock_cases lock (set_curspl SPL_HIGH s)) as [(l & _ & _ & Hl)|Hf];
    [|unfold lock_acquire_loop; rewrite (bind_Fault _ _ _ _ _ Hf); discriminate].
  destruct (bool_decide (held_by_other l (curthread s))) eqn:E.
  - apply bool_decide_eq_true in E.
    rewrite (lock_acquire_loop_sleeps lock (curspl s) [] l _ Ep Hl E).
    intros [= <- <- <-]. auto.
  - apply bool_decide_eq_false in E.
    rewrite (lock_acquire_loop_takes lock (curspl s) l _ Ep Hl E). discriminate.
Qed.

Lemma sleep_after_quiet K {A B} (m : M A) (f : A -> M B) s key k s' :
  never_sleeps m -> level_kept m -> respects (in_place K) m ->
  bind m f s = Sleep key k s' ->
  exists a s1, curspl s1 = curspl s /\ curthread s1 = curthread s
               /\ f a s1 = Sleep key k s'.
Proof.
  intros Hns Hlk Hin H.
  destruct (bind_Sleep_inv _ _ _ _ _ _ H) as [H1|(a & s1 & Hok & H2)].
  - destruct (Hns _ _ _ _ H1).
  - exists a, s1. split; [exact (Hlk _ _ _ Hok)|]. split; [|exact H2].
    specialize (Hin s). rewrite Hok in Hin. cbn in Hin. apply Hin.
Qed.

Lemma cv_wait_sleep_inv c lock s key k s' :
  cv_wait c lock s = Sleep key k s' ->
  key = curthread s /\ k = K_cv_wait lock (curspl s)
  /\ curspl s' = SPL_HIGH /\ curthread s' = curthread s
  /\ sleep_on_record s' key k.
Proof.
  unfold cv_wait.
  destruct (c =? NULL); cbn [negb];
    [rewrite (bind_Fault _ _ _ _ _ (assert_false 245 s)); discriminate|].
  rewrite (bind_Ok _ _ _ _ _ (assert_true 245 s)).
  destruct (lock =? NULL); cbn [negb];
    [rewrite (bind_Fault _ _ _ _ _ (assert_false 246 s)); discriminate|].
  rewrite (bind_Ok _ _ _ _ _ (assert_true 246 s)).
  destruct (lock_do_i_hold_cases lock s) as [(h & Hh)|Hf];
    [|rewrite (bind_Fault _ _ _ _ _ Hf); discriminate].
  rewrite (bind_Ok _ _ _ _ _ Hh).
  destruct (h =? 0); cbn [negb];
    [rewrite (bind_Fault _ _ _ _ _ (assert_false 247 s)); discriminate|].
  rewrite (bind_Ok _ _ _ _ _ (assert_true 247 s)).
  rewrite (bind_Ok _ _ s (in_interrupt s) s) by reflexivity.
  destruct (in_interrupt s =? 0);
    [|rewrite (bind_Fault _ _ _ _ _ (assert_false 253 s)); discriminate].
  rewrite (bind_Ok _ _ _ _ _ (assert_true 253 s)).
  unfold splhigh at 1.
  rewrite (bind_Ok _ _ s (curspl s) (set_curspl SPL_HIGH s)) by reflexivity.
  intros H.
  apply (sleep_after_quiet lock_cv_queue) in H as (a1 & s1 & Hs1 & Ht1 & H);
    [|apply never_sleeps_lock_release|apply level_kept_lock_release
     |apply in_place_lock_release; reflexivity].
  apply (sleep_after_quiet lock_cv_queue) in H as (a2 & s2 & Hs2 & Ht2 & H);
    [|apply never_sleeps_upd_cv|apply level_kept_upd_cv
     |apply in_place_upd_cv; reflexivity].
  apply (sleep_after_quiet lock_cv_queue) in H as (x & s3 & Hs3 & Ht3 & H);
    [|apply never_sleeps_rd_cv|apply level_kept_rd_cv
     |apply in_place_pure, pure_rd_cv].
  apply (sleep_after_quiet lock_cv_queue) in H as (a4 & s4 & Hs4 & Ht4 & H);
    [|apply never_sleeps_q_preallocate|apply level_kept_q_preallocate
     |apply in_place_pure, pure_q_preallocate].
  rewrite (bind_Ok _ _ s4 (curthread s4) s4) in H by reflexivity.
  apply (sleep_after_quiet lock_cv_queue) in H as (a5 & s5 & Hs5 & Ht5 & H);
    [|apply never_sleeps_q_addtail|apply level_kept_q_addtail
     |apply in_place_q_addtail; reflexivity].
  rewrite (bind_Ok _ _ s5 (curthread s5) s5) in H by reflexivity.
  cbn in H. injection H as <- <- <-.
  assert (curthread s5 = curthread s) as Ecur
    by (rewrite Ht5, Ht4, Ht3, Ht2, Ht1; reflexivity).
  assert (curspl s5 = SPL_HIGH) as Espl
    by (rewrite Hs5, Hs4, Hs3, Hs2, Hs1; reflexivity).
  split; [exact Ecur|]. split; [reflexivity|]. split; [exact Espl|].
  split; [exact Ecur|].
  unfold sleep_on_record. cbn. apply lookup_insert_eq.
Qed.



(** ** Count and queue stay in step *)

Lemma holds_lock_of_check lock s h :
  lock <> NULL -> lock_do_i_hold lock s = Ok h s -> h <> 0 -> holds_lock lock s.
Proof.
  intros Hp Hh Hne. split; [exact Hp|].
  destruct (rd_lock_cases lock s) as [(l & _ & _ & Hl)|Hf].
  - exists l. split; [exact Hl|].
    rewrite (lock_do_i_hold_Ok lock l s Hp Hl) in Hh. injection Hh as <-.
    destruct (lock_holder l =? curthread s) eqn:E; [apply Z.eqb_eq; exact E|].
    destruct Hne. reflexivity.
  - unfold lock_do_i_hold in Hh. rewrite (bind_Fault _ _ _ _ _ Hf) in Hh. discriminate.
Qed.

(** A call that got past the three opening assertions of the condition
    variable operations was made by the holder of the lock. *)
Lemma cv_checks_passed {A} (l1 l2 l3 : nat) c lock (rest : M A) s :
  (assert_ l1 (negb (c =? NULL)) ;;
   assert_ l2 (negb (lock =? NULL)) ;;
   h <- lock_do_i_hold lock ;;
   assert_ l3 (negb (h =? 0)) ;;
   rest) s
  = rest s /\ holds_lock lock s
  \/ exists f, (assert_ l1 (negb (c =? NULL)) ;;
                assert_ l2 (negb (lock =? NULL)) ;;
                h <- lock_do_i_hold lock ;;
                assert_ l3 (negb (h =? 0)) ;;
                rest) s = Fault f s.
Proof.
  destruct (c =? NULL); cbn [negb]; [right; eexists; reflexivity|].
  rewrite (bind_Ok _ _ _ _ _ (assert_true l1 s)).
  destruct (lock =? NULL) eqn:Ep; cbn [negb]; [right; eexists; reflexivity|].
  apply Z.eqb_neq in Ep.
  rewrite (bind_Ok _ _ _ _ _ (assert_true l2 s)).
  destruct (lock_do_i_hold_cases lock s) as [(h & Hh)|Hf].
  - rewrite (bind_Ok _ _ _ _ _ Hh).
    destruct (h =? 0) eqn:E0; cbn [negb]; [right; eexists; reflexivity|].
    apply Z.eqb_neq in E0.
    rewrite (bind_Ok _ _ _ _ _ (assert_true l3 s)).
    left. split; [reflexivity|]. exact (holds_lock_of_check lock s h Ep Hh E0).
  - right. rewrite (bind_Fault _ _ _ _ _ Hf). eexists. reflexivity.
Qed.

Lemma cv_signal_by_holder c lock s a s' :
  cv_signal c lock s = Ok a s' -> holds_lock lock s.
Proof.
  unfold cv_signal. intros H.
  match type of H with ?m s = _ =>
    destruct (cv_checks_passed 282 283 284 c lock
                (spl <- splhigh ;;
                 upd_cv c (fun x => with_cv_count (wrap_int (cv_count x - 1)) x) ;;
                 x <- rd_cv c ;;
                 next_thread <- q_remhead (cv_thread_queue x) ;;
                 thread_wakeup next_thread ;; splx spl ;; ret tt) s)
      as [[_ Hl]|[f Hf]] end.
  - exact Hl.
  - rewrite Hf in H. discriminate.
Qed.

Lemma cv_broadcast_by_holder c lock s r s' :
  cv_broadcast c lock s = Ok r s' -> holds_lock lock s.
Proof.
  unfold cv_broadcast, cv_broadcast_fuel. intros H.
  match type of H with
  | (_ ;; _ ;; _ <- _ ;; _ ;; ?rest) s = _ =>
      destruct (cv_checks_passed 305 306 307 c lock rest s) as [[_ Hl]|[f Hf]]
  end.
  - exact Hl.
  - rewrite Hf in H. discriminate.
Qed.

Lemma cv_wait_by_holder c lock s key k s' :
  cv_wait c lock s = Sleep key k s' ->
  exists l, lock <> NULL /\ heap s !! lock = Some (O_lock l)
            /\ lock_holder l = curthread s /\ in_interrupt s = 0.
Proof.
  unfold cv_wait. intros H.
  match type of H with
  | (_ ;; _ ;; _ <- _ ;; _ ;; ?rest) s = _ =>
      destruct (cv_checks_passed 245 246 247 c lock rest s) as [[Hr Hl]|[f Hf]]
  end.
  - rewrite Hr in H. destruct Hl as (Hp & l & Hl & Hme).
    exists l. split; [exact Hp|]. split; [exact Hl|]. split; [exact Hme|].
    rewrite (bind_Ok _ _ s (in_interrupt s) s) in H by reflexivity.
    destruct (in_interrupt s =? 0) eqn:E; [apply Z.eqb_eq; exact E|].
    rewrite (bind_Fault _ _ _ _ _ (assert_false 253 s)) in H. discriminate.
  - rewrite Hf in H. discriminate.
Qed.

(** X21.  The count of a condition variable is the length of its queue, and
    the three operations keep it so.  On a condition variable whose count
    equals the length of its queue: when [cv_wait] puts its caller to
    sleep, the caller has been added at the tail and the count is one
    higher; when [cv_signal] returns, the queue was not empty, its head is
    gone and the count is one lower; when [cv_broadcast] returns, the queue
    is empty and the count is 0.  In each case the condition variable
    still points to the same queue. *)
Theorem cv_count_is_queue_length c lock x q s :
  cv_at c x q s ->
  cv_count x = Z.of_nat (length q) ->
  cv_count x < INT_MAX ->
  (forall key k s',
     cv_wait c lock s = Sleep key k s' ->
     cv_at c (with_cv_count (cv_count x + 1) x) (q ++ [curthread s]) s'
     /\ cv_count x + 1 = Z.of_nat (length (q ++ [curthread s])))
  /\ (forall s',
        cv_signal c lock s = Ok tt s' ->
        exists t q',
          q = t :: q'
          /\ cv_at c (with_cv_count (cv_count x - 1) x) q' s'
          /\ cv_count x - 1 = Z.of_nat (length q'))
  /\ (forall r s',
        cv_broadcast c lock s = Ok r s' ->
        cv_at c (with_cv_count 0 x) [] s').
Proof.
  intros Hcv Hlen Hmax.
  pose proof (cv_at_distinct _ _ _ _ Hcv) as Hne.
  pose proof Hcv as (Hc & Hx & Hqp & Hq).
  split; [|split].
  - intros key k s' H.
    destruct (cv_wait_by_holder _ _ _ _ _ _ H) as (l & Hp & Hl & Hme & Hi).
    assert (holds_lock lock s) as Hlock by (split; [exact Hp|eauto]).
    destruct (holds_lock_distinct _ _ _ _ _ Hcv Hlock) as [Hn1 Hn2].
    rewrite (cv_wait_sleeps c lock x l q s Hcv Hp Hl Hme Hi) in H
      by (unfold INT_MIN; lia).
    injection H as _ _ <-.
    split; [|rewrite length_app; cbn; lia].
    split; [exact Hc|]. split.
    + cbn. rewrite lookup_insert_ne by congruence. apply lookup_insert_eq.
    + split; [exact Hqp|]. cbn. apply lookup_insert_eq.
  - intros s' H.
    pose proof (cv_signal_by_holder _ _ _ _ _ H) as Hlock.
    destruct q as [|t q'].
    + rewrite (cv_signal_empty c lock x s Hcv Hlock) in H. discriminate.
    + rewrite (cv_signal_returns c lock x t q' s Hcv Hlock) in H
        by (unfold INT_MIN; cbn [length] in Hlen; lia).
      injection H as <-. exists t, q'. split; [reflexivity|].
      split; [apply cv_signal_post_cv_at; exact Hcv|].
      cbn [length] in Hlen. lia.
  - intros r s' H.
    pose proof (cv_broadcast_by_holder _ _ _ _ _ H) as Hlock.
    destruct (cv_broadcast_loop_runs c lock q x s (S (Z.to_nat (cv_count x)))
                Hcv Hlock Hlen) as [Hloop _]; [lia|lia|].
    pose proof (cv_broadcast_post_cv_at c q x s Hcv) as Hpost.
    rewrite Hlen, Z.sub_diag in Hpost.
    unfold cv_broadcast in H. rewrite Hx in H.
    rewrite (cv_broadcast_fuel_enters _ c lock s Hc Hlock) in H.
    rewrite (bind_Ok _ _ _ _ _ Hloop) in H.
    rewrite (cv_broadcast_closing c _ _ Hpost eq_refl) in H.
    injection H as _ <-. exact Hpost.
Qed.

Lemma cv_count_is_queue_length_witness :
  exists s',
    cv_signal 16 18 cv_busy_demo = Ok tt s'
    /\ cv_at 16 {| cv_name := 17; cv_count := 1; cv_thread_queue := 19 |} [3] s'.
Proof.
  eexists. split; [reflexivity|].
  match goal with |- cv_at _ _ _ ?s' =>
    destruct (cv_count_is_queue_length 16 18
                {| cv_name := 17; cv_count := 2; cv_thread_queue := 19 |}
                [2; 3] cv_busy_demo) as (_ & H & _);
    [split; [discriminate|split; [reflexivity|split; [discriminate|reflexivity]]]
    |reflexivity
    |cbn; unfold INT_MAX; lia
    |destruct (H s' eq_refl) as (t & q' & Eq & Hat & _)]
  end.
  injection Eq as <- <-. exact Hat.
Defined.

(** ** The semaphore among all the other calls *)

Lemma in_place_keeps_sem K s s' sem x :
  in_place K s s' -> K k_sem = false ->
  heap s !! sem = Some (O_sem x) -> heap s' !! sem = Some (O_sem x).
Proof.
  intros (H & _) HK Hl. specialize (H sem). rewrite Hl in H.
  destruct H as (o' & Ho' & _ & Hsame). rewrite Ho', (Hsame HK). reflexivity.
Qed.

Lemma in_place_cv_wait c lock : respects (in_place lock_cv_queue) (cv_wait c lock).
Proof.
  unfold cv_wait, splhigh.
  pose proof (in_place_lock_release lock_cv_queue lock eq_refl). inplace.
Qed.

Lemma in_place_cv_broadcast c lock :
  respects (in_place lock_cv_queue) (cv_broadcast c lock ;; ret tt).
Proof.
  apply in_place_bind; [|intros r; apply in_place_pure, pure_ret].
  intros s. unfold cv_broadcast. apply in_place_cv_broadcast_fuel; reflexivity.
Qed.

Lemma conserved_by_in_place K sem n s s' done :
  K k_sem = false -> in_place K s s' ->
  sem_conserved sem n s done -> sem_conserved sem n s' done.
Proof.
  intros HK Hin (x & Hl & Hr & Hc). exists x.
  split; [exact (in_place_keeps_sem K s s' sem x Hin HK Hl)|auto].
Qed.

Lemma perform_conserves sem n a s done r :
  sem_conserved sem n s done ->
  perform a s = Some r ->
  match r with
  | Ok _ s' => sem_conserved sem n s' (done ++ ends a s)
  | Sleep _ _ s' => sem_conserved sem n s' done
  | Fault _ _ => True
  end.
Proof.
  intros Hc Hp. destruct a as [t o|t];
    [|exact (dispatch_conserves sem n (E_resume t) s done r Hc Hp)].
  cbn in Hp. destruct (threads s !! t) as [[| |]|]; try discriminate.
  injection Hp as <-.
  assert (sem_conserved sem n (set_curthread t s) done) as Hc'
    by (apply (conserved_frame sem n s); [exact Hc|reflexivity]).
  assert (forall K (m : M unit),
            K k_sem = false -> respects (in_place K) m ->
            match m (set_curthread t s) with
            | Ok _ s' => sem_conserved sem n s' (done ++ [])
            | Sleep _ _ s' => sem_conserved sem n s' done
            | Fault _ _ => True
            end) as Hother.
  { intros K m HK Hm. specialize (Hm (set_curthread t s)).
    destruct (m (set_curthread t s)) as [[] s'|key k s'|f s']; cbn in Hm; [| |exact I].
    - rewrite app_nil_r. exact (conserved_by_in_place K sem n _ _ done HK Hm Hc').
    - exact (conserved_by_in_place K sem n _ _ done HK Hm Hc'). }
  destruct o as [sem'|sem'|lock|lock|c lock|c lock|c lock]; cbn [run_op ends].
  - pose proof (P_heap sem' (set_curthread t s)) as H.
    destruct (P sem' (set_curthread t s)) as [[] s'|key k s'|]; [| |exact I].
    + destruct H as (x' & _ & Hl & Hpos & Hh). eapply conserved_P; eauto.
    + destruct H as [Hh _]. apply (conserved_frame sem n _ _ _ Hc'). rewrite Hh. reflexivity.
  - pose proof (V_heap sem' (set_curthread t s)) as H.
    destruct (V sem' (set_curthread t s)) as [[] s'|key k s'|]; [|destruct H|exact I].
    destruct H as (x' & _ & Hl & Hpos & Hh). eapply conserved_V; eauto.
  - apply (Hother only_lock); [reflexivity|].
    apply in_place_lock_acquire_from. reflexivity.
  - apply (Hother only_lock); [reflexivity|].
    apply in_place_lock_release. reflexivity.
  - apply (Hother lock_cv_queue); [reflexivity|apply in_place_cv_wait].
  - apply (Hother cv_queue); [reflexivity|].
    apply in_place_cv_signal; reflexivity.
  - apply (Hother lock_cv_queue); [reflexivity|apply in_place_cv_broadcast].
Qed.

Lemma exec_conserves sem n acts : forall s done s' done',
  sem_conserved sem n s done ->
  exec acts s done = Running s' done' ->
  sem_conserved sem n s' done'.
Proof.
  induction acts as [|a acts IH]; intros s done s' done' Hc Hrun; cbn in Hrun.
  - injection Hrun as <- <-. exact Hc.
  - destruct (perform a s) as [r|] eqn:Hd; [|discriminate].
    pose proof (perform_conserves sem n a s done r Hc Hd) as Hstep.
    destruct r as [[] s1|key k s1|f s1]; [| |discriminate].
    + exact (IH _ _ _ _ Hstep Hrun).
    + exact (IH _ _ _ _ Hstep Hrun).
Qed.

(** X22.  The books of a semaphore stay balanced among all the other calls.
    Take a semaphore made by [sem_create] with initial count [n] and let
    threads call [P], [V], [lock_acquire], [lock_release], [cv_wait],
    [cv_signal] and [cv_broadcast] with any handles, and be resumed, in
    any order.  As long as the kernel has not panicked, the count is not
    negative and equals [n] plus the [V] calls on it that have returned
    minus the [P] calls on it that have returned: no lock or condition
    variable call ever changes a semaphore. *)
Theorem sem_conservation_among_all_calls namearg n s0 sem s1 acts s' done :
  n <= INT_MAX ->
  sem_create namearg n s0 = Ok sem s1 ->
  sem <> NULL ->
  exec acts s1 [] = Running s' done ->
  exists x,
    heap s' !! sem = Some (O_sem x)
    /\ 0 <= sem_count x
    /\ sem_count x = n + completed (C_V sem) done - completed (C_P sem) done.
Proof.
  intros Hn Hcreate Hp Hrun.
  destruct (sem_create_Ok _ _ _ _ _ Hcreate Hp) as (Hn0 & nm & Hl).
  assert (sem_conserved sem n s1 []) as H1.
  { eexists. split; [exact Hl|]. cbn [sem_count]. rewrite !completed_nil. lia. }
  destruct (exec_conserves sem n acts s1 [] s' done H1 Hrun) as (x & Hx & Hr & Hc).
  exists x. split; [exact Hx|]. split; [lia|exact Hc].
Qed.

Lemma sem_conservation_among_all_calls_witness :
  match sem_create "sem" 1 lock_demo with
  | Ok sem s1 =>
      match exec [Act_call 1 (Op_P sem); Act_call 2 (Op_lock_release 16);
                  Act_resume 3; Act_call 1 (Op_V sem)] s1 [] with
      | Running s' done =>
          done = [C_P sem; C_V sem]
          /\ exists x, heap s' !! sem = Some (O_sem x) /\ sem_count x = 1
      | _ => False
      end
  | _ => False
  end.
Proof.
  destruct (sem_create "sem" 1 lock_demo) as [sem s1|key k s1|f s1] eqn:Hcreate;
    vm_compute in Hcreate; try discriminate.
  injection Hcreate as Hsem Hs1.
  destruct (exec [Act_call 1 (Op_P sem); Act_call 2 (Op_lock_release 16);
                  Act_resume 3; Act_call 1 (Op_V sem)] s1 [])
    as [s' done| |] eqn:Hrun;
    rewrite <- Hsem, <- Hs1 in Hrun; vm_compute in Hrun; try discriminate.
  injection Hrun as Hs' Hdone.
  assert (done = [C_P sem; C_V sem]) as Edone by (rewrite <- Hdone, <- Hsem; reflexivity).
  split; [exact Edone|].
  assert (1 <= INT_MAX) as Hn by (unfold INT_MAX; lia).
  assert (sem <> NULL) as Hp by (rewrite <- Hsem; discriminate).
  destruct (sem_conservation_among_all_calls "sem" 1 lock_demo sem s1
              [Act_call 1 (Op_P sem); Act_call 2 (Op_lock_release 16);
               Act_resume 3; Act_call 1 (Op_V sem)] s' done Hn)
    as (x & Hx & _ & Hc).
  - rewrite <- Hsem, <- Hs1. vm_compute. reflexivity.
  - exact Hp.
  - rewrite <- Hsem, <- Hs1, <- Hs', <- Hdone. vm_compute. reflexivity.
  - exists x. split; [exact Hx|]. rewrite Hc, Edone, <- Hsem. reflexivity.
Defined.

(** ** First come, first woken *)

Lemma wake_each_skips q : forall th t k,
  t ∉ q -> th !! t = Some (T_asleep t k) -> wake_each q th !! t = Some (T_asleep t k).
Proof.
  induction q as [|t' q' IH]; intros th t k Hnot H; [exact H|].
  cbn. apply not_elem_of_cons in Hnot as [Hne Hnot].
  apply IH; [exact Hnot|].
  rewrite lookup_fmap, H. cbn.
  replace (t =? t') with false by (symmetry; apply Z.eqb_neq; exact Hne).
  reflexivity.
Qed.

Lemma signal_times_fifo c lock n : forall x q s,
  cv_at c x q s -> holds_lock lock s ->
  cv_count x = Z.of_nat (length q) -> cv_count x <= INT_MAX ->
  (n <= length q)%nat ->
  exists s',
    signal_times n c lock s = Ok tt s'
    /\ cv_at c (with_cv_count (cv_count x - Z.of_nat n) x) (drop n q) s'
    /\ holds_lock lock s'
    /\ wakeups s' = wakeups s ++ take n q
    /\ threads s' = wake_each (take n q) (threads s)
    /\ curspl s' = curspl s.
Proof.
  induction n as [|n IH]; intros x q s Hcv Hlock Hlen Hmax Hn.
  - exists s. split; [reflexivity|]. cbn [drop take Z.of_nat].
    rewrite Z.sub_0_r, with_cv_count_same, app_nil_r. auto.
  - destruct q as [|t q']; [cbn in Hn; lia|].
    cbn [length] in Hlen, Hn.
    assert (cv_signal c lock s = Ok tt (cv_signal_post c x t q' s)) as Hsig
      by (apply cv_signal_returns; [exact Hcv|exact Hlock|unfold INT_MIN; lia]).
    destruct (IH (with_cv_count (cv_count x - 1) x) q' (cv_signal_post c x t q' s))
      as (s' & Hrun & Hat & Hl' & Hw & Ht & Hs).
    + apply cv_signal_post_cv_at. exact Hcv.
    + apply cv_signal_post_holds_lock; assumption.
    + cbn [with_cv_count cv_count]. lia.
    + cbn [with_cv_count cv_count]. lia.
    + lia.
    + exists s'. split.
      { cbn [signal_times]. rewrite (bind_Ok _ _ _ _ _ Hsig). exact Hrun. }
      cbn [drop take].
      split.
      { rewrite with_cv_count_twice in Hat. cbn [with_cv_count cv_count] in Hat.
        replace (cv_count x - Z.of_nat (S n)) with (cv_count x - 1 - Z.of_nat n) by lia.
        exact Hat. }
      split; [exact Hl'|].
      split; [rewrite Hw; cbn; rewrite <- app_assoc; reflexivity|].
      split; [rewrite Ht; reflexivity|].
      rewrite Hs. reflexivity.
Qed.

(** X23.  First come, first woken.  On a condition variable whose count is
    the length of its queue [q], [n] calls of [cv_signal] in a row by the
    holder of the lock (for [n] up to the length of [q]) all return; they
    wake the first [n] entries of [q], in the order of the queue, and
    leave the others queued in their order with the count [n] lower.  A
    waiter beyond the first [n] that sleeps on its own address is still
    asleep; one among the first [n] is runnable. *)
Theorem cv_signal_wakes_in_queue_order c lock x q s n :
  cv_at c x q s ->
  holds_lock lock s ->
  cv_count x = Z.of_nat (length q) ->
  cv_count x <= INT_MAX ->
  (n <= length q)%nat ->
  exists s',
    signal_times n c lock s = Ok tt s'
    /\ wakeups s' = wakeups s ++ take n q
    /\ heap s' !! cv_thread_queue x = Some (O_queue (drop n q))
    /\ heap s' !! c = Some (O_cv (with_cv_count (cv_count x - Z.of_nat n) x))
    /\ (forall t k, t ∈ take n q -> threads s !! t = Some (T_asleep t k) ->
                    threads s' !! t = Some (T_woken k))
    /\ (forall t k, t ∉ take n q -> threads s !! t = Some (T_asleep t k) ->
                    threads s' !! t = Some (T_asleep t k)).
Proof.
  intros Hcv Hlock Hlen Hmax Hn.
  destruct (signal_times_fifo c lock n x q s Hcv Hlock Hlen Hmax Hn)
    as (s' & Hrun & (_ & Hx' & _ & Hq') & _ & Hw & Ht & _).
  exists s'. split; [exact Hrun|]. split; [exact Hw|].
  split; [exact Hq'|]. split; [exact Hx'|].
  split.
  - intros t k Hin Hs. rewrite Ht. apply wake_each_asleep; assumption.
  - intros t k Hnot Hs. rewrite Ht. apply wake_each_skips; assumption.
Qed.

Lemma cv_signal_wakes_in_queue_order_witness :
  exists s',
    signal_times 1 16 18 cv_busy_demo = Ok tt s'
    /\ wakeups s' = [2]
    /\ heap s' !! 19 = Some (O_queue [3])
    /\ threads s' !! 3 = Some (T_asleep 3 (K_cv_wait 18 0)).
Proof.
  destruct (cv_signal_wakes_in_queue_order 16 18
              {| cv_name := 17; cv_count := 2; cv_thread_queue := 19 |}
              [2; 3] cv_busy_demo 1)
    as (s' & Hrun & Hw & Hq & _ & _ & Hrest).
  - split; [discriminate|split; [reflexivity|split; [discriminate|reflexivity]]].
  - split; [discriminate|eexists; split; reflexivity].
  - reflexivity.
  - cbn. unfold INT_MAX. lia.
  - cbn. lia.
  - exists s'. split; [exact Hrun|]. split; [exact Hw|]. split; [exact Hq|].
    apply Hrest; [|reflexivity].
    cbn. intros Hin. apply elem_of_cons in Hin as [H|H]; [discriminate|].
    apply elem_of_nil in H. exact H.
Defined.
